(** * NotchPlayer: the FFmpeg front end [ffdecode.c]

    A shallow embedding of [src/NotchPlayer/ffdecode.c]: the duration
    estimators, the codec identifier and the decode pump.  The C code is an
    orchestration layer over libavformat, libavcodec, libswscale and
    CoreVideo; those libraries are collaborators whose answers the code
    branches on, so they appear here as an interface ([LibAV]) over an
    abstract world, and every statement holds for all implementations of it.

    - C [double] is IEEE-754 binary64, modelled by [spec_float] with
      [prec = 53] and [emax = 1024] and round-to-nearest-even.
    - [int64_t] and [int] values are [Z]; fields hold values of their C type.
    - Pointers are [Z] with [NULL = 0]; the session structs live in a finite
      map from addresses, so that a dangling session pointer is visible. *)

From Stdlib Require Import ZArith List Bool String Ascii Lia.
From Stdlib Require Import Floats.SpecFloat.
From stdpp Require Import gmap.
Import ListNotations.
Local Open Scope Z_scope.

(** ** C [double] *)

Module Double.

Definition double := spec_float.
Definition prec := 53.
Definition emax := 1024.

Definition NAN : double := S754_nan.
Definition zero : double := S754_zero false.

(** [(double)z] for an integer [z]. *)
Definition of_int (z : Z) : double := binary_normalize prec emax z 0 false.

Definition div (x y : double) : double := SFdiv prec emax x y.
Definition mul (x y : double) : double := SFmul prec emax x y.

(** [x > y]; false as soon as one side is NaN. *)
Definition gt (x y : double) : bool := SFltb y x.

(** [(int64_t)x]: truncation toward zero.  C leaves the conversion of NaN,
    of infinities and of values outside [int64_t] undefined; the model
    returns [INT64_MIN] there, as x86-64 does. *)
Definition to_int64 (x : double) : Z :=
  match x with
  | S754_finite s m e =>
      let a := if 0 <=? e then Z.shiftl (Zpos m) e else Z.shiftr (Zpos m) (- e) in
      let v := if s then - a else a in
      if (- 2 ^ 63 <=? v) && (v <? 2 ^ 63) then v else - 2 ^ 63
  | S754_zero _ => 0
  | _ => - 2 ^ 63
  end.

(** [normal lo hi x]: [x] is a positive normal number with
    [2^(lo-1) <= x < 2^hi]. *)
Definition normal (lo hi : Z) (x : double) : Prop :=
  exists m e,
    x = S754_finite false m e /\ Zdigits2 (Zpos m) = 53 /\ lo <= e + 53 <= hi.

(** A duration that is reported as known: strictly positive. *)
Definition strictly_positive (x : double) : Prop := gt x zero = true.

End Double.
Import Double.

(** ** Constants of libavutil and of the C library *)

Definition INT64_MIN : Z := - 2 ^ 63.
Definition INT64_MAX : Z := 2 ^ 63 - 1.
Definition AV_NOPTS_VALUE : Z := INT64_MIN.
Definition AV_TIME_BASE : Z := 1000000.
(** [FFERRTAG('E','O','F',' ')]. *)
Definition AVERROR_EOF : Z := - (69 + 79 * 2 ^ 8 + 70 * 2 ^ 16 + 32 * 2 ^ 24).
(** [EAGAIN] on Darwin, the platform of CoreVideo. *)
Definition EAGAIN : Z := 35.
Definition AVERROR (e : Z) : Z := - e.
Definition AVSEEK_FLAG_BACKWARD : Z := 1.
Definition AV_LOG_ERROR : Z := 16.

Definition pointer := Z.
Definition NULL : pointer := 0.

(** [int64_t] arithmetic wraps modulo [2^64]. *)
Definition wrap64 (z : Z) : Z := (z + 2 ^ 63) mod 2 ^ 64 - 2 ^ 63.

(** ** The structs of libavformat and libavcodec the code reads *)

Module AVRational.
Record t := mk { num : Z; den : Z }.
End AVRational.

Definition AV_TIME_BASE_Q : AVRational.t := AVRational.mk 1 AV_TIME_BASE.

(** [av_q2d]: [a.num / (double) a.den]. *)
Definition av_q2d (a : AVRational.t) : double :=
  div (of_int (AVRational.num a)) (of_int (AVRational.den a)).

Module AVCodecParameters.
Record t := mk { codec_id : Z; codec_tag : Z }.
End AVCodecParameters.

Module AVStream.
Record t := mk {
  time_base : AVRational.t;
  duration : Z;
  nb_frames : Z;
  avg_frame_rate : AVRational.t;
  r_frame_rate : AVRational.t;
  codecpar : AVCodecParameters.t
}.
End AVStream.

Module AVFormatContext.
Record t := mk {
  duration : Z;
  bit_rate : Z;
  pb : pointer;
  streams : list AVStream.t
}.
End AVFormatContext.

Module AVPacket.
Record t := mk { stream_index : Z; pts : Z; dts : Z }.
End AVPacket.

Module AVFrame.
Record t := mk { best_effort_timestamp : Z }.
End AVFrame.

(** [fmt->streams[i]].  libavformat answers [av_find_best_stream] with an
    index into [streams]; an index past the end reads the stray stream. *)
Definition stray_stream : AVStream.t :=
  AVStream.mk (AVRational.mk 0 0) 0 0 (AVRational.mk 0 0) (AVRational.mk 0 0)
    (AVCodecParameters.mk 0 0).

Definition stream_at (fmt : AVFormatContext.t) (i : Z) : AVStream.t :=
  nth (Z.to_nat i) (AVFormatContext.streams fmt) stray_stream.

(** ** C strings *)

(** A [char] array is a list of byte values; reading past the array is read
    as the terminating NUL. *)
Fixpoint strcmp (a b : list Z) : Z :=
  match a, b with
  | x :: a', y :: b' =>
      if x =? y then (if x =? 0 then 0 else strcmp a' b') else x - y
  | x :: _, [] => x
  | [], y :: _ => - y
  | [], [] => 0
  end.

(** The bytes of a string literal, with its terminating NUL. *)
Definition literal (s : string) : list Z :=
  map (fun c => Z.of_N (N_of_ascii c)) (list_ascii_of_string s) ++ [0].

(** The string a [char] array denotes: its bytes up to the first NUL. *)
Fixpoint c_string (a : list Z) : list Z :=
  match a with
  | [] => []
  | x :: a' => if x =? 0 then [] else x :: c_string a'
  end.

(** ** The collaborators

    One world [W] stands for everything outside [ffdecode.c]: the file system,
    the demuxer and decoder states behind the FFmpeg handles, the allocator.
    Each function below is the C function of the same name; it takes the
    world and returns what the code reads from the call, with the new world. *)

Class LibAV (W : Type) := {
  (* libavformat *)
  avformat_open_input : option string -> W -> Z * pointer * W;
  avformat_find_stream_info : pointer -> W -> Z * W;
  avformat_close_input : pointer -> W -> W;
  (** the fields behind an [AVFormatContext*] *)
  format_context : pointer -> W -> AVFormatContext.t;
  (** [av_find_best_stream(fmt, AVMEDIA_TYPE_VIDEO, -1, -1, NULL, 0)] *)
  av_find_best_stream : pointer -> W -> Z;
  avio_size : pointer -> W -> Z;
  avformat_seek_file : pointer -> Z -> Z -> Z -> Z -> Z -> W -> Z * W;
  av_seek_frame : pointer -> Z -> Z -> Z -> W -> Z * W;
  av_read_frame : pointer -> W -> Z * AVPacket.t * W;
  av_rescale_q : Z -> AVRational.t -> AVRational.t -> Z;
  av_packet_alloc : W -> pointer * W;
  av_packet_unref : pointer -> W -> W;
  av_packet_free : pointer -> W -> W;
  (* libavcodec *)
  avcodec_get_name : Z -> W -> option (list Z);
  avcodec_find_decoder : Z -> W -> pointer;
  avcodec_alloc_context3 : pointer -> W -> pointer * W;
  avcodec_parameters_to_context : pointer -> AVCodecParameters.t -> W -> Z * W;
  avcodec_open2 : pointer -> pointer -> W -> Z * W;
  avcodec_free_context : pointer -> W -> W;
  (** the decoder's [width] and [height] *)
  codec_dimensions : pointer -> W -> Z * Z;
  (** [pkt = None] is the drain marker, [avcodec_send_packet(dec, NULL)] *)
  avcodec_send_packet : pointer -> option AVPacket.t -> W -> Z * W;
  avcodec_receive_frame : pointer -> W -> Z * AVFrame.t * W;
  av_frame_alloc : W -> pointer * W;
  av_frame_unref : pointer -> W -> W;
  av_frame_free : pointer -> W -> W;
  (* libswscale *)
  sws_getContext : pointer -> W -> pointer * W;
  sws_scale : pointer -> pointer -> pointer -> W -> W;
  sws_freeContext : pointer -> W -> W;
  (* CoreVideo: [None] is any result other than [kCVReturnSuccess] *)
  CVPixelBufferCreate : Z -> Z -> W -> option pointer * W;
  CVPixelBufferLockBaseAddress : pointer -> W -> W;
  CVPixelBufferUnlockBaseAddress : pointer -> W -> W;
  av_log_set_level : Z -> W -> W;
  (* the C library *)
  calloc : W -> pointer * W;
  free : pointer -> W -> W
}.

(** Every call into a collaborator is recorded, in order. *)
Inductive Call :=
  | OpenInput (ret : Z)
  | FindStreamInfo (ret : Z)
  | CloseInput (fmt : pointer)
  | SeekFile (ret : Z)
  | SeekFrame (ts : Z) (ret : Z)
  | ReadFrame (ret : Z)
  | PacketAlloc (pkt : pointer)
  | PacketUnref
  | PacketFree (pkt : pointer)
  | AllocContext3 (dec : pointer)
  | ParametersToContext (ret : Z)
  | Open2 (ret : Z)
  | CodecFreeContext (dec : pointer)
  | SendPacket (pkt : option AVPacket.t) (ret : Z)
  | ReceiveFrame (ret : Z)
  | FrameAlloc (frame : pointer)
  | FrameUnref
  | FrameFree (frame : pointer)
  | GetContext (sws : pointer)
  | Scale
  | FreeContext (sws : pointer)
  | PixelBufferCreate (pb : option pointer)
  | LockBaseAddress
  | UnlockBaseAddress
  | LogSetLevel
  | Calloc (p : pointer)
  | Free (p : pointer).

(** World passing with a log of the calls made, written as a monad so that
    the embedding keeps the statement order of the C code. *)
Record Run (W A : Type) := mkRun { value : A; world : W; calls : list Call }.
Arguments mkRun {W A} _ _ _.
Arguments value {W A} _.
Arguments world {W A} _.
Arguments calls {W A} _.

Definition M (W A : Type) : Type := W -> Run W A.

Definition ret {W A} (a : A) : M W A := fun w => mkRun a w [].

Definition bind {W A B} (m : M W A) (k : A -> M W B) : M W B :=
  fun w =>
    let r := m w in
    let r' := k (value r) (world r) in
    mkRun (value r') (world r') (calls r ++ calls r').

(** A call that returns something. *)
Definition call {W A} (ev : A -> Call) (f : W -> A * W) : M W A :=
  fun w => mkRun (fst (f w)) (snd (f w)) [ev (fst (f w))].

(** A [void] call. *)
Definition call_ {W} (ev : Call) (f : W -> W) : M W unit :=
  fun w => mkRun tt (f w) [ev].

(** Reading through a pointer. *)
Definition peek {W A} (f : W -> A) : M W A := fun w => mkRun (f w) w [].

Declare Scope ffm_scope.
Delimit Scope ffm_scope with ffm.
Notation "x <- m ;; k" := (bind m (fun x => k))
  (at level 100, m at next level, right associativity) : ffm_scope.
Notation "m ;; k" := (bind m (fun _ => k))
  (at level 100, right associativity) : ffm_scope.

(** ** The duration estimators and the codec identifier *)

Section Estimators.

Context {W : Type} {lib : LibAV W}.
Local Open Scope ffm_scope.

(** [vs->avg_frame_rate.num > 0 ? vs->avg_frame_rate : vs->r_frame_rate] *)
Definition frame_rate (vs : AVStream.t) : AVRational.t :=
  if AVRational.num (AVStream.avg_frame_rate vs) >? 0
  then AVStream.avg_frame_rate vs
  else AVStream.r_frame_rate vs.

(** [(x > 0) ? x : NAN], the last statement of every estimator. *)
Definition known_or_nan (x : double) : double :=
  if gt x zero then x else NAN.

(** [ff_probe_duration], lines 17-57. *)
Definition ff_probe_duration (path : option string) : M W double :=
  let dur := NAN in
  o <- call (fun o => OpenInput (fst o)) (avformat_open_input path) ;;
  let fmt := snd o in
  if negb (fst o =? 0) then ret NAN else
  r <- call FindStreamInfo (avformat_find_stream_info fmt) ;;
  if r <? 0 then
    call_ (CloseInput fmt) (avformat_close_input fmt) ;; ret NAN
  else
  (* 1) container duration *)
  f <- peek (format_context fmt) ;;
  let dur :=
    if AVFormatContext.duration f >? 0
    then div (of_int (AVFormatContext.duration f)) (of_int AV_TIME_BASE)
    else dur in
  vindex <- peek (av_find_best_stream fmt) ;;
  let vs := if vindex >=? 0 then Some (stream_at f vindex) else None in
  (* 2) stream duration in stream time_base *)
  let dur :=
    match vs with
    | Some vs =>
        if negb (gt dur zero) && (AVStream.duration vs >? 0)
        then mul (of_int (AVStream.duration vs)) (av_q2d (AVStream.time_base vs))
        else dur
    | None => dur
    end in
  (* 3) nb_frames / avg_frame_rate *)
  let dur :=
    match vs with
    | Some vs =>
        if negb (gt dur zero) && (AVStream.nb_frames vs >? 0) then
          let afr := frame_rate vs in
          let fps :=
            if AVRational.den afr >? 0
            then div (of_int (AVRational.num afr)) (of_int (AVRational.den afr))
            else zero in
          if gt fps zero then div (of_int (AVStream.nb_frames vs)) fps else dur
        else dur
    | None => dur
    end in
  (* 4) file size / bit_rate *)
  dur <-
    (if negb (gt dur zero) && (AVFormatContext.bit_rate f >? 0)
        && negb (AVFormatContext.pb f =? NULL) then
       size <- peek (avio_size (AVFormatContext.pb f)) ;;
       ret (if size >? 0
            then div (of_int (wrap64 (size * 8))) (of_int (AVFormatContext.bit_rate f))
            else dur)
     else ret dur) ;;
  call_ (CloseInput fmt) (avformat_close_input fmt) ;;
  ret (known_or_nan dur).

(** [ff_frame_accurate_duration], lines 58-84. *)
Definition ff_frame_accurate_duration (path : option string) : M W double :=
  if path is None then ret NAN else
  let out := NAN in
  o <- call (fun o => OpenInput (fst o)) (avformat_open_input path) ;;
  let fmt := snd o in
  if negb (fst o =? 0) then ret NAN else
  r <- call FindStreamInfo (avformat_find_stream_info fmt) ;;
  if r <? 0 then
    call_ (CloseInput fmt) (avformat_close_input fmt) ;; ret NAN
  else
  vindex <- peek (av_find_best_stream fmt) ;;
  f <- peek (format_context fmt) ;;
  let out :=
    if vindex >=? 0 then
      let vs := stream_at f vindex in
      let afr := frame_rate vs in
      if (AVRational.num afr >? 0) && (AVRational.den afr >? 0)
         && (AVStream.nb_frames vs >? 0)
      then mul (of_int (AVStream.nb_frames vs))
               (div (of_int (AVRational.den afr)) (of_int (AVRational.num afr)))
      else if negb (AVStream.duration vs =? AV_NOPTS_VALUE)
      then mul (of_int (AVStream.duration vs)) (av_q2d (AVStream.time_base vs))
      else out
    else out in
  call_ (CloseInput fmt) (avformat_close_input fmt) ;;
  ret (known_or_nan out).

(** [ff_get_avg_fps], lines 87-104. *)
Definition ff_get_avg_fps (path : option string) : M W double :=
  if path is None then ret NAN else
  let fps := NAN in
  o <- call (fun o => OpenInput (fst o)) (avformat_open_input path) ;;
  let fmt := snd o in
  if negb (fst o =? 0) then ret NAN else
  r <- call FindStreamInfo (avformat_find_stream_info fmt) ;;
  if r <? 0 then
    call_ (CloseInput fmt) (avformat_close_input fmt) ;; ret NAN
  else
  vindex <- peek (av_find_best_stream fmt) ;;
  f <- peek (format_context fmt) ;;
  let fps :=
    if vindex >=? 0 then
      let afr := frame_rate (stream_at f vindex) in
      if (AVRational.num afr >? 0) && (AVRational.den afr >? 0)
      then div (of_int (AVRational.num afr)) (of_int (AVRational.den afr))
      else fps
    else fps in
  call_ (CloseInput fmt) (avformat_close_input fmt) ;;
  ret fps.

(** [tagstr]: the four bytes of the codec tag, low byte first, in a
    [char\[5\]] initialised to zero. *)
Definition tagstr (tag : Z) : list Z :=
  [ Z.land tag 255;
    Z.land (Z.shiftr tag 8) 255;
    Z.land (Z.shiftr tag 16) 255;
    Z.land (Z.shiftr tag 24) 255;
    0 ].

(** [ff_is_notchlc], lines 105-143. *)
Definition ff_is_notchlc (path : option string) : M W Z :=
  if path is None then ret (-1) else
  o <- call (fun o => OpenInput (fst o)) (avformat_open_input path) ;;
  let fmt := snd o in
  if negb (fst o =? 0) then ret (-1) else
  r <- call FindStreamInfo (avformat_find_stream_info fmt) ;;
  if r <? 0 then
    call_ (CloseInput fmt) (avformat_close_input fmt) ;; ret (-1)
  else
  vindex <- peek (av_find_best_stream fmt) ;;
  if vindex <? 0 then
    call_ (CloseInput fmt) (avformat_close_input fmt) ;; ret (-1)
  else
  f <- peek (format_context fmt) ;;
  let vs := stream_at f vindex in
  let cid := AVCodecParameters.codec_id (AVStream.codecpar vs) in
  name <- peek (avcodec_get_name cid) ;;
  let is_notch :=
    match name with
    | Some name =>
        if strcmp name (literal "notchlc") =? 0 then true
        else
          let tag := AVCodecParameters.codec_tag (AVStream.codecpar vs) in
          negb (tag =? 0) && (strcmp (tagstr tag) (literal "nclc") =? 0)
    | None =>
        let tag := AVCodecParameters.codec_tag (AVStream.codecpar vs) in
        negb (tag =? 0) && (strcmp (tagstr tag) (literal "nclc") =? 0)
    end in
  call_ (CloseInput fmt) (avformat_close_input fmt) ;;
  ret (if is_notch then 1 else 0).

(** [ff_format_duration], lines 144-161. *)
Definition ff_format_duration (path : option string) : M W double :=
  if path is None then ret NAN else
  let dur := NAN in
  o <- call (fun o => OpenInput (fst o)) (avformat_open_input path) ;;
  let fmt := snd o in
  if negb (fst o =? 0) then ret NAN else
  r <- call FindStreamInfo (avformat_find_stream_info fmt) ;;
  if r <? 0 then
    call_ (CloseInput fmt) (avformat_close_input fmt) ;; ret NAN
  else
  f <- peek (format_context fmt) ;;
  let dur :=
    if AVFormatContext.duration f >? 0
    then div (of_int (AVFormatContext.duration f)) (of_int AV_TIME_BASE)
    else dur in
  call_ (CloseInput fmt) (avformat_close_input fmt) ;;
  ret (known_or_nan dur).

End Estimators.

(** ** The precise duration: seek to the end and scan the last packets *)

Section Precise.

Context {W : Type} {lib : LibAV W}.
Local Open Scope ffm_scope.

(** [try_seek_to_end], lines 163-193. *)
Definition try_seek_to_end (fmt : pointer) (vindex : Z) : M W Z :=
  r <- call SeekFile
         (avformat_seek_file fmt vindex INT64_MIN INT64_MAX INT64_MAX
            AVSEEK_FLAG_BACKWARD) ;;
  if r >=? 0 then ret 0 else
  f <- peek (format_context fmt) ;;
  (* second try: container duration converted to the stream time base *)
  r <- (if AVFormatContext.duration f >? 0 then
          let ts := av_rescale_q (AVFormatContext.duration f - 1) AV_TIME_BASE_Q
                      (AVStream.time_base (stream_at f vindex)) in
          call (SeekFrame ts) (av_seek_frame fmt vindex ts AVSEEK_FLAG_BACKWARD)
        else ret (-1)) ;;
  if r >=? 0 then ret 0 else
  (* third try: stream duration *)
  f <- peek (format_context fmt) ;;
  let vs := stream_at f vindex in
  r <- (if negb (AVStream.duration vs =? AV_NOPTS_VALUE) && (AVStream.duration vs >? 0)
        then
          let ts := AVStream.duration vs - 1 in
          call (SeekFrame ts) (av_seek_frame fmt vindex ts AVSEEK_FLAG_BACKWARD)
        else ret (-1)) ;;
  if r >=? 0 then ret 0 else
  (* last resort: seek to zero *)
  r <- call (SeekFrame 0) (av_seek_frame fmt vindex 0 AVSEEK_FLAG_BACKWARD) ;;
  if r >=? 0 then ret 0 else ret (-1).

(** The timestamp of a packet: [pts] if present, else [dts]. *)
Definition packet_ts (pkt : AVPacket.t) : Z :=
  if negb (AVPacket.pts pkt =? AV_NOPTS_VALUE) then AVPacket.pts pkt
  else if negb (AVPacket.dts pkt =? AV_NOPTS_VALUE) then AVPacket.dts pkt
  else AV_NOPTS_VALUE.

(** The hard cap of the forward scan. *)
Definition SCAN_CAP : Z := 10000.

(** [while (iter++ < 10000) { ... }], lines 246-256; [left] is the number
    of iterations the counter still allows, [10000 - iter]. *)
Fixpoint scan_packets (left : nat) (fmt pkt : pointer) (vindex last_ts : Z)
  : M W Z :=
  match left with
  | O => ret last_ts
  | S left' =>
      rp <- call (fun rp => ReadFrame (fst rp)) (av_read_frame fmt) ;;
      if fst rp <? 0 then ret last_ts else
      let last_ts :=
        if AVPacket.stream_index (snd rp) =? vindex then
          let ts := packet_ts (snd rp) in
          if negb (ts =? AV_NOPTS_VALUE) then ts else last_ts
        else last_ts in
      call_ PacketUnref (av_packet_unref pkt) ;;
      scan_packets left' fmt pkt vindex last_ts
  end.

(** [windows_sec], line 219. *)
Definition windows_sec : list double := [zero; of_int 5; of_int 30].

(** The loop over the windows, lines 222-260; the result is [last_ts]. *)
Fixpoint scan_windows (windows : list double) (fmt : pointer) (vindex : Z)
    (tb : AVRational.t) (last_ts : Z) : M W Z :=
  match windows with
  | [] => ret last_ts
  | window :: windows' =>
      r <- try_seek_to_end fmt vindex ;;
      if r <? 0 then ret last_ts else
      (* step back by the window size, lines 227-240 *)
      (if gt window zero then
         let step := to_int64 (div window (av_q2d tb)) in
         f <- peek (format_context fmt) ;;
         let vs := stream_at f vindex in
         let target :=
           if AVFormatContext.duration f >? 0
           then av_rescale_q (AVFormatContext.duration f) AV_TIME_BASE_Q tb
           else if negb (AVStream.duration vs =? AV_NOPTS_VALUE)
           then AVStream.duration vs
           else INT64_MAX in
         if negb (target =? INT64_MAX) then
           let back := wrap64 (target - (if step >? 0 then step else 1)) in
           let back := if back <? 0 then 0 else back in
           r <- call (SeekFrame back)
                  (av_seek_frame fmt vindex back AVSEEK_FLAG_BACKWARD) ;;
           ret tt
         else ret tt
       else ret tt) ;;
      (* read forward, lines 243-257 *)
      pkt <- call PacketAlloc av_packet_alloc ;;
      if pkt =? NULL then ret last_ts else
      last_ts <- scan_packets (Z.to_nat SCAN_CAP) fmt pkt vindex last_ts ;;
      call_ (PacketFree pkt) (av_packet_free pkt) ;;
      if negb (last_ts =? AV_NOPTS_VALUE) then ret last_ts
      else scan_windows windows' fmt vindex tb last_ts
  end.

(** [ff_precise_duration], lines 195-272. *)
Definition ff_precise_duration (path : option string) : M W double :=
  if path is None then ret NAN else
  let result := NAN in
  o <- call (fun o => OpenInput (fst o)) (avformat_open_input path) ;;
  let fmt := snd o in
  if negb (fst o =? 0) then ret NAN else
  r <- call FindStreamInfo (avformat_find_stream_info fmt) ;;
  if r <? 0 then
    call_ (CloseInput fmt) (avformat_close_input fmt) ;; ret NAN
  else
  vindex <- peek (av_find_best_stream fmt) ;;
  if vindex <? 0 then
    (* no video stream: fall back to the container duration *)
    f <- peek (format_context fmt) ;;
    let result :=
      if AVFormatContext.duration f >? 0
      then div (of_int (AVFormatContext.duration f)) (of_int AV_TIME_BASE)
      else result in
    call_ (CloseInput fmt) (avformat_close_input fmt) ;;
    ret (known_or_nan result)
  else
  f <- peek (format_context fmt) ;;
  let tb := AVStream.time_base (stream_at f vindex) in
  last_ts <- scan_windows windows_sec fmt vindex tb AV_NOPTS_VALUE ;;
  f <- peek (format_context fmt) ;;
  let vs := stream_at f vindex in
  let result :=
    if negb (last_ts =? AV_NOPTS_VALUE)
    then mul (of_int last_ts) (av_q2d tb)
    else if negb (AVStream.duration vs =? AV_NOPTS_VALUE)
            && (AVStream.duration vs >? 0)
    then mul (of_int (AVStream.duration vs)) (av_q2d tb)
    else if AVFormatContext.duration f >? 0
    then div (of_int (AVFormatContext.duration f)) (of_int AV_TIME_BASE)
    else result in
  call_ (CloseInput fmt) (avformat_close_input fmt) ;;
  ret (known_or_nan result).

End Precise.

(** ** The decode pump *)

Module FFPlayer.
Record t := mk {
  fmt : pointer;
  vdec : pointer;
  vstream : Z;
  frame : pointer;
  pkt : pointer;
  sws : pointer;
  out_w : Z;
  out_h : Z;
  at_eof : Z
}.

(** What [calloc] returns. *)
Definition zeroed : t := mk NULL NULL 0 NULL NULL NULL 0 0 0.

Definition set_fmt (v : pointer) (p : t) : t :=
  mk v (vdec p) (vstream p) (frame p) (pkt p) (sws p) (out_w p) (out_h p) (at_eof p).
Definition set_vdec (v : pointer) (p : t) : t :=
  mk (fmt p) v (vstream p) (frame p) (pkt p) (sws p) (out_w p) (out_h p) (at_eof p).
Definition set_vstream (v : Z) (p : t) : t :=
  mk (fmt p) (vdec p) v (frame p) (pkt p) (sws p) (out_w p) (out_h p) (at_eof p).
Definition set_frame (v : pointer) (p : t) : t :=
  mk (fmt p) (vdec p) (vstream p) v (pkt p) (sws p) (out_w p) (out_h p) (at_eof p).
Definition set_pkt (v : pointer) (p : t) : t :=
  mk (fmt p) (vdec p) (vstream p) (frame p) v (sws p) (out_w p) (out_h p) (at_eof p).
Definition set_sws (v : pointer) (p : t) : t :=
  mk (fmt p) (vdec p) (vstream p) (frame p) (pkt p) v (out_w p) (out_h p) (at_eof p).
Definition set_out (w h : Z) (p : t) : t :=
  mk (fmt p) (vdec p) (vstream p) (frame p) (pkt p) (sws p) w h (at_eof p).
Definition set_at_eof (v : Z) (p : t) : t :=
  mk (fmt p) (vdec p) (vstream p) (frame p) (pkt p) (sws p) (out_w p) (out_h p) v.
End FFPlayer.

(** The out-parameters of [ff_open]; [None] is a null pointer passed by the
    caller, [Some v] a variable holding [v]. *)
Module OpenOut.
Record t := mk {
  width : option Z;
  height : option Z;
  time_base : option double;
  duration_s : option double
}.
End OpenOut.

(** What [ff_next_frame] leaves behind: the return value ([None] when the
    loop has not returned within the fuel), the session, [*out_ib] and the
    variable behind [out_pts_s]. *)
Module Next.
Record t := mk {
  result : option Z;
  player : FFPlayer.t;
  out_ib : pointer;
  out_pts_s : option double
}.
End Next.

Section Pump.

Context {W : Type} {lib : LibAV W}.
Local Open Scope ffm_scope.

(** [*q = v] when [q] is not null. *)
Definition store {A} (q : option A) (v : A) : option A :=
  if q is Some _ then Some v else None.

(** [setup_sws], lines 285-291. *)
Definition setup_sws (p : FFPlayer.t) : M W (Z * FFPlayer.t) :=
  if negb (FFPlayer.sws p =? NULL) then ret (0, p) else
  c <- call GetContext (sws_getContext (FFPlayer.vdec p)) ;;
  let p := FFPlayer.set_sws c p in
  ret (if negb (FFPlayer.sws p =? NULL) then 0 else -1, p).

(** The failure exit of [ff_open], lines 338-346. *)
Definition ff_open_fail (a : pointer) (p : FFPlayer.t) : M W unit :=
  (if negb (FFPlayer.frame p =? NULL)
   then call_ (FrameFree (FFPlayer.frame p)) (av_frame_free (FFPlayer.frame p))
   else ret tt) ;;
  (if negb (FFPlayer.pkt p =? NULL)
   then call_ (PacketFree (FFPlayer.pkt p)) (av_packet_free (FFPlayer.pkt p))
   else ret tt) ;;
  (if negb (FFPlayer.vdec p =? NULL)
   then call_ (CodecFreeContext (FFPlayer.vdec p)) (avcodec_free_context (FFPlayer.vdec p))
   else ret tt) ;;
  (if negb (FFPlayer.fmt p =? NULL)
   then call_ (CloseInput (FFPlayer.fmt p)) (avformat_close_input (FFPlayer.fmt p))
   else ret tt) ;;
  call_ (Free a) (free a).

(** [ff_open], lines 293-347.  The result is the session pointer, the
    out-parameters and the memory holding the live sessions. *)
Definition ff_open (path : option string) (out : OpenOut.t)
    (mem : gmap Z FFPlayer.t) : M W (pointer * OpenOut.t * gmap Z FFPlayer.t) :=
  call_ LogSetLevel (av_log_set_level AV_LOG_ERROR) ;;
  a <- call Calloc calloc ;;
  if a =? NULL then ret (NULL, out, mem) else
  let p := FFPlayer.zeroed in
  o <- call (fun o => OpenInput (fst o)) (avformat_open_input path) ;;
  let p := FFPlayer.set_fmt (snd o) p in
  if fst o <? 0 then ff_open_fail a p ;; ret (NULL, out, mem) else
  r <- call FindStreamInfo (avformat_find_stream_info (FFPlayer.fmt p)) ;;
  if r <? 0 then ff_open_fail a p ;; ret (NULL, out, mem) else
  vindex <- peek (av_find_best_stream (FFPlayer.fmt p)) ;;
  let p := FFPlayer.set_vstream vindex p in
  if FFPlayer.vstream p <? 0 then ff_open_fail a p ;; ret (NULL, out, mem) else
  f <- peek (format_context (FFPlayer.fmt p)) ;;
  let vs := stream_at f (FFPlayer.vstream p) in
  dec <- peek (avcodec_find_decoder
                 (AVCodecParameters.codec_id (AVStream.codecpar vs))) ;;
  if dec =? NULL then ff_open_fail a p ;; ret (NULL, out, mem) else
  c <- call AllocContext3 (avcodec_alloc_context3 dec) ;;
  let p := FFPlayer.set_vdec c p in
  if FFPlayer.vdec p =? NULL then ff_open_fail a p ;; ret (NULL, out, mem) else
  r <- call ParametersToContext
         (avcodec_parameters_to_context (FFPlayer.vdec p) (AVStream.codecpar vs)) ;;
  if r <? 0 then ff_open_fail a p ;; ret (NULL, out, mem) else
  r <- call Open2 (avcodec_open2 (FFPlayer.vdec p) dec) ;;
  if r <? 0 then ff_open_fail a p ;; ret (NULL, out, mem) else
  fr <- call FrameAlloc av_frame_alloc ;;
  let p := FFPlayer.set_frame fr p in
  pk <- call PacketAlloc av_packet_alloc ;;
  let p := FFPlayer.set_pkt pk p in
  if (FFPlayer.frame p =? NULL) || (FFPlayer.pkt p =? NULL)
  then ff_open_fail a p ;; ret (NULL, out, mem) else
  wh <- peek (codec_dimensions (FFPlayer.vdec p)) ;;
  let p := FFPlayer.set_out (fst wh) (snd wh) p in
  let p := FFPlayer.set_at_eof 0 p in
  f <- peek (format_context (FFPlayer.fmt p)) ;;
  let vs := stream_at f (FFPlayer.vstream p) in
  let dur :=
    if negb (AVFormatContext.duration f =? AV_NOPTS_VALUE)
    then div (of_int (AVFormatContext.duration f)) (of_int AV_TIME_BASE)
    else if negb (AVStream.duration vs =? AV_NOPTS_VALUE)
    then mul (of_int (AVStream.duration vs)) (av_q2d (AVStream.time_base vs))
    else NAN in
  let out :=
    OpenOut.mk (store (OpenOut.width out) (FFPlayer.out_w p))
               (store (OpenOut.height out) (FFPlayer.out_h p))
               (store (OpenOut.time_base out) (av_q2d (AVStream.time_base vs)))
               (store (OpenOut.duration_s out) dur) in
  ret (a, out, <[a := p]> mem).

(** [ff_close], lines 350-358.  [None] is undefined behaviour: [p] is
    neither null nor the address of a live session, so [p->sws] reads
    memory that was freed. *)
Definition ff_close (a : pointer) (mem : gmap Z FFPlayer.t)
  : M W (option (gmap Z FFPlayer.t)) :=
  if a =? NULL then ret (Some mem) else
  match mem !! a with
  | None => ret None
  | Some p =>
      (if negb (FFPlayer.sws p =? NULL)
       then call_ (FreeContext (FFPlayer.sws p)) (sws_freeContext (FFPlayer.sws p))
       else ret tt) ;;
      (if negb (FFPlayer.frame p =? NULL)
       then call_ (FrameFree (FFPlayer.frame p)) (av_frame_free (FFPlayer.frame p))
       else ret tt) ;;
      (if negb (FFPlayer.pkt p =? NULL)
       then call_ (PacketFree (FFPlayer.pkt p)) (av_packet_free (FFPlayer.pkt p))
       else ret tt) ;;
      (if negb (FFPlayer.vdec p =? NULL)
       then call_ (CodecFreeContext (FFPlayer.vdec p))
              (avcodec_free_context (FFPlayer.vdec p))
       else ret tt) ;;
      (if negb (FFPlayer.fmt p =? NULL)
       then call_ (CloseInput (FFPlayer.fmt p)) (avformat_close_input (FFPlayer.fmt p))
       else ret tt) ;;
      call_ (Free a) (free a) ;;
      ret (Some (delete a mem))
  end.

(** Lines 395-442 of [ff_next_frame]: receive a frame and convert it;
    [again] is the [continue] of the enclosing loop. *)
Definition receive_and_convert (again : FFPlayer.t -> M W Next.t)
    (p : FFPlayer.t) (out_ib : pointer) (out_pts_s : option double)
  : M W Next.t :=
  rf <- call (fun rf => ReceiveFrame (fst rf))
          (avcodec_receive_frame (FFPlayer.vdec p)) ;;
  let r := fst rf in
  if r =? AVERROR EAGAIN then again p
  else if r =? AVERROR_EOF then ret (Next.mk (Some 0) p out_ib out_pts_s)
  else if r <? 0 then ret (Next.mk (Some r) p out_ib out_pts_s)
  else
  pb <- call PixelBufferCreate
          (CVPixelBufferCreate (FFPlayer.out_w p) (FFPlayer.out_h p)) ;;
  match pb with
  | None => ret (Next.mk (Some (-3)) p out_ib out_pts_s)
  | Some pb =>
      call_ LockBaseAddress (CVPixelBufferLockBaseAddress pb) ;;
      call_ Scale (sws_scale (FFPlayer.sws p) (FFPlayer.frame p) pb) ;;
      call_ UnlockBaseAddress (CVPixelBufferUnlockBaseAddress pb) ;;
      f <- peek (format_context (FFPlayer.fmt p)) ;;
      let ts := AVFrame.best_effort_timestamp (snd rf) in
      let pts :=
        if negb (ts =? AV_NOPTS_VALUE)
        then mul (of_int ts)
               (av_q2d (AVStream.time_base (stream_at f (FFPlayer.vstream p))))
        else NAN in
      call_ FrameUnref (av_frame_unref (FFPlayer.frame p)) ;;
      ret (Next.mk (Some 1) p pb (store out_pts_s pts))
  end.

(** The [for (;;)] loop of [ff_next_frame], lines 364-443. *)
Fixpoint ff_next_frame_loop (fuel : nat) (p : FFPlayer.t) (out_ib : pointer)
    (out_pts_s : option double) : M W Next.t :=
  match fuel with
  | O => ret (Next.mk None p out_ib out_pts_s)
  | S fuel' =>
      let again := fun p => ff_next_frame_loop fuel' p out_ib out_pts_s in
      if FFPlayer.at_eof p =? 0 then
        rp <- call (fun rp => ReadFrame (fst rp)) (av_read_frame (FFPlayer.fmt p)) ;;
        let r := fst rp in
        if r =? AVERROR_EOF then
          (* no more packets: start draining *)
          let p := FFPlayer.set_at_eof 1 p in
          call_ PacketUnref (av_packet_unref (FFPlayer.pkt p)) ;;
          r <- call (SendPacket None) (avcodec_send_packet (FFPlayer.vdec p) None) ;;
          receive_and_convert again p out_ib out_pts_s
        else if r <? 0 then
          (* read error (not EOF) *)
          call_ PacketUnref (av_packet_unref (FFPlayer.pkt p)) ;;
          ret (Next.mk (Some r) p out_ib out_pts_s)
        else if negb (AVPacket.stream_index (snd rp) =? FFPlayer.vstream p) then
          call_ PacketUnref (av_packet_unref (FFPlayer.pkt p)) ;;
          again p
        else
          (* normal packet *)
          r <- call (SendPacket (Some (snd rp)))
                 (avcodec_send_packet (FFPlayer.vdec p) (Some (snd rp))) ;;
          call_ PacketUnref (av_packet_unref (FFPlayer.pkt p)) ;;
          receive_and_convert again p out_ib out_pts_s
      else
        (* already at EOF: keep draining *)
        r <- call (SendPacket None) (avcodec_send_packet (FFPlayer.vdec p) None) ;;
        if (r <? 0) && negb (r =? AVERROR EAGAIN)
        then ret (Next.mk (Some r) p out_ib out_pts_s)
        else receive_and_convert again p out_ib out_pts_s
  end.

(** [ff_next_frame], lines 360-444; [out_ib] is what the caller's variable
    holds before the call. *)
Definition ff_next_frame (fuel : nat) (p : FFPlayer.t) (out_ib : pointer)
    (out_pts_s : option double) : M W Next.t :=
  let out_ib := NULL in
  if FFPlayer.sws p =? NULL then
    rs <- setup_sws p ;;
    let p := snd rs in
    if fst rs <? 0 then ret (Next.mk (Some (-2)) p out_ib out_pts_s)
    else ff_next_frame_loop fuel p out_ib out_pts_s
  else ff_next_frame_loop fuel p out_ib out_pts_s.

End Pump.

(** ** A scripted world

    A small implementation of the collaborators, used to run the code on
    concrete inputs: the container is described by its fields, and the
    demuxer, decoder and allocator answer from scripts. *)

Module Scripted.

Record world := mk {
  open_ret : Z;                      (* answer of avformat_open_input *)
  info_ret : Z;                      (* answer of avformat_find_stream_info *)
  container : AVFormatContext.t;
  best_stream : Z;                   (* answer of av_find_best_stream *)
  file_size : Z;                     (* answer of avio_size *)
  codec_name : option (list Z);      (* answer of avcodec_get_name *)
  decoder : pointer;                 (* answer of avcodec_find_decoder *)
  seeks : list Z;                    (* answers of the seeks; 0 after the last *)
  packets : list (Z * AVPacket.t);   (* answers of av_read_frame; then EOF *)
  sends : list Z;                    (* answers of avcodec_send_packet; then 0 *)
  frames : list (Z * AVFrame.t);     (* answers of avcodec_receive_frame; then EOF *)
  buffers : list (option pointer);   (* answers of CVPixelBufferCreate *)
  next : pointer                     (* the next address the allocators hand out *)
}.

Definition no_packet : AVPacket.t := AVPacket.mk 0 AV_NOPTS_VALUE AV_NOPTS_VALUE.
Definition no_frame : AVFrame.t := AVFrame.mk AV_NOPTS_VALUE.

Definition seek (w : world) : Z * world :=
  let 'mk a b c d e f g sk pk sn fr bf nx := w in
  match sk with
  | [] => (0, w)
  | r :: sk' => (r, mk a b c d e f g sk' pk sn fr bf nx)
  end.

Definition read (w : world) : Z * AVPacket.t * world :=
  let 'mk a b c d e f g sk pk sn fr bf nx := w in
  match pk with
  | [] => (AVERROR_EOF, no_packet, w)
  | r :: pk' => (fst r, snd r, mk a b c d e f g sk pk' sn fr bf nx)
  end.

Definition send (w : world) : Z * world :=
  let 'mk a b c d e f g sk pk sn fr bf nx := w in
  match sn with
  | [] => (0, w)
  | r :: sn' => (r, mk a b c d e f g sk pk sn' fr bf nx)
  end.

Definition receive (w : world) : Z * AVFrame.t * world :=
  let 'mk a b c d e f g sk pk sn fr bf nx := w in
  match fr with
  | [] => (AVERROR_EOF, no_frame, w)
  | r :: fr' => (fst r, snd r, mk a b c d e f g sk pk sn fr' bf nx)
  end.

Definition buffer (w : world) : option pointer * world :=
  let 'mk a b c d e f g sk pk sn fr bf nx := w in
  match bf with
  | [] => (None, w)
  | r :: bf' => (r, mk a b c d e f g sk pk sn fr bf' nx)
  end.

Definition alloc (w : world) : pointer * world :=
  let 'mk a b c d e f g sk pk sn fr bf nx := w in
  (nx, mk a b c d e f g sk pk sn fr bf (nx + 1)).

#[global] Instance lib : LibAV world := {
  avformat_open_input := fun _ w =>
    if open_ret w =? 0 then let (a, w') := alloc w in (0, a, w')
    else (open_ret w, NULL, w);
  avformat_find_stream_info := fun _ w => (info_ret w, w);
  avformat_close_input := fun _ w => w;
  format_context := fun _ w => container w;
  av_find_best_stream := fun _ w => best_stream w;
  avio_size := fun _ w => file_size w;
  avformat_seek_file := fun _ _ _ _ _ _ w => seek w;
  av_seek_frame := fun _ _ _ _ w => seek w;
  av_read_frame := fun _ w => read w;
  av_rescale_q := fun a bq cq =>
    (a * (AVRational.num bq * AVRational.den cq))
      / (AVRational.den bq * AVRational.num cq);
  av_packet_alloc := alloc;
  av_packet_unref := fun _ w => w;
  av_packet_free := fun _ w => w;
  avcodec_get_name := fun _ w => codec_name w;
  avcodec_find_decoder := fun _ w => decoder w;
  avcodec_alloc_context3 := fun _ w => alloc w;
  avcodec_parameters_to_context := fun _ _ w => (0, w);
  avcodec_open2 := fun _ _ w => (0, w);
  avcodec_free_context := fun _ w => w;
  codec_dimensions := fun _ _ => (1920, 1080);
  avcodec_send_packet := fun _ _ w => send w;
  avcodec_receive_frame := fun _ w => receive w;
  av_frame_alloc := alloc;
  av_frame_unref := fun _ w => w;
  av_frame_free := fun _ w => w;
  sws_getContext := fun _ w => alloc w;
  sws_scale := fun _ _ _ w => w;
  sws_freeContext := fun _ w => w;
  CVPixelBufferCreate := fun _ _ w => buffer w;
  CVPixelBufferLockBaseAddress := fun _ w => w;
  CVPixelBufferUnlockBaseAddress := fun _ w => w;
  av_log_set_level := fun _ w => w;
  calloc := alloc;
  free := fun _ w => w
}.

End Scripted.

(** ** The notions the statements use *)

(** A duration as the estimators promise it: unknown, or strictly positive. *)
Definition nan_or_positive (x : double) : Prop := x = NAN \/ strictly_positive x.

(** Values of the C types [int64_t] and [int], and rationals made of [int]s. *)
Definition is_int64 (z : Z) : bool := (INT64_MIN <=? z) && (z <=? INT64_MAX).
Definition is_int (z : Z) : bool := (- 2 ^ 31 <=? z) && (z <? 2 ^ 31).
Definition is_rational (q : AVRational.t) : bool :=
  is_int (AVRational.num q) && is_int (AVRational.den q).

Definition stream_typed (vs : AVStream.t) : bool :=
  is_rational (AVStream.time_base vs) && is_int64 (AVStream.duration vs)
  && is_int64 (AVStream.nb_frames vs)
  && is_rational (AVStream.avg_frame_rate vs) && is_rational (AVStream.r_frame_rate vs).

(** The frame rate of a stream, in the words of the specification: the
    average frame rate is preferred, and the real (nominal) frame rate is
    the fall-back for a stream whose average rate is not known, that is,
    whose average rate has no positive numerator.  Nothing here refers to
    the code. *)
Definition preferred_rate (vs : AVStream.t) : AVRational.t :=
  match AVRational.num (AVStream.avg_frame_rate vs) ?= 0 with
  | Gt => AVStream.avg_frame_rate vs
  | _ => AVStream.r_frame_rate vs
  end.

Section Prober.

Context {W : Type} {lib : LibAV W}.

(** The Stream Prober of the specification: open the container and resolve
    its stream structure; [None] is [ProbeError].  On success the result is
    the handle and the world in which the estimators read the metadata. *)
Definition stream_prober (path : option string) (w : W) : option (pointer * W) :=
  let o := avformat_open_input path w in
  if negb (fst (fst o) =? 0) then None else
  let i := avformat_find_stream_info (snd (fst o)) (snd o) in
  if fst i <? 0 then None else Some (snd (fst o), snd i).

(** The Selected Video Stream, if there is one. *)
Definition selected (fmt : pointer) (w : W) : option AVStream.t :=
  if av_find_best_stream fmt w >=? 0
  then Some (stream_at (format_context fmt w) (av_find_best_stream fmt w))
  else None.

End Prober.

(** The integers the fast probe converts are values of their C types, and
    [size * 8] does not overflow. *)
Definition probe_typed (f : AVFormatContext.t) (vs : option AVStream.t) (size : Z)
  : bool :=
  is_int64 (AVFormatContext.duration f) && is_int64 (AVFormatContext.bit_rate f)
  && (if vs is Some vs then stream_typed vs else true)
  && (size <=? INT64_MAX / 8).

(** A rational is nonzero, the test the specification words for the frame
    count tier: neither its numerator nor its denominator is zero. *)
Definition rate_nonzero (q : AVRational.t) : bool :=
  negb (AVRational.num q =? 0) && negb (AVRational.den q =? 0).

(** The tiers of the fast probe.  The frame count tier applies to a frame
    rate that is strictly positive, numerator and denominator; a rate that
    is only nonzero is not enough. *)
Definition size_tier (f : AVFormatContext.t) (size : Z) : double :=
  if negb (AVFormatContext.pb f =? NULL) && (size >? 0)
     && (AVFormatContext.bit_rate f >? 0)
  then div (of_int (size * 8)) (of_int (AVFormatContext.bit_rate f))
  else NAN.

Definition fast_probe_tiers (f : AVFormatContext.t) (vs : option AVStream.t)
    (size : Z) : double :=
  if AVFormatContext.duration f >? 0
  then div (of_int (AVFormatContext.duration f)) (of_int AV_TIME_BASE)
  else
    match vs with
    | Some vs =>
        let by_stream :=
          mul (of_int (AVStream.duration vs)) (av_q2d (AVStream.time_base vs)) in
        let rate := preferred_rate vs in
        if (AVStream.duration vs >? 0) && gt by_stream zero then by_stream
        else if (AVStream.nb_frames vs >? 0)
                && (AVRational.num rate >? 0) && (AVRational.den rate >? 0)
        then div (of_int (AVStream.nb_frames vs))
               (div (of_int (AVRational.num rate)) (of_int (AVRational.den rate)))
        else size_tier f size
    | None => size_tier f size
    end.

(** The container a path leads to is well typed for the fast probe. *)
Definition probe_well_typed {W : Type} {lib : LibAV W} (path : option string) (w : W)
  : Prop :=
  match stream_prober path w with
  | None => True
  | Some (fmt, w') =>
      let f := format_context fmt w' in
      probe_typed f (selected fmt w') (avio_size (AVFormatContext.pb f) w') = true
  end.

(** The best-effort duration [ff_open] reports: container duration
    preferred, else stream duration times time base, else unknown. *)
Definition best_effort_duration (f : AVFormatContext.t) (vs : AVStream.t) : double :=
  if negb (AVFormatContext.duration f =? AV_NOPTS_VALUE)
  then div (of_int (AVFormatContext.duration f)) (of_int AV_TIME_BASE)
  else if negb (AVStream.duration vs =? AV_NOPTS_VALUE)
  then mul (of_int (AVStream.duration vs)) (av_q2d (AVStream.time_base vs))
  else NAN.

(** The frame-accurate duration of the selected stream: the frame count
    times the frame period of the preferred frame rate when both are known;
    else the stream duration times the time base, when that is known and
    the product is strictly positive; else unknown. *)
Definition frame_accurate_value (vs : option AVStream.t) : double :=
  match vs with
  | None => NAN
  | Some vs =>
      let rate := preferred_rate vs in
      if (AVRational.num rate >? 0) && (AVRational.den rate >? 0)
         && (AVStream.nb_frames vs >? 0)
      then mul (of_int (AVStream.nb_frames vs))
             (div (of_int (AVRational.den rate)) (of_int (AVRational.num rate)))
      else if negb (AVStream.duration vs =? AV_NOPTS_VALUE)
      then known_or_nan
             (mul (of_int (AVStream.duration vs)) (av_q2d (AVStream.time_base vs)))
      else NAN
  end.

(** The selected stream of the container a path leads to has fields of
    their C types. *)
Definition selected_typed {W : Type} {lib : LibAV W} (path : option string) (w : W)
  : Prop :=
  match stream_prober path w with
  | None => True
  | Some (fmt, w') =>
      is_int64 (AVFormatContext.duration (format_context fmt w')) = true /\
      if selected fmt w' is Some vs then stream_typed vs = true else True
  end.

(** The candidate the precise duration settles on, by priority: the last
    captured packet timestamp, else the stream duration, else the container
    duration, else unknown. *)
Definition precise_candidate (f : AVFormatContext.t) (vs : AVStream.t)
    (tb : AVRational.t) (last_ts : Z) : double :=
  if negb (last_ts =? AV_NOPTS_VALUE)
  then mul (of_int last_ts) (av_q2d tb)
  else if negb (AVStream.duration vs =? AV_NOPTS_VALUE) && (AVStream.duration vs >? 0)
  then mul (of_int (AVStream.duration vs)) (av_q2d tb)
  else if AVFormatContext.duration f >? 0
  then div (of_int (AVFormatContext.duration f)) (of_int AV_TIME_BASE)
  else NAN.

(** The container duration, when the container reports one. *)
Definition container_tier (f : AVFormatContext.t) : double :=
  if AVFormatContext.duration f >? 0
  then div (of_int (AVFormatContext.duration f)) (of_int AV_TIME_BASE)
  else NAN.

(** The bytes of a string, without a terminator. *)
Definition ascii_bytes (s : string) : list Z :=
  map (fun c => Z.of_N (N_of_ascii c)) (list_ascii_of_string s).

(** A four-character codec tag decoded into its four bytes, low byte first. *)
Definition fourcc (tag : Z) : list Z :=
  [ Z.land tag 255;
    Z.land (Z.shiftr tag 8) 255;
    Z.land (Z.shiftr tag 16) 255;
    Z.land (Z.shiftr tag 24) 255 ].

(** The decoder name is the given one. *)
Definition named (name : option (list Z)) (s : string) : bool :=
  if name is Some n then bool_decide (c_string n = ascii_bytes s) else false.

(** The codec tag decodes to the given four characters. *)
Definition tagged (tag : Z) (s : string) : bool :=
  bool_decide (fourcc tag = ascii_bytes s).

(** The number of packets read in a log of calls. *)
Fixpoint reads (l : list Call) : nat :=
  match l with
  | [] => 0
  | ReadFrame _ :: l' => S (reads l')
  | _ :: l' => reads l'
  end.

(** What closing a session releases, in order: the conversion context, the
    frame and packet buffers, the decoder and the source, each when the
    session holds one. *)
Definition released (p : FFPlayer.t) : list Call :=
  (if FFPlayer.sws p =? NULL then [] else [FreeContext (FFPlayer.sws p)])
  ++ (if FFPlayer.frame p =? NULL then [] else [FrameFree (FFPlayer.frame p)])
  ++ (if FFPlayer.pkt p =? NULL then [] else [PacketFree (FFPlayer.pkt p)])
  ++ (if FFPlayer.vdec p =? NULL then [] else [CodecFreeContext (FFPlayer.vdec p)])
  ++ (if FFPlayer.fmt p =? NULL then [] else [CloseInput (FFPlayer.fmt p)]).

(** ** Concrete containers

    Scripted worlds on which the code is run in the examples below. *)

Module Clips.

(** Ten seconds of video at 30 frames per second, timed in thirtieths of a
    second. *)
Definition ten_seconds_stream : AVStream.t :=
  AVStream.mk (AVRational.mk 1 30) 300 300 (AVRational.mk 30 1) (AVRational.mk 30 1)
    (AVCodecParameters.mk 0 0).

Definition ten_seconds : Scripted.world :=
  Scripted.mk 0 0 (AVFormatContext.mk 10000000 0 NULL [ten_seconds_stream]) 0 0
    None 1 [] [] [] [] [] 100.

(** The same container when the demuxer delivers a single packet after the
    seek to the end, stamped 0. *)
Definition first_packet_only : Scripted.world :=
  Scripted.mk 0 0 (AVFormatContext.mk 10000000 0 NULL [ten_seconds_stream]) 0 0
    None 1 [] [(0, AVPacket.mk 0 0 0)] [] [] [] 100.

(** A stream of 30 frames per second that reports no frame count and a
    duration of zero ticks, in a container that reports no duration. *)
Definition empty_stream : AVStream.t :=
  AVStream.mk (AVRational.mk 1 30) 0 0 (AVRational.mk 30 1) (AVRational.mk 30 1)
    (AVCodecParameters.mk 0 0).

Definition empty_clip : Scripted.world :=
  Scripted.mk 0 0 (AVFormatContext.mk AV_NOPTS_VALUE 0 NULL [empty_stream]) 0 0
    None 1 [] [] [] [] [] 100.

(** A container that reports a duration of zero. *)
Definition still_image : Scripted.world :=
  Scripted.mk 0 0 (AVFormatContext.mk 0 0 NULL [empty_stream]) 0 0
    None 1 [] [] [] [] [] 100.

(** A source whose first read fails with [AVERROR(EIO)]. *)
Definition broken_read : Scripted.world :=
  Scripted.mk 0 0 (AVFormatContext.mk 10000000 0 NULL [ten_seconds_stream]) 0 0
    None 1 [] [(-5, Scripted.no_packet)] [] [] [] 100.

(** Streams of one codec under three guises: named "notchlc", tagged
    'nclc' under another name, and another codec altogether. *)
Definition tag_nclc : Z := 110 + 99 * 2 ^ 8 + 108 * 2 ^ 16 + 99 * 2 ^ 24.
Definition tag_avc1 : Z := 97 + 118 * 2 ^ 8 + 99 * 2 ^ 16 + 49 * 2 ^ 24.

Definition with_codec (name : option (list Z)) (tag : Z) : Scripted.world :=
  Scripted.mk 0 0
    (AVFormatContext.mk 10000000 0 NULL
       [AVStream.mk (AVRational.mk 1 30) 300 300 (AVRational.mk 30 1)
          (AVRational.mk 30 1) (AVCodecParameters.mk 0 tag)])
    0 0 name 1 [] [] [] [] [] 100.

(** A container with an audio stream only. *)
Definition audio_only : Scripted.world :=
  Scripted.mk 0 0 (AVFormatContext.mk 10000000 0 NULL []) (-1) 0
    None 1 [] [] [] [] [] 100.

(** Two video packets around an audio packet; the decoder answers the
    first with a frame, asks for more after the second and hands out the
    second frame once it is drained. *)
Definition two_frames : Scripted.world :=
  Scripted.mk 0 0 (AVFormatContext.mk 10000000 0 NULL [ten_seconds_stream]) 0 0
    None 1 []
    [(0, AVPacket.mk 0 0 0); (0, AVPacket.mk 1 0 0); (0, AVPacket.mk 0 1 1)] []
    [(0, AVFrame.mk 0); (AVERROR EAGAIN, Scripted.no_frame); (0, AVFrame.mk 1)]
    [Some 77; Some 78] 100.

(** The caller of [ff_open] passes no out-parameter, or all of them. *)
Definition no_out : OpenOut.t := OpenOut.mk None None None None.
Definition all_out : OpenOut.t := OpenOut.mk (Some 0) (Some 0) (Some NAN) (Some NAN).

(** An open session: converter set up, not at end of input. *)
Definition session : FFPlayer.t := FFPlayer.mk 101 102 0 103 104 105 1920 1080 0.

(** The same session once the end of input has been seen. *)
Definition draining : FFPlayer.t := FFPlayer.mk 101 102 0 103 104 105 1920 1080 1.

End Clips.

(** ** Logs of calls, resources and scripts

    The notions used by the properties of the code beyond the statements of
    the specification: what a log of calls opens, closes, acquires and
    releases, and what a scripted source delivers. *)

(** [MKTAG(a,b,c,d)] of libavutil: a four-character code, first character in
    the low byte. *)
Definition MKTAG (a b c d : Z) : Z :=
  Z.lor a (Z.lor (Z.shiftl b 8) (Z.lor (Z.shiftl c 16) (Z.shiftl d 24))).

(** The number of times a log closes a container. *)
Fixpoint closes (l : list Call) : nat :=
  match l with
  | [] => 0
  | CloseInput _ :: l' => S (closes l')
  | _ :: l' => closes l'
  end.

(** The log of a probe of [path]: nothing but the failed open, or a
    successful open, calls that close nothing, and the close of the container
    that was opened. *)
Definition opens_and_closes {W : Type} {lib : LibAV W} (path : option string) (w : W)
    (l : list Call) : Prop :=
  let o := avformat_open_input path w in
  if fst (fst o) =? 0
  then exists mid,
         l = OpenInput 0 :: mid ++ [CloseInput (snd (fst o))] /\ closes mid = 0%nat
  else l = [OpenInput (fst (fst o))].

(** The calls of a probe that only reads metadata: the open alone when it
    fails; else the open, the resolution of the streams and the close. *)
Definition metadata_calls {W : Type} {lib : LibAV W} (path : option string) (w : W)
  : list Call :=
  let o := avformat_open_input path w in
  if fst (fst o) =? 0
  then [OpenInput 0;
        FindStreamInfo (fst (avformat_find_stream_info (snd (fst o)) (snd o)));
        CloseInput (snd (fst o))]
  else [OpenInput (fst (fst o))].

(** The container a path leads to reports a duration of its C type. *)
Definition container_typed {W : Type} {lib : LibAV W} (path : option string) (w : W)
  : Prop :=
  match stream_prober path w with
  | None => True
  | Some (fmt, w') => is_int64 (AVFormatContext.duration (format_context fmt w')) = true
  end.

(** A number that is finite: neither an infinity nor NaN. *)
Definition is_finite (x : double) : bool :=
  match x with
  | S754_finite _ _ _ | S754_zero _ => true
  | _ => false
  end.

(** The preferred frame rate of the selected stream as a number, when its
    numerator and denominator are positive. *)
Definition average_rate (vs : option AVStream.t) : double :=
  match vs with
  | None => NAN
  | Some vs =>
      let rate := preferred_rate vs in
      if (AVRational.num rate >? 0) && (AVRational.den rate >? 0)
      then div (of_int (AVRational.num rate)) (of_int (AVRational.den rate))
      else NAN
  end.





(** Every seek the container a path leads to is asked for fails. *)
Definition no_seek_succeeds {W : Type} {lib : LibAV W} (path : option string) (w : W)
  : Prop :=
  match stream_prober path w with
  | None => True
  | Some (fmt, w') =>
      0 <= av_find_best_stream fmt w' /\
      value (try_seek_to_end fmt (av_find_best_stream fmt w') w') < 0
  end.

(** The number of seeks and of packet allocations in a log of calls. *)
Fixpoint seeks (l : list Call) : nat :=
  match l with
  | [] => 0
  | SeekFile _ :: l' | SeekFrame _ _ :: l' => S (seeks l')
  | _ :: l' => seeks l'
  end.

Fixpoint packet_allocs (l : list Call) : nat :=
  match l with
  | [] => 0
  | PacketAlloc _ :: l' => S (packet_allocs l')
  | _ :: l' => packet_allocs l'
  end.

(** The log of a forward scan: every packet read is unreferenced before the
    next one is read, and a read that fails is the last call. *)
Fixpoint scan_log (l : list Call) : bool :=
  match l with
  | [] => true
  | ReadFrame r :: l' =>
      match l' with
      | [] => r <? 0
      | PacketUnref :: l'' => (0 <=? r) && scan_log l''
      | _ => false
      end
  | _ => false
  end.

(** The source delivers the packets [l], one per read, and then fails. *)
Fixpoint delivers {W : Type} {lib : LibAV W} (fmt pkt : pointer)
    (l : list AVPacket.t) (w : W) : Prop :=
  match l with
  | [] => fst (fst (av_read_frame fmt w)) < 0
  | x :: l' =>
      let rp := av_read_frame fmt w in
      0 <= fst (fst rp) /\ snd (fst rp) = x /\
      delivers fmt pkt l' (av_packet_unref pkt (snd rp))
  end.

(** A packet of the stream [vindex] that carries a timestamp. *)
Definition stamped (vindex : Z) (pkt : AVPacket.t) : bool :=
  (AVPacket.stream_index pkt =? vindex)
  && negb ((AVPacket.pts pkt =? AV_NOPTS_VALUE) && (AVPacket.dts pkt =? AV_NOPTS_VALUE)).

(** The timestamp of the last stamped packet of [l]; [init] when there is
    none. *)
Definition last_stamp (vindex : Z) (l : list AVPacket.t) (init : Z) : Z :=
  match last (List.filter (stamped vindex) l) with
  | Some pkt =>
      if AVPacket.pts pkt =? AV_NOPTS_VALUE then AVPacket.dts pkt else AVPacket.pts pkt
  | None => init
  end.

(** The kinds of resources the code acquires and releases by pointer. *)
Inductive Resource := Session | Decoder | Frame | Packet | Converter.

(** The pointer a call acquires: what an allocator returned, unless null. *)
Definition acquires (k : Resource) (c : Call) : option pointer :=
  match k, c with
  | Session, Calloc x | Decoder, AllocContext3 x | Frame, FrameAlloc x
  | Packet, PacketAlloc x | Converter, GetContext x =>
      if x =? NULL then None else Some x
  | _, _ => None
  end.

(** The pointer a call releases. *)
Definition releases (k : Resource) (c : Call) : option pointer :=
  match k, c with
  | Session, Free x | Decoder, CodecFreeContext x | Frame, FrameFree x
  | Packet, PacketFree x | Converter, FreeContext x => Some x
  | _, _ => None
  end.

(** A log is balanced: for each kind, the pointers released are the
    pointers acquired, in the same order. *)
Definition balanced (l : list Call) : Prop :=
  forall k, omap (releases k) l = omap (acquires k) l.

(** Logs that acquire and release nothing. *)
Definition quiet (l : list Call) : Prop :=
  forall k, omap (releases k) l = [] /\ omap (acquires k) l = [].

(** The number of packets unreferenced in a log of calls. *)
Fixpoint unrefs (l : list Call) : nat :=
  match l with
  | [] => 0
  | PacketUnref :: l' => S (unrefs l')
  | _ :: l' => unrefs l'
  end.

(** The calls the pump loop makes for a session that decodes the stream
    [vstream]: it reads and unreferences packets, sends packets of that
    stream or the drain marker, receives frames and converts them. *)
Definition pump_call (vstream : Z) (c : Call) : bool :=
  match c with
  | ReadFrame _ | PacketUnref | ReceiveFrame _ | PixelBufferCreate _
  | LockBaseAddress | Scale | UnlockBaseAddress | FrameUnref => true
  | SendPacket (Some pkt) _ => AVPacket.stream_index pkt =? vstream
  | SendPacket None _ => true
  | _ => false
  end.

(** The calls of a session that drains its decoder: the source is not
    touched any more. *)
Definition drain_call (c : Call) : bool :=
  match c with
  | SendPacket None _ | ReceiveFrame _ | PixelBufferCreate _
  | LockBaseAddress | Scale | UnlockBaseAddress | FrameUnref => true
  | _ => false
  end.

(** The calls that hand a decoded frame to the caller, after the decoder
    answered [e] and CoreVideo created the buffer [pb]. *)
Definition frame_handover (e : Z) (pb : pointer) : list Call :=
  [ReceiveFrame e; PixelBufferCreate (Some pb); LockBaseAddress; Scale;
   UnlockBaseAddress; FrameUnref].

(** The presentation time of a frame stamped [ts] in a stream of time base
    [tb]: unknown when the frame carries no timestamp. *)
Definition frame_seconds (ts : Z) (tb : AVRational.t) : double :=
  if ts =? AV_NOPTS_VALUE then NAN else mul (of_int ts) (av_q2d tb).

(** What is left of the scripts of a scripted world: the packets the source
    still delivers and the answers the decoder still gives. *)
Definition script_left (w : Scripted.world) : nat :=
  (length (Scripted.packets w) + length (Scripted.frames w))%nat.

(** Further scripted worlds. *)
Module Scripts.

(** The ten-second clip on a source that refuses every seek. *)
Definition unseekable : Scripted.world :=
  Scripted.mk 0 0 (AVFormatContext.mk 10000000 0 NULL [Clips.ten_seconds_stream]) 0 0
    None 1 [-1; -1; -1; -1] [] [] [] [] 100.

(** A decoder that answers the first packet with [AVERROR(EINVAL)]. *)
Definition broken_decoder : Scripted.world :=
  Scripted.mk 0 0 (AVFormatContext.mk 10000000 0 NULL [Clips.ten_seconds_stream]) 0 0
    None 1 [] [(0, AVPacket.mk 0 0 0)] [] [(-22, Scripted.no_frame)] [] 100.

(** A decoded frame for which CoreVideo creates no buffer. *)
Definition no_buffer : Scripted.world :=
  Scripted.mk 0 0 (AVFormatContext.mk 10000000 0 NULL [Clips.ten_seconds_stream]) 0 0
    None 1 [] [(0, AVPacket.mk 0 0 0)] [] [(0, AVFrame.mk 0)] [] 100.

(** A stream that reports two frame rates, an average of 25 and a real
    rate of 30 frames per second, 300 frames and no duration, in a
    container that reports no duration either. *)
Definition two_rates_stream : AVStream.t :=
  AVStream.mk (AVRational.mk 1 30) AV_NOPTS_VALUE 300 (AVRational.mk 25 1)
    (AVRational.mk 30 1) (AVCodecParameters.mk 0 0).

Definition two_rates : Scripted.world :=
  Scripted.mk 0 0 (AVFormatContext.mk AV_NOPTS_VALUE 0 NULL [two_rates_stream]) 0 0
    None 1 [] [] [] [] [] 100.

(** The same stream with no average rate and a real rate of -30/1. *)
Definition negative_rate_stream : AVStream.t :=
  AVStream.mk (AVRational.mk 1 30) AV_NOPTS_VALUE 300 (AVRational.mk 0 0)
    (AVRational.mk (-30) 1) (AVCodecParameters.mk 0 0).

Definition negative_rate : Scripted.world :=
  Scripted.mk 0 0 (AVFormatContext.mk AV_NOPTS_VALUE 0 NULL [negative_rate_stream])
    0 0 None 1 [] [] [] [] [] 100.

End Scripts.

(** * Properties *)

Ltac run := cbn [bind call call_ peek ret value world calls fst snd].

Ltac bools :=
  repeat match goal with
         | H : (_ =? _) = true |- _ => apply Z.eqb_eq in H
         | H : (_ =? _) = false |- _ => apply Z.eqb_neq in H
         | H : (_ <? _) = true |- _ => apply Z.ltb_lt in H
         | H : (_ <? _) = false |- _ => apply Z.ltb_ge in H
         | H : negb _ = true |- _ => apply negb_true_iff in H
         | H : negb _ = false |- _ => apply negb_false_iff in H
         | H : _ && _ = true |- _ => apply andb_true_iff in H as [? ?]
         end.


(** ** Binary64 arithmetic on positive normal numbers

    The estimators test their results with [x > 0]; the lemmas below show
    where that test cannot fail: conversions of positive integers, and
    quotients and products of positive normal numbers away from underflow
    and overflow. *)

Section Binary64.

Lemma Zdigits2_log2 (m : Z) : 0 < m -> Zdigits2 m = Z.log2 m + 1.
Proof.
  destruct m as [|p|p]; try lia. intros _. simpl.
  induction p as [p IH|p IH|]; simpl.
  - rewrite Pos2Z.inj_succ, IH. destruct p; simpl; lia.
  - rewrite Pos2Z.inj_succ, IH. destruct p; simpl; lia.
  - reflexivity.
Qed.

Lemma Zdigits2_bounds (m : Z) :
  0 < m -> 2 ^ (Zdigits2 m - 1) <= m < 2 ^ Zdigits2 m.
Proof.
  intros Hm. rewrite (Zdigits2_log2 m Hm).
  replace (Z.log2 m + 1 - 1) with (Z.log2 m) by lia.
  replace (Z.log2 m + 1) with (Z.succ (Z.log2 m)) by lia.
  apply Z.log2_spec, Hm.
Qed.

Lemma Zdigits2_unique (m d : Z) :
  0 < d -> 2 ^ (d - 1) <= m < 2 ^ d -> Zdigits2 m = d.
Proof.
  intros Hd Hm.
  assert (0 < m) by (pose proof (Z.pow_pos_nonneg 2 (d - 1)); lia).
  rewrite Zdigits2_log2 by assumption.
  rewrite (Z.log2_unique m (d - 1)); try lia.
  replace (Z.succ (d - 1)) with d by lia. exact Hm.
Qed.

(** Shifting the mantissa right by [n] bits divides it by [2^n]. *)
Lemma shr_1_m (mrs : shr_record) :
  0 <= shr_m mrs -> shr_m (shr_1 mrs) = shr_m mrs / 2.
Proof.
  destruct mrs as [m r s]; simpl. intros Hm.
  destruct m as [|[p|p|]|p]; simpl; try lia; try reflexivity.
  - rewrite Pos2Z.inj_xI. apply (Z.div_unique _ 2 _ 1); lia.
  - rewrite Pos2Z.inj_xO. apply (Z.div_unique _ 2 _ 0); lia.
Qed.

Lemma pow2_xO (p : positive) : 2 ^ Zpos p~0 = 2 ^ Zpos p * 2 ^ Zpos p.
Proof. rewrite <- Z.pow_add_r by lia. f_equal. lia. Qed.

Lemma pow2_xI (p : positive) : 2 ^ Zpos p~1 = 2 * 2 ^ Zpos p * 2 ^ Zpos p.
Proof.
  rewrite <- Z.mul_assoc, <- Z.pow_add_r, <- Z.pow_succ_r by lia. f_equal. lia.
Qed.

Lemma iter_shr_1_m (p : positive) (mrs : shr_record) :
  0 <= shr_m mrs -> shr_m (SpecFloat.iter_pos shr_1 p mrs) = shr_m mrs / 2 ^ Zpos p.
Proof.
  revert mrs. induction p as [p IH|p IH|]; intros mrs Hm; simpl SpecFloat.iter_pos.
  - assert (Hp : 0 < 2 ^ Zpos p) by (apply Z.pow_pos_nonneg; lia).
    assert (H1 : 0 <= shr_m (shr_1 mrs))
      by (rewrite shr_1_m by assumption; apply Z.div_pos; lia).
    assert (H2 : 0 <= shr_m (SpecFloat.iter_pos shr_1 p (shr_1 mrs)))
      by (rewrite IH by assumption; apply Z.div_pos; lia).
    rewrite IH, IH, shr_1_m by assumption.
    rewrite pow2_xI, !Z.div_div by lia. f_equal. lia.
  - assert (Hp : 0 < 2 ^ Zpos p) by (apply Z.pow_pos_nonneg; lia).
    assert (H2 : 0 <= shr_m (SpecFloat.iter_pos shr_1 p mrs))
      by (rewrite IH by assumption; apply Z.div_pos; lia).
    rewrite IH, IH by assumption.
    rewrite pow2_xO, !Z.div_div by lia. f_equal.
  - rewrite shr_1_m by assumption. reflexivity.
Qed.

Lemma shr_spec (mrs : shr_record) (e n : Z) :
  0 <= shr_m mrs -> 0 <= n ->
  shr_m (fst (shr mrs e n)) = shr_m mrs / 2 ^ n /\ snd (shr mrs e n) = e + n.
Proof.
  intros Hm Hn. destruct n as [|p|p]; simpl; try lia.
  - rewrite Z.div_1_r. lia.
  - split; [apply iter_shr_1_m; assumption|reflexivity].
Qed.

Lemma shr_record_of_loc_m (m : Z) (l : location) : shr_m (shr_record_of_loc m l) = m.
Proof. destruct l as [|[]]; reflexivity. Qed.

Lemma round_nearest_even_bounds (m : Z) (l : location) :
  m <= round_nearest_even m l <= m + 1.
Proof.
  unfold round_nearest_even. destruct l as [|[]]; try lia.
  destruct (Z.even m); lia.
Qed.

Lemma normal_weaken (lo hi lo' hi' : Z) (x : double) :
  normal lo hi x -> lo' <= lo -> hi <= hi' -> normal lo' hi' x.
Proof.
  intros (m & e & -> & Hd & He) Hlo Hhi. exists m, e. repeat split; try assumption; lia.
Qed.

Lemma normal_gt_zero (lo hi : Z) (x : double) : normal lo hi x -> gt x zero = true.
Proof. intros (m & e & -> & _). reflexivity. Qed.

Lemma fexp_normal (d : Z) : -1021 <= d -> fexp prec emax d = d - 53.
Proof. unfold fexp, SpecFloat.emin, prec, emax. lia. Qed.

Lemma shift_to_53 (m : Z) :
  0 < m -> 53 <= Zdigits2 m -> 2 ^ 52 <= m / 2 ^ (Zdigits2 m - 53) < 2 ^ 53.
Proof.
  intros Hm Hd. pose proof (Zdigits2_bounds m Hm) as [Hlo Hhi].
  set (d := Zdigits2 m) in *.
  assert (Hp : 0 < 2 ^ (d - 53)) by (apply Z.pow_pos_nonneg; lia).
  assert (E1 : 2 ^ (d - 1) = 2 ^ 52 * 2 ^ (d - 53))
    by (rewrite <- Z.pow_add_r by lia; f_equal; lia).
  assert (E2 : 2 ^ d = 2 ^ 53 * 2 ^ (d - 53))
    by (rewrite <- Z.pow_add_r by lia; f_equal; lia).
  split.
  - apply Z.div_le_lower_bound; lia.
  - apply Z.div_lt_upper_bound; lia.
Qed.

(** Rounding a positive mantissa of at least 53 bits, away from the
  subnormal range and from overflow, gives a normal number of the same
  magnitude, or of the next one when the rounding carries. *)
Lemma round_normal (mz ez : Z) (lz : location) :
  0 < mz -> 53 <= Zdigits2 mz -> -1021 <= Zdigits2 mz + ez <= 1023 ->
  normal (Zdigits2 mz + ez) (Zdigits2 mz + ez + 1)
    (binary_round_aux prec emax false mz ez lz).
Proof.
  intros Hm Hd HD. unfold binary_round_aux, shr_fexp.
  rewrite fexp_normal by lia.
  destruct (shr_spec (shr_record_of_loc mz lz) ez (Zdigits2 mz + ez - 53 - ez))
    as [Hm0 He0]; [rewrite shr_record_of_loc_m; lia|lia|].
  destruct (shr (shr_record_of_loc mz lz) ez (Zdigits2 mz + ez - 53 - ez))
    as [mrs0 e0]. simpl in Hm0, He0.
  rewrite shr_record_of_loc_m in Hm0.
  replace (Zdigits2 mz + ez - 53 - ez) with (Zdigits2 mz - 53) in Hm0, He0 by lia.
  pose proof (shift_to_53 mz Hm Hd) as Hm0b. rewrite <- Hm0 in Hm0b.
  pose proof (round_nearest_even_bounds (shr_m mrs0) (loc_of_shr_record mrs0)) as Hr.
  set (m1 := round_nearest_even (shr_m mrs0) (loc_of_shr_record mrs0)) in *.
  assert (Hd1 : (Zdigits2 m1 = 53 /\ m1 < 2 ^ 53) \/ (Zdigits2 m1 = 54 /\ m1 = 2 ^ 53)).
  { destruct (Z.eq_dec m1 (2 ^ 53)) as [->|Hne]; [right; split; reflexivity|left].
    split; [apply Zdigits2_unique|]; lia. }
  rewrite fexp_normal by lia.
  destruct (shr_spec (shr_record_of_loc m1 loc_Exact) e0 (Zdigits2 m1 + e0 - 53 - e0))
    as [Hm2 He2]; [rewrite shr_record_of_loc_m; lia|lia|].
  destruct (shr (shr_record_of_loc m1 loc_Exact) e0 (Zdigits2 m1 + e0 - 53 - e0))
    as [mrs2 e2]. simpl in Hm2, He2.
  rewrite ?shr_record_of_loc_m in Hm2.
  assert (Hm2b : 2 ^ 52 <= shr_m mrs2 < 2 ^ 53 /\
                 e2 + 53 = Zdigits2 mz + ez + (Zdigits2 m1 - 53)).
  { destruct Hd1 as [[E1 Hlt]|[E1 ->]]; rewrite Hm2, E1.
    - replace (53 + e0 - 53 - e0) with 0 by lia. rewrite Z.div_1_r. lia.
    - replace (54 + e0 - 53 - e0) with 1 by lia.
      change (2 ^ 53 / 2 ^ 1) with (2 ^ 52). lia. }
  destruct Hm2b as [Hm2b He2b].
  destruct (shr_m mrs2) as [|m|m] eqn:Em; try lia.
  replace (e2 <=? emax - prec) with true
    by (symmetry; apply Z.leb_le; unfold emax, prec; lia).
  exists m, e2. split; [reflexivity|]. split; [apply Zdigits2_unique; lia|lia].
Qed.

Lemma iter_xO (d p : positive) : Zpos (Pos.iter xO p d) = Zpos p * 2 ^ Zpos d.
Proof.
  induction d as [|d IH] using Pos.peano_ind.
  - simpl. lia.
  - rewrite Pos.iter_succ, Pos2Z.inj_xO, IH, Pos2Z.inj_succ, Z.pow_succ_r; lia.
Qed.

Lemma Zdigits2_shift (m d : Z) :
  0 < m -> 0 <= d -> Zdigits2 (m * 2 ^ d) = Zdigits2 m + d.
Proof.
  intros Hm Hd. pose proof (Zdigits2_bounds m Hm) as [Hlo Hhi].
  assert (0 < Zdigits2 m) by (rewrite Zdigits2_log2 by lia; pose proof (Z.log2_nonneg m); lia).
  assert (Hp : 0 < 2 ^ d) by (apply Z.pow_pos_nonneg; lia).
  apply Zdigits2_unique; [lia|].
  replace (Zdigits2 m + d - 1) with (Zdigits2 m - 1 + d) by lia.
  rewrite !Z.pow_add_r by lia. nia.
Qed.

(** [(double)z] for a positive integer. *)
Lemma of_int_normal (z : Z) :
  0 < z -> Zdigits2 z <= 1023 -> normal (Zdigits2 z) (Zdigits2 z + 1) (of_int z).
Proof.
  intros Hz Hd. destruct z as [|p|p]; try lia.
  assert (Hdp : 0 < Zdigits2 (Zpos p))
    by (rewrite Zdigits2_log2 by lia; pose proof (Z.log2_nonneg (Zpos p)); lia).
  unfold of_int, binary_normalize, binary_round.
  change (Zpos (digits2_pos p)) with (Zdigits2 (Zpos p)).
  rewrite Z.add_0_r, fexp_normal by lia. unfold shl_align.
  destruct (Zdigits2 (Zpos p) - 53 - 0) as [|d|d] eqn:Ed.
  - eapply normal_weaken; [apply round_normal; lia|lia|lia].
  - eapply normal_weaken; [apply round_normal; lia|lia|lia].
  - assert (E : Zdigits2 (Zpos (Pos.iter xO p d)) = 53).
    { rewrite iter_xO, Zdigits2_shift by lia. lia. }
    eapply normal_weaken; [apply round_normal; rewrite ?E; lia|rewrite E; lia|rewrite E; lia].
Qed.

(** The quotient of two normal numbers. *)
Lemma div_normal (a b c d : Z) (x y : double) :
  normal a b x -> normal c d y -> -1021 <= a - d -> b - c <= 1022 ->
  normal (a - d) (b - c + 2) (div x y).
Proof.
  intros (mx & ex & -> & Hdx & Hex) (my & ey & -> & Hdy & Hey) Hlo Hhi.
  unfold div, SFdiv, SFdiv_core_binary. rewrite Hdx, Hdy.
  rewrite fexp_normal by lia.
  replace (Z.min (53 + ex - (53 + ey) - 53) (ex - ey)) with (ex - ey - 53) by lia.
  replace (ex - ey - (ex - ey - 53)) with 53 by lia.
  rewrite Z.shiftl_mul_pow2 by lia.
  pose proof (Zdigits2_bounds (Zpos mx) eq_refl) as Hbx. rewrite Hdx in Hbx.
  pose proof (Zdigits2_bounds (Zpos my) eq_refl) as Hby. rewrite Hdy in Hby.
  change (53 - 1) with 52 in *.
  pose proof (Z_div_mod (Zpos mx * 2 ^ 53) (Zpos my) eq_refl) as Hqr.
  destruct (Z.div_eucl (Zpos mx * 2 ^ 53) (Zpos my)) as [q r].
  destruct Hqr as [Hq Hr]. simpl xorb.
  assert (Hqb : 2 ^ 52 <= q < 2 ^ 54) by nia.
  assert (Hdq : Zdigits2 q = 53 \/ Zdigits2 q = 54).
  { destruct (Z_lt_le_dec q (2 ^ 53)).
    - left. apply Zdigits2_unique; lia.
    - right. apply Zdigits2_unique; lia. }
  eapply normal_weaken; [apply round_normal; lia|lia|lia].
Qed.

(** The product of two normal numbers. *)
Lemma mul_normal (a b c d : Z) (x y : double) :
  normal a b x -> normal c d y -> -1020 <= a + c -> b + d <= 1023 ->
  normal (a + c - 1) (b + d + 1) (mul x y).
Proof.
  intros (mx & ex & -> & Hdx & Hex) (my & ey & -> & Hdy & Hey) Hlo Hhi.
  unfold mul, SFmul. simpl xorb.
  pose proof (Zdigits2_bounds (Zpos mx) eq_refl) as Hbx. rewrite Hdx in Hbx.
  pose proof (Zdigits2_bounds (Zpos my) eq_refl) as Hby. rewrite Hdy in Hby.
  change (53 - 1) with 52 in *. rewrite Pos2Z.inj_mul.
  assert (Hqb : 2 ^ 104 <= Zpos mx * Zpos my < 2 ^ 106) by nia.
  assert (Hdq : Zdigits2 (Zpos mx * Zpos my) = 105 \/ Zdigits2 (Zpos mx * Zpos my) = 106).
  { destruct (Z_lt_le_dec (Zpos mx * Zpos my) (2 ^ 105)).
    - left. apply Zdigits2_unique; lia.
    - right. apply Zdigits2_unique; lia. }
  eapply normal_weaken; [apply round_normal; lia|lia|lia].
Qed.

Lemma Zdigits2_le (z k : Z) : 0 < z < 2 ^ k -> 1 <= Zdigits2 z <= k.
Proof.
  intros [Hz Hk]. rewrite Zdigits2_log2 by assumption.
  pose proof (Z.log2_nonneg z). pose proof (proj1 (Z.log2_lt_pow2 z k Hz) Hk). lia.
Qed.

Lemma of_int64_normal (z : Z) : 0 < z -> is_int64 z = true -> normal 1 64 (of_int z).
Proof.
  intros Hz Ht. unfold is_int64, INT64_MIN, INT64_MAX in Ht.
  apply andb_true_iff in Ht as [_ Hmax%Z.leb_le].
  pose proof (Zdigits2_le z 63 ltac:(lia)).
  eapply normal_weaken; [apply of_int_normal; lia|lia|lia].
Qed.

Lemma of_int32_normal (z : Z) : 0 < z -> is_int z = true -> normal 1 32 (of_int z).
Proof.
  intros Hz Ht. unfold is_int in Ht.
  apply andb_true_iff in Ht as [_ Hmax%Z.ltb_lt].
  pose proof (Zdigits2_le z 31 ltac:(lia)).
  eapply normal_weaken; [apply of_int_normal; lia|lia|lia].
Qed.

Lemma time_unit_normal : normal 20 21 (of_int AV_TIME_BASE).
Proof. apply (of_int_normal AV_TIME_BASE); reflexivity || (cbv; discriminate). Qed.

(** A positive rational of [int]s, as a double. *)
Lemma ratio_normal (n d : Z) :
  0 < n -> 0 < d -> is_int n = true -> is_int d = true ->
  normal (-31) 33 (div (of_int n) (of_int d)).
Proof.
  intros Hn Hd Tn Td.
  eapply normal_weaken;
    [eapply div_normal; [apply of_int32_normal|apply of_int32_normal|..]|..];
    try eassumption; lia.
Qed.

Lemma container_tier_positive (d : Z) :
  0 < d -> is_int64 d = true -> gt (div (of_int d) (of_int AV_TIME_BASE)) zero = true.
Proof.
  intros Hd Td. eapply normal_gt_zero, div_normal;
    [apply of_int64_normal; assumption|apply time_unit_normal|lia|lia].
Qed.

Lemma frames_tier_positive (nb n d : Z) :
  0 < nb -> is_int64 nb = true -> 0 < n -> 0 < d -> is_int n = true -> is_int d = true ->
  gt (div (of_int nb) (div (of_int n) (of_int d))) zero = true.
Proof.
  intros. eapply normal_gt_zero, div_normal;
    [apply of_int64_normal; assumption|apply ratio_normal; assumption|lia|lia].
Qed.

Lemma frames_product_positive (nb n d : Z) :
  0 < nb -> is_int64 nb = true -> 0 < n -> 0 < d -> is_int n = true -> is_int d = true ->
  gt (mul (of_int nb) (div (of_int d) (of_int n))) zero = true.
Proof.
  intros. eapply normal_gt_zero, mul_normal;
    [apply of_int64_normal; assumption|apply ratio_normal; assumption|lia|lia].
Qed.

Lemma size_tier_positive (n d : Z) :
  0 < n -> is_int64 n = true -> 0 < d -> is_int64 d = true ->
  gt (div (of_int n) (of_int d)) zero = true.
Proof.
  intros. eapply normal_gt_zero, div_normal;
    [apply of_int64_normal; assumption|apply of_int64_normal; assumption|lia|lia].
Qed.

Lemma zero_rate (d : Z) : 0 < d -> is_int d = true -> div (of_int 0) (of_int d) = zero.
Proof.
  intros Hd Td. destruct (of_int32_normal d Hd Td) as (m & e & -> & _). reflexivity.
Qed.

(** What is rounded with a negative sign is not positive. *)
Lemma round_aux_not_positive (mx ex : Z) (lx : location) :
  gt (binary_round_aux prec emax true mx ex lx) zero = false.
Proof.
  unfold binary_round_aux.
  destruct (shr_fexp _ _ _ _ _) as [mrs' e'].
  destruct (shr_fexp _ _ _ _ _) as [mrs'' e''].
  destruct (shr_m mrs''); [reflexivity| |reflexivity].
  destruct (_ <=? _); reflexivity.
Qed.

Lemma round_aux_negative (mx ex : Z) (lx : location) :
  let x := binary_round_aux prec emax true mx ex lx in
  x = S754_zero true \/ (exists m e, x = S754_finite true m e) \/
  x = S754_infinity true \/ x = S754_nan.
Proof.
  cbv zeta. unfold binary_round_aux.
  destruct (shr_fexp _ _ _ _ _) as [mrs' e'].
  destruct (shr_fexp _ _ _ _ _) as [mrs'' e''].
  destruct (shr_m mrs''); [left; reflexivity| |right; right; right; reflexivity].
  destruct (_ <=? _); [right; left; eauto|right; right; left; reflexivity].
Qed.

(** A negative numerator over a positive denominator is not positive. *)
Lemma negative_ratio (n d : Z) :
  n < 0 -> 0 < d -> is_int d = true -> gt (div (of_int n) (of_int d)) zero = false.
Proof.
  intros Hn Hd Td. destruct (of_int32_normal d Hd Td) as (md & ed & -> & _).
  destruct n as [|p|p]; try lia.
  unfold of_int, binary_normalize, binary_round.
  destruct (shl_align _ _ _) as [mz ez].
  destruct (round_aux_negative (Zpos mz) ez loc_Exact) as [E|[(m & e & E)|[E|E]]];
    rewrite E; try reflexivity.
  unfold div, SFdiv.
  destruct (SFdiv_core_binary _ _ _ _ _ _) as [[mq eq] lq].
  apply round_aux_not_positive.
Qed.

Lemma wrap64_id (z : Z) : is_int64 z = true -> wrap64 z = z.
Proof.
  unfold is_int64, INT64_MIN, INT64_MAX, wrap64. intros [H1%Z.leb_le H2%Z.leb_le]%andb_true_iff.
  rewrite Z.mod_small; lia.
Qed.

End Binary64.

(** ** The duration estimators *)

Section Estimates.

Context {W : Type} {lib : LibAV W}.

Lemma known_or_nan_cases (x : double) : nan_or_positive (known_or_nan x).
Proof.
  unfold nan_or_positive, known_or_nan, strictly_positive.
  destruct (gt x zero) eqn:E; [right; exact E|left; reflexivity].
Qed.

Lemma ff_probe_duration_sign path (w : W) :
  nan_or_positive (value (ff_probe_duration path w)).
Proof.
  unfold ff_probe_duration. run.
  destruct (negb _); [left; reflexivity|]. run.
  destruct (_ <? 0); [left; reflexivity|]. run.
  match goal with |- context [value ((if ?c then _ else _) _)] => destruct c end;
    run; apply known_or_nan_cases.
Qed.

Lemma ff_frame_accurate_duration_sign path (w : W) :
  nan_or_positive (value (ff_frame_accurate_duration path w)).
Proof.
  unfold ff_frame_accurate_duration. destruct path as [path|]; [|left; reflexivity].
  run.
  destruct (negb _); [left; reflexivity|]. run.
  destruct (_ <? 0); [left; reflexivity|]. run.
  apply known_or_nan_cases.
Qed.

Lemma ff_format_duration_sign path (w : W) :
  nan_or_positive (value (ff_format_duration path w)).
Proof.
  unfold ff_format_duration. destruct path as [path|]; [|left; reflexivity].
  run.
  destruct (negb _); [left; reflexivity|]. run.
  destruct (_ <? 0); [left; reflexivity|]. run.
  apply known_or_nan_cases.
Qed.

Lemma ff_precise_duration_sign path (w : W) :
  nan_or_positive (value (ff_precise_duration path w)).
Proof.
  unfold ff_precise_duration. destruct path as [path|]; [|left; reflexivity].
  run.
  destruct (negb _); [left; reflexivity|]. run.
  destruct (_ <? 0); [left; reflexivity|]. run.
  destruct (_ <? 0); run; apply known_or_nan_cases.
Qed.

Lemma ff_open_duration path out mem (w : W) :
  (value (ff_open path out mem w)).1.1 <> NULL ->
  exists p,
    (value (ff_open path out mem w)).2 !! (value (ff_open path out mem w)).1.1 = Some p /\
    let f := format_context (FFPlayer.fmt p) (world (ff_open path out mem w)) in
    OpenOut.duration_s (value (ff_open path out mem w)).1.2 =
      store (OpenOut.duration_s out)
        (best_effort_duration f (stream_at f (FFPlayer.vstream p))).
Proof.
  unfold ff_open. run.
  repeat
    (match goal with
     | |- context [value ((if ?c then _ else _) _)] => destruct c eqn:?
     end;
     [run; intros Hne; exfalso; apply Hne; reflexivity|]; run).
  intros _. eexists. split; [apply lookup_insert_eq|]. reflexivity.
Qed.

Lemma gt_nan : gt NAN zero = false.
Proof. reflexivity. Qed.

Lemma known_or_nan_positive (x : double) : gt x zero = true -> known_or_nan x = x.
Proof. unfold known_or_nan. intros ->. reflexivity. Qed.

Lemma known_or_nan_not_positive (x : double) : gt x zero = false -> known_or_nan x = NAN.
Proof. unfold known_or_nan. intros ->. reflexivity. Qed.

(** The last tier of the fast probe, lines 49-53 with the final test, after
  the earlier tiers have left a [dur] that is not positive. *)
Lemma size_tier_code (f : AVFormatContext.t) (dur : double) (w : W) :
  gt dur zero = false ->
  is_int64 (AVFormatContext.bit_rate f) = true ->
  avio_size (AVFormatContext.pb f) w <= INT64_MAX / 8 ->
  known_or_nan
    (value
       ((if negb (gt dur zero) && (AVFormatContext.bit_rate f >? 0)
            && negb (AVFormatContext.pb f =? NULL)
         then
           bind (peek (avio_size (AVFormatContext.pb f)))
             (fun size =>
                ret (if size >? 0
                     then div (of_int (wrap64 (size * 8)))
                            (of_int (AVFormatContext.bit_rate f))
                     else dur))
         else ret dur) w)) =
  size_tier f (avio_size (AVFormatContext.pb f) w).
Proof.
  intros Hdur Tb Hs. rewrite Hdur. unfold size_tier. cbn [negb andb].
  destruct (AVFormatContext.bit_rate f >? 0) eqn:E1;
    destruct (negb (AVFormatContext.pb f =? NULL)) eqn:E2; cbn [andb]; run;
    rewrite ?andb_false_r;
    try (apply known_or_nan_not_positive; assumption).
  destruct (avio_size (AVFormatContext.pb f) w >? 0) eqn:E3;
    [|cbn [andb]; apply known_or_nan_not_positive; assumption].
  cbn [andb].
  apply Z.gtb_lt in E1, E3.
  unfold INT64_MAX in Hs.
  assert (Hs8 : is_int64 (avio_size (AVFormatContext.pb f) w * 8) = true).
  { unfold is_int64, INT64_MIN, INT64_MAX. apply andb_true_iff.
    split; [apply Z.leb_le|apply Z.leb_le]; [lia|].
    change ((2 ^ 63 - 1) / 8) with (2 ^ 60 - 1) in Hs. lia. }
  rewrite wrap64_id by assumption.
  apply known_or_nan_positive, size_tier_positive; try assumption; lia.
Qed.

(** The selection of the code is the selection of the specification. *)
Lemma frame_rate_preferred (vs : AVStream.t) : frame_rate vs = preferred_rate vs.
Proof.
  unfold frame_rate, preferred_rate.
  destruct (Z.gtb_spec (AVRational.num (AVStream.avg_frame_rate vs)) 0) as [H|H].
  - apply Z.lt_gt in H. unfold Z.gt in H. rewrite H. reflexivity.
  - destruct (Z.compare_spec (AVRational.num (AVStream.avg_frame_rate vs)) 0);
      (reflexivity || lia).
Qed.

(** The stream tiers of the fast probe, lines 36-47, when the container
  reports no duration: either they produce a positive [dur], which is what
  the tiers give, or they leave the last tier to decide. *)
Lemma stream_tiers_code (f : AVFormatContext.t) (vs : AVStream.t) (size : Z) :
  stream_typed vs = true ->
  (AVFormatContext.duration f >? 0) = false ->
  let dur2 :=
    if negb (gt NAN zero) && (AVStream.duration vs >? 0)
    then mul (of_int (AVStream.duration vs)) (av_q2d (AVStream.time_base vs))
    else NAN in
  let dur3 :=
    if negb (gt dur2 zero) && (AVStream.nb_frames vs >? 0)
    then
      if gt (if AVRational.den (frame_rate vs) >? 0
             then div (of_int (AVRational.num (frame_rate vs)))
                    (of_int (AVRational.den (frame_rate vs)))
             else zero) zero
      then div (of_int (AVStream.nb_frames vs))
             (if AVRational.den (frame_rate vs) >? 0
              then div (of_int (AVRational.num (frame_rate vs)))
                     (of_int (AVRational.den (frame_rate vs)))
              else zero)
      else dur2
    else dur2 in
  (gt dur3 zero = true /\ fast_probe_tiers f (Some vs) size = dur3) \/
  (gt dur3 zero = false /\ fast_probe_tiers f (Some vs) size = size_tier f size).
Proof.
  intros Tvs Ha. unfold fast_probe_tiers.
  rewrite <- frame_rate_preferred, Ha, gt_nan.
  cbn [negb andb]. cbv zeta.
  unfold stream_typed in Tvs.
  repeat match goal with
         | H : _ && _ = true |- _ => apply andb_true_iff in H as [? ?]
         end.
  assert (Trate : is_rational (frame_rate vs) = true).
  { unfold frame_rate.
    destruct (AVRational.num (AVStream.avg_frame_rate vs) >? 0); assumption. }
  unfold is_rational in Trate. apply andb_true_iff in Trate as [Tn Td].
  set (rate := frame_rate vs) in *.
  set (by_stream :=
         mul (of_int (AVStream.duration vs)) (av_q2d (AVStream.time_base vs))).
  assert (Hnan := gt_nan).
  (* the stream duration tier *)
  destruct (AVStream.duration vs >? 0); cbn [andb];
    [destruct (gt by_stream zero) eqn:Hbp|]; cbn [negb andb].
  { left. split; [assumption|reflexivity]. }
  (* the frame count tier, with a [dur] that is not positive *)
  all: destruct (AVStream.nb_frames vs >? 0) eqn:Hc; cbn [andb];
    [apply Z.gtb_lt in Hc|right; split; [assumption|reflexivity]].
  (* a denominator that is not positive: the rate counts as zero *)
  all: destruct (Z.gtb_spec (AVRational.den rate) 0) as [Hden|Hden];
    [|replace (gt zero zero) with false by reflexivity; rewrite andb_false_r;
      right; split; [assumption|reflexivity]].
  all: destruct (Z.gtb_spec (AVRational.num rate) 0) as [Hnum|Hnum]; cbn [andb].
  (* a positive rate *)
  all: try (rewrite (normal_gt_zero _ _ _
                       (ratio_normal (AVRational.num rate) (AVRational.den rate)
                          ltac:(lia) ltac:(lia) Tn Td));
            left; split; [|reflexivity];
            apply frames_tier_positive; try assumption; lia).
  (* a rate that is zero or negative *)
  all: assert (Hfps : gt (div (of_int (AVRational.num rate))
                            (of_int (AVRational.den rate))) zero = false)
    by (destruct (Z.eq_dec (AVRational.num rate) 0) as [Hz|Hz];
        [rewrite Hz, zero_rate by (assumption || lia); reflexivity
        |apply negative_ratio; (assumption || lia)]).
  all: rewrite Hfps; right; split; [assumption|reflexivity].
Qed.

(** C4, as amended.  The fast probe returns the first applicable tier: the
    container duration over the time unit when positive; else the stream
    duration times its time base when positive; else the frame count over
    the frame rate (the average rate preferred, else the real rate) when
    the count is positive and the rate is strictly positive, numerator and
    denominator; else file size times 8 over the bit rate when both are
    positive and the size is obtainable; else the unknown sentinel.  The
    metadata holds values of its C types, and [size * 8] does not
    overflow. *)
Theorem ff_probe_duration_tiers path (w : W) :
  probe_well_typed path w ->
  value (ff_probe_duration path w) =
    match stream_prober path w with
    | None => NAN
    | Some (fmt, w') =>
        let f := format_context fmt w' in
        fast_probe_tiers f (selected fmt w') (avio_size (AVFormatContext.pb f) w')
    end.
Proof.
  unfold probe_well_typed, stream_prober, ff_probe_duration. run.
  destruct (negb _); [reflexivity|]. run.
  destruct (_ <? 0); [reflexivity|]. run.
  set (fmt := (avformat_open_input path w).1.2).
  set (w' := (avformat_find_stream_info fmt (avformat_open_input path w).2).2).
  set (f := format_context fmt w').
  set (size := avio_size (AVFormatContext.pb f) w').
  unfold selected. fold f.
  set (vindex := av_find_best_stream fmt w').
  unfold probe_typed. intros Ht.
  apply andb_true_iff in Ht as [Ht Hsize%Z.leb_le].
  apply andb_true_iff in Ht as [Ht Tvs].
  apply andb_true_iff in Ht as [Td Tb].
  destruct (AVFormatContext.duration f >? 0) eqn:Ha.
  { (* the container reports a duration *)
    assert (Fa := container_tier_positive _ (proj1 (Z.gtb_lt _ _) Ha) Td).
    unfold fast_probe_tiers. rewrite Ha.
    destruct (vindex >=? 0); repeat (rewrite Fa; cbn [negb andb]; run);
      apply known_or_nan_positive, Fa. }
  destruct (vindex >=? 0); run.
  - set (vs := stream_at f vindex) in *.
    pose proof (stream_tiers_code f vs size Tvs Ha) as H. cbv zeta in H.
    destruct H as [[H1 H2]|[H1 H2]]; rewrite H2.
    + rewrite H1. cbn [negb andb]. run. apply known_or_nan_positive, H1.
    + apply size_tier_code; assumption.
  - unfold fast_probe_tiers. rewrite Ha. apply size_tier_code; auto using gt_nan.
Qed.

(** C5, as amended.  With a frame rate (the average rate preferred, else
    the real rate) of positive numerator and denominator and a positive
    frame count the result is the frame count times denominator over
    numerator; otherwise, when the stream duration is known, it is the
    stream duration times the time base if that product is strictly positive
    and the unknown sentinel if it is not; otherwise it is the unknown
    sentinel. *)
Theorem ff_frame_accurate_duration_value (path : string) (w : W) :
  selected_typed (Some path) w ->
  value (ff_frame_accurate_duration (Some path) w) =
    match stream_prober (Some path) w with
    | None => NAN
    | Some (fmt, w') => frame_accurate_value (selected fmt w')
    end.
Proof.
  unfold selected_typed, stream_prober, ff_frame_accurate_duration. run.
  destruct (negb _); [reflexivity|]. run.
  destruct (_ <? 0); [reflexivity|]. run.
  unfold selected, frame_accurate_value.
  destruct (_ >=? 0); [|reflexivity].
  rewrite <- frame_rate_preferred.
  intros [_ Tvs]. unfold stream_typed in Tvs.
  repeat match goal with
         | H : _ && _ = true |- _ => apply andb_true_iff in H as [? ?]
         end.
  match goal with |- context [frame_rate ?v] => set (vs := v) in * end.
  assert (Trate : is_rational (frame_rate vs) = true).
  { unfold frame_rate.
    destruct (AVRational.num (AVStream.avg_frame_rate vs) >? 0); assumption. }
  apply andb_true_iff in Trate as [Tn Td].
  assert (Hnan : known_or_nan NAN = NAN) by reflexivity.
  destruct (AVRational.num (frame_rate vs) >? 0) eqn:Hn; cbn [andb];
    [|destruct (negb _); auto].
  destruct (AVRational.den (frame_rate vs) >? 0) eqn:Hd; cbn [andb];
    [|destruct (negb _); auto].
  destruct (AVStream.nb_frames vs >? 0) eqn:Hc; [|destruct (negb _); auto].
  apply Z.gtb_lt in Hn, Hd, Hc.
  apply known_or_nan_positive, frames_product_positive; assumption.
Qed.

(** C7, as amended.  Without a video stream the result is the container
    duration when positive.  With one, the candidate is chosen by priority
    (last captured packet timestamp, else stream duration when known and
    positive, else container duration when positive) and is returned only
    when it is strictly positive; a candidate that is not yields the unknown
    sentinel, and no candidate of lower priority is tried. *)
Theorem ff_precise_duration_value (path : string) (w : W) :
  selected_typed (Some path) w ->
  value (ff_precise_duration (Some path) w) =
    match stream_prober (Some path) w with
    | None => NAN
    | Some (fmt, w') =>
        let f := format_context fmt w' in
        let vindex := av_find_best_stream fmt w' in
        if vindex <? 0 then container_tier f else
        let tb := AVStream.time_base (stream_at f vindex) in
        let scan := scan_windows windows_sec fmt vindex tb AV_NOPTS_VALUE w' in
        let f' := format_context fmt (world scan) in
        known_or_nan (precise_candidate f' (stream_at f' vindex) tb (value scan))
    end.
Proof.
  unfold selected_typed, stream_prober, ff_precise_duration. run.
  destruct (negb _); [reflexivity|]. run.
  destruct (_ <? 0); [reflexivity|]. run.
  intros [Td _].
  destruct (_ <? 0); run; [|reflexivity].
  unfold container_tier.
  destruct (_ >? 0) eqn:Ha; [|reflexivity].
  apply known_or_nan_positive, container_tier_positive; [|assumption].
  apply Z.gtb_lt, Ha.
Qed.

(** C1, as amended.  The four estimators return the unknown sentinel or a
    strictly positive value.  The duration [ff_open] reports is not clamped:
    when the session opens it is the best-effort duration, whatever its
    sign. *)
Theorem duration_results (path : option string) (out : OpenOut.t)
    (mem : gmap Z FFPlayer.t) (w : W) :
  nan_or_positive (value (ff_probe_duration path w)) /\
  nan_or_positive (value (ff_frame_accurate_duration path w)) /\
  nan_or_positive (value (ff_format_duration path w)) /\
  nan_or_positive (value (ff_precise_duration path w)) /\
  ((value (ff_open path out mem w)).1.1 <> NULL ->
   exists p,
     (value (ff_open path out mem w)).2 !! (value (ff_open path out mem w)).1.1
       = Some p /\
     let f := format_context (FFPlayer.fmt p) (world (ff_open path out mem w)) in
     OpenOut.duration_s (value (ff_open path out mem w)).1.2 =
       store (OpenOut.duration_s out)
         (best_effort_duration f (stream_at f (FFPlayer.vstream p)))).
Proof.
  repeat split.
  - apply ff_probe_duration_sign.
  - apply ff_frame_accurate_duration_sign.
  - apply ff_format_duration_sign.
  - apply ff_precise_duration_sign.
  - apply ff_open_duration.
Qed.

End Estimates.

(** ** The codec identifier *)

Section Codec.

Context {W : Type} {lib : LibAV W}.

Lemma strcmp_spec (a b : list Z) : strcmp a b = 0 <-> c_string a = c_string b.
Proof.
  revert b. induction a as [|x a IH]; intros [|y b]; simpl.
  - tauto.
  - destruct (Z.eqb_spec y 0); split; intros H; try reflexivity; try lia; discriminate.
  - destruct (Z.eqb_spec x 0); split; intros H; try reflexivity; try lia; discriminate.
  - destruct (Z.eqb_spec x y) as [->|Hxy].
    + destruct (Z.eqb_spec y 0); [tauto|].
      rewrite IH. split; [intros ->; reflexivity|intros [= H]; exact H].
    + destruct (Z.eqb_spec x 0), (Z.eqb_spec y 0); split; intros H;
        try lia; try discriminate.
      injection H as H _. contradiction.
Qed.

Lemma strcmp_eqb (a b : list Z) :
  (strcmp a b =? 0) = bool_decide (c_string a = c_string b).
Proof.
  destruct (Z.eqb_spec (strcmp a b) 0) as [H|H]; symmetry.
  - apply bool_decide_eq_true, strcmp_spec, H.
  - apply bool_decide_eq_false. intros E. apply H, strcmp_spec, E.
Qed.

Lemma tag_test (tag : Z) :
  negb (tag =? 0) && (strcmp (tagstr tag) (literal "nclc") =? 0) = tagged tag "nclc".
Proof.
  unfold tagged. rewrite strcmp_eqb.
  change (c_string (literal "nclc")) with [110; 99; 108; 99].
  change (ascii_bytes "nclc") with [110; 99; 108; 99].
  destruct (Z.eqb_spec tag 0) as [->|Hz]; [reflexivity|]. cbn [negb andb].
  unfold tagstr, fourcc. cbn [c_string].
  apply bool_decide_ext.
  destruct (Z.eqb_spec (Z.land tag 255) 0) as [->|?]; [split; discriminate|].
  destruct (Z.eqb_spec (Z.land (Z.shiftr tag 8) 255) 0) as [->|?]; [split; discriminate|].
  destruct (Z.eqb_spec (Z.land (Z.shiftr tag 16) 255) 0) as [->|?]; [split; discriminate|].
  destruct (Z.eqb_spec (Z.land (Z.shiftr tag 24) 255) 0) as [->|?]; [split; discriminate|].
  cbn [Z.eqb]. tauto.
Qed.

(** C6.  The codec identifier returns -1 for a null path, a container that
    cannot be opened, stream information that cannot be resolved, or a
    container without video stream; otherwise 1 exactly when the decoder name
    of the selected stream is "notchlc" or its codec tag decodes to "nclc",
    and 0 for any other codec. *)
Theorem ff_is_notchlc_tristate (path : string) (w : W) :
  value (ff_is_notchlc None w) = -1 /\
  value (ff_is_notchlc (Some path) w) =
    match stream_prober (Some path) w with
    | None => -1
    | Some (fmt, w') =>
        match selected fmt w' with
        | None => -1
        | Some vs =>
            let par := AVStream.codecpar vs in
            if named (avcodec_get_name (AVCodecParameters.codec_id par) w') "notchlc"
               || tagged (AVCodecParameters.codec_tag par) "nclc"
            then 1 else 0
        end
    end.
Proof.
  split; [reflexivity|].
  unfold stream_prober, ff_is_notchlc. run.
  destruct (negb _); [reflexivity|]. run.
  destruct (_ <? 0); [reflexivity|]. run.
  unfold selected. rewrite Z.geb_leb, Z.leb_antisym.
  destruct (_ <? 0); [reflexivity|]. run. cbn [negb].
  unfold named. rewrite <- tag_test.
  destruct (avcodec_get_name _ _) as [name|]; [|reflexivity].
  rewrite strcmp_eqb. change (c_string (literal "notchlc")) with (ascii_bytes "notchlc").
  destruct (bool_decide _); reflexivity.
Qed.

End Codec.

(** ** The decode pump *)

Section PumpFacts.

Context {W : Type} {lib : LibAV W}.

(** One turn of the pump loop, split into its exits. *)
Ltac fields :=
  cbn [FFPlayer.fmt FFPlayer.vdec FFPlayer.vstream FFPlayer.frame FFPlayer.pkt
       FFPlayer.sws FFPlayer.out_w FFPlayer.out_h FFPlayer.at_eof
       FFPlayer.set_at_eof FFPlayer.set_sws].

Ltac pump_turn :=
  cbn [ff_next_frame_loop]; unfold receive_and_convert;
  repeat (run; fields;
          match goal with
          | |- context [value ((if ?c then _ else _) _)] => destruct c eqn:?
          | |- context [value (match ?o with Some _ => _ | None => _ end _)] =>
              destruct o eqn:?
          end);
  run; fields; cbn [Next.result Next.out_ib Next.player Next.out_pts_s].

Lemma loop_out_ib (fuel : nat) (p : FFPlayer.t) (pts : option double) (w : W) :
  Next.result (value (ff_next_frame_loop fuel p NULL pts w)) <> Some 1 ->
  Next.out_ib (value (ff_next_frame_loop fuel p NULL pts w)) = NULL.
Proof.
  revert p w. induction fuel as [|fuel IH]; intros p w; [reflexivity|].
  pump_turn; try (intros; reflexivity); try apply IH;
    intros H; exfalso; apply H; reflexivity.
Qed.

(** The same for a whole call: the first statement sets [*out_ib] to null. *)
Lemma out_ib_null_unless_frame (fuel : nat) (p : FFPlayer.t) (out_ib : pointer)
    (pts : option double) (w : W) :
  Next.result (value (ff_next_frame fuel p out_ib pts w)) <> Some 1 ->
  Next.out_ib (value (ff_next_frame fuel p out_ib pts w)) = NULL.
Proof.
  unfold ff_next_frame.
  destruct (FFPlayer.sws p =? NULL); [|apply loop_out_ib].
  run. destruct (_ <? 0); [reflexivity|]. run. apply loop_out_ib.
Qed.

(** C10.  [*out_ib] is set to null before anything else, so whenever the
    call does not return 1 (conversion set-up failure, allocation failure, a
    propagated read or decode error, end of stream, or a loop that has not
    returned yet) the caller's buffer pointer is null. *)
Theorem ff_next_frame_out_ib (fuel : nat) (p : FFPlayer.t) (out_ib : pointer)
    (pts : option double) (w : W) :
  Next.result (value (ff_next_frame fuel p out_ib pts w)) <> Some 1 ->
  Next.out_ib (value (ff_next_frame fuel p out_ib pts w)) = NULL.
Proof. apply out_ib_null_unless_frame. Qed.

Lemma EAGAIN_not_EOF : AVERROR EAGAIN <> AVERROR_EOF.
Proof. discriminate. Qed.

Lemma last_after {A} (pre l : list A) (x : A) :
  last l = Some x -> last (pre ++ l) = Some x.
Proof. intros H. rewrite last_app, H. reflexivity. Qed.

(** Where a run of the loop ends: with the decoder drained, with a frame,
    or with an error. *)
Lemma loop_end (fuel : nat) (p : FFPlayer.t) (pts : option double) (w : W) :
  let r := ff_next_frame_loop fuel p NULL pts w in
  (In (ReceiveFrame AVERROR_EOF) (calls r) ->
   Next.result (value r) = Some 0 /\
   last (calls r) = Some (ReceiveFrame AVERROR_EOF)) /\
  (forall c, Next.result (value r) = Some c ->
     c = 1 \/ c < 0 \/
     (c = 0 /\ last (calls r) = Some (ReceiveFrame AVERROR_EOF))).
Proof.
  revert p w. induction fuel as [|fuel IH]; intros p w.
  { split; [intros []|discriminate]. }
  pose proof EAGAIN_not_EOF as Hne.
  pump_turn; bools.
  all: match goal with
       | |- context [ff_next_frame_loop _ ?p' NULL _ ?w'] =>
           destruct (IH p' w') as [IH1 IH2]; clear IH
       | _ => clear IH
       end.
  all: split;
    [ intros Hin; cbn [app In] in Hin;
      repeat (destruct Hin as [Hin|Hin]; [try discriminate Hin|]);
      try (injection Hin as Hin; try congruence);
      try contradiction
    | intros c Hc ].
  (* the loop goes round: the statement for the rest of the run *)
  all: try (destruct (IH1 Hin) as [R L]; split; [exact R|];
            repeat (apply last_after); exact L).
  all: try (destruct (IH2 c Hc) as [?|[?|[? L]]]; [tauto|tauto|];
            right; right; split; [assumption|];
            repeat (apply last_after); exact L).
  (* the loop returns *)
  all: try (injection Hc as <-).
  all: try lia.
  all: repeat match goal with
              | H : _ = AVERROR_EOF |- _ => rewrite H; clear H
              end.
  all: try (split; reflexivity).
  all: try (right; right; split; reflexivity).
Qed.

(** C2.  When the decoder reports fully drained the call returns 0 with a
    null buffer pointer, in particular for a session at end of input; and a
    call that returns gives 1, a negative error code, or 0, the latter only
    when the last thing that happened is the decoder reporting fully
    drained. *)
Theorem ff_next_frame_end_of_stream (fuel : nat) (p : FFPlayer.t) (out_ib : pointer)
    (pts : option double) (w : W) :
  let r := ff_next_frame (S fuel) p out_ib pts w in
  (* whenever the decoder reports fully drained, the call returns 0 *)
  (In (ReceiveFrame AVERROR_EOF) (calls r) ->
   Next.result (value r) = Some 0 /\ Next.out_ib (value r) = NULL /\
   last (calls r) = Some (ReceiveFrame AVERROR_EOF)) /\
  (* a call that returns gives 1, an error, or 0 for a drained decoder *)
  (forall c, Next.result (value r) = Some c ->
     c = 1 \/ c < 0 \/
     (c = 0 /\ Next.out_ib (value r) = NULL /\
      last (calls r) = Some (ReceiveFrame AVERROR_EOF))) /\
  (* a session at end of input whose decoder reports fully drained *)
  (FFPlayer.at_eof p <> 0 -> FFPlayer.sws p <> NULL ->
   let s := avcodec_send_packet (FFPlayer.vdec p) None w in
   ~ (fst s < 0 /\ fst s <> AVERROR EAGAIN) ->
   fst (fst (avcodec_receive_frame (FFPlayer.vdec p) (snd s))) = AVERROR_EOF ->
   Next.result (value r) = Some 0 /\ Next.out_ib (value r) = NULL /\
   Next.player (value r) = p).
Proof.
  cbv zeta. split; [|split].
  - intros Hin.
    assert (Next.result (value (ff_next_frame (S fuel) p out_ib pts w)) = Some 0 /\
            last (calls (ff_next_frame (S fuel) p out_ib pts w)) =
              Some (ReceiveFrame AVERROR_EOF)) as [R L].
    { revert Hin. unfold ff_next_frame.
      destruct (FFPlayer.sws p =? NULL) eqn:Hs; [|apply loop_end].
      unfold setup_sws. rewrite Hs. cbn [negb]. run.
      destruct (_ <? 0); run.
      - intros Hin. cbn [app In] in Hin. destruct Hin as [Hin|[]]. discriminate Hin.
      - intros Hin. cbn [app In] in Hin. destruct Hin as [Hin|Hin]; [discriminate Hin|].
        destruct (proj1 (loop_end _ _ _ _) Hin) as [R L]. split; [exact R|].
        apply (last_after [_]), L. }
    split; [exact R|]. split; [|exact L].
    apply out_ib_null_unless_frame. rewrite R. discriminate.
  - intros c Hc.
    assert (c = 1 \/ c < 0 \/
            (c = 0 /\ last (calls (ff_next_frame (S fuel) p out_ib pts w)) =
                        Some (ReceiveFrame AVERROR_EOF))) as H.
    { revert Hc. unfold ff_next_frame.
      destruct (FFPlayer.sws p =? NULL) eqn:Hs; [|apply loop_end].
      unfold setup_sws. rewrite Hs. cbn [negb]. run.
      destruct (_ <? 0); run.
      - intros [= <-]. lia.
      - intros Hc. destruct (proj2 (loop_end _ _ _ _) c Hc) as [?|[?|[? L]]];
          [tauto|tauto|].
        right; right. split; [assumption|]. apply (last_after [_]), L. }
    destruct H as [?|[?|[-> L]]]; [tauto|tauto|].
    right; right. split; [reflexivity|]. split; [|exact L].
    apply out_ib_null_unless_frame. rewrite Hc. discriminate.
  - intros Heof Hsws Hsend Hrecv. unfold ff_next_frame.
    apply Z.eqb_neq in Heof, Hsws. rewrite Hsws.
    cbn [ff_next_frame_loop]. rewrite Heof. unfold receive_and_convert. run.
    replace ((_ <? 0) && negb (_ =? AVERROR EAGAIN)) with false; cycle 1.
    { symmetry. apply andb_false_iff.
      destruct (Z.ltb_spec (avcodec_send_packet (FFPlayer.vdec p) None w).1 0);
        [|left; reflexivity].
      right. apply negb_false_iff, Z.eqb_eq.
      destruct (Z.eq_dec (avcodec_send_packet (FFPlayer.vdec p) None w).1
                  (AVERROR EAGAIN)); [assumption|tauto]. }
    run. rewrite Hrecv. cbn [Z.eqb AVERROR_EOF AVERROR EAGAIN]. 
    repeat split.
Qed.

(** Once the end-of-input flag is set the loop reads no packet. *)
Lemma loop_no_read_at_eof (fuel : nat) (p : FFPlayer.t) (pts : option double)
    (w : W) (x : Z) :
  FFPlayer.at_eof p <> 0 ->
  ~ In (ReadFrame x) (calls (ff_next_frame_loop fuel p NULL pts w)).
Proof.
  revert p w. induction fuel as [|fuel IH]; intros p w Heof; [intros []|].
  apply Z.eqb_neq in Heof. cbn [ff_next_frame_loop]. rewrite Heof.
  apply Z.eqb_neq in Heof.
  unfold receive_and_convert.
  repeat (run; fields;
          match goal with
          | |- context [calls ((if ?c then _ else _) _)] => destruct c eqn:?
          | |- context [calls (match ?o with Some _ => _ | None => _ end _)] =>
              destruct o eqn:?
          end);
    run; intros Hin; cbn [app In] in Hin;
    repeat (destruct Hin as [Hin|Hin]; [discriminate Hin|]);
    try contradiction.
  all: eapply IH; eassumption.
Qed.

(** A read error ends the run of the loop at once. *)
Lemma loop_read_error (fuel : nat) (p : FFPlayer.t) (pts : option double)
    (w : W) (e : Z) :
  e < 0 -> e <> AVERROR_EOF ->
  let r := ff_next_frame_loop fuel p NULL pts w in
  In (ReadFrame e) (calls r) ->
  Next.result (value r) = Some e /\
  FFPlayer.at_eof (Next.player (value r)) = FFPlayer.at_eof p /\
  (exists pre, calls r = pre ++ [ReadFrame e; PacketUnref]) /\
  (forall s, ~ In (SendPacket None s) (calls r)).
Proof.
  intros He Hne. cbv zeta. revert p w.
  induction fuel as [|fuel IH]; intros p w; [intros []|].
  destruct (Z.eq_dec (FFPlayer.at_eof p) 0) as [Heof|Heof];
    [|intros Hin; exfalso; revert Hin; apply loop_no_read_at_eof, Heof].
  pump_turn; bools; try congruence.
  all: intros Hin; cbn [app In] in Hin;
    repeat (destruct Hin as [Hin|Hin]; [try discriminate Hin|]);
    try contradiction.
  all: try (injection Hin as Hin; try lia).
  (* the flag has just been set: no packet is read any more *)
  all: try (exfalso; revert Hin; apply loop_no_read_at_eof; cbn; discriminate).
  (* the failing read is in the rest of the run *)
  all: try (destruct (IH _ _ Hin) as (R & F & [pre L] & N);
            split; [exact R|]; split; [exact F|]; split;
            [eexists; rewrite L, !app_assoc; reflexivity|];
            intros s Hs; cbn [app In] in Hs;
            repeat (destruct Hs as [Hs|Hs]; [discriminate Hs|]);
            exact (N s Hs)).
  (* the failing read is this one *)
  all: subst e; split; [reflexivity|]; split; [reflexivity|]; split;
    [exists []; reflexivity|];
    intros s Hs; cbn [app In] in Hs;
    repeat (destruct Hs as [Hs|Hs]; [discriminate Hs|]); contradiction.
Qed.

(** C8.  When a read fails with an error that is not the end-of-input
    signal, the call returns that code, the end-of-input flag is unchanged,
    nothing is fed to the decoder after the failed read (the packet is
    unreferenced and the call returns) and no drain marker is sent. *)
Theorem ff_next_frame_read_error (fuel : nat) (p : FFPlayer.t) (out_ib : pointer)
    (pts : option double) (w : W) (e : Z) :
  e < 0 -> e <> AVERROR_EOF ->
  let r := ff_next_frame (S fuel) p out_ib pts w in
  (* wherever in the call the read fails *)
  (In (ReadFrame e) (calls r) ->
   Next.result (value r) = Some e /\
   FFPlayer.at_eof (Next.player (value r)) = FFPlayer.at_eof p /\
   (exists pre, calls r = pre ++ [ReadFrame e; PacketUnref]) /\
   (forall s, ~ In (SendPacket None s) (calls r))) /\
  (* when the first read of the call fails *)
  (FFPlayer.at_eof p = 0 -> FFPlayer.sws p <> NULL ->
   fst (fst (av_read_frame (FFPlayer.fmt p) w)) = e ->
   Next.result (value r) = Some e /\ Next.player (value r) = p /\
   calls r = [ReadFrame e; PacketUnref] /\
   world r = av_packet_unref (FFPlayer.pkt p) (snd (av_read_frame (FFPlayer.fmt p) w))).
Proof.
  intros He Hne. cbv zeta. split.
  - unfold ff_next_frame.
    destruct (FFPlayer.sws p =? NULL) eqn:Hs; [|apply loop_read_error; assumption].
    unfold setup_sws. rewrite Hs. cbn [negb]. run.
    destruct (_ <? 0); run; intros Hin; cbn [app In] in Hin;
      destruct Hin as [Hin|Hin]; try discriminate Hin; try contradiction.
    destruct (loop_read_error _ _ _ _ e He Hne Hin) as (R & F & [pre L] & N).
    split; [exact R|]. split; [exact F|]. split.
    + exists (GetContext (sws_getContext (FFPlayer.vdec p) w).1 :: pre).
      rewrite L. reflexivity.
    + intros s Hin'. cbn [app In] in Hin'.
      destruct Hin' as [Hin'|Hin']; [discriminate Hin'|]. exact (N s Hin').
  - intros Heof Hsws Hread. unfold ff_next_frame.
    apply Z.eqb_neq in Hsws. apply Z.eqb_eq in Heof. rewrite Hsws.
    cbn [ff_next_frame_loop]. rewrite Heof. run. rewrite Hread.
    replace (e =? AVERROR_EOF) with false by (symmetry; apply Z.eqb_neq, Hne).
    replace (e <? 0) with true by (symmetry; apply Z.ltb_lt, He).
    run. repeat split.
Qed.

End PumpFacts.

(** ** The scan of the last packets *)

Section Scan.

Context {W : Type} {lib : LibAV W}.

Lemma reads_app (l1 l2 : list Call) : reads (l1 ++ l2) = (reads l1 + reads l2)%nat.
Proof.
  induction l1 as [|c l1 IH]; [reflexivity|].
  destruct c; cbn [app reads]; rewrite IH; reflexivity.
Qed.

Lemma scan_packets_reads (left : nat) (fmt pkt : pointer) (vindex last_ts : Z) (w : W) :
  (reads (calls (scan_packets left fmt pkt vindex last_ts w)) <= left)%nat.
Proof.
  revert last_ts w. induction left as [|left IH]; intros last_ts w; [apply le_n|].
  cbn [scan_packets]. run.
  destruct (_ <? 0); run.
  - cbn. lia.
  - cbn [app reads]. specialize (IH
      (if AVPacket.stream_index (av_read_frame fmt w).1.2 =? vindex
       then
         if negb (packet_ts (av_read_frame fmt w).1.2 =? AV_NOPTS_VALUE)
         then packet_ts (av_read_frame fmt w).1.2 else last_ts
       else last_ts)
      (av_packet_unref pkt (av_read_frame fmt w).2)). lia.
Qed.

Lemma try_seek_to_end_reads (fmt : pointer) (vindex : Z) (w : W) :
  reads (calls (try_seek_to_end fmt vindex w)) = 0%nat.
Proof.
  unfold try_seek_to_end.
  repeat (run;
          match goal with
          | |- context [calls ((if ?c then _ else _) _)] => destruct c
          end);
    reflexivity.
Qed.

Lemma scan_windows_reads (windows : list double) (fmt : pointer) (vindex : Z)
    (tb : AVRational.t) (last_ts : Z) (w : W) :
  (reads (calls (scan_windows windows fmt vindex tb last_ts w))
   <= Z.to_nat SCAN_CAP * length windows)%nat.
Proof.
  revert last_ts w. induction windows as [|window windows IH]; intros last_ts w;
    [apply le_n|].
  cbn [scan_windows length]. run.
  rewrite reads_app, try_seek_to_end_reads.
  destruct (_ <? 0); run; [cbn; lia|].
  match goal with
  | |- context [calls ((if ?c then ?a else ?b) ?w')] =>
      assert (Hstep : reads (calls ((if c then a else b) w')) = 0%nat)
  end.
  { repeat (run;
            match goal with
            | |- context [calls ((if ?c then _ else _) _)] => destruct c
            end); reflexivity. }
  rewrite reads_app, Hstep. clear Hstep.
  cbn [app reads].
  destruct (_ =? NULL); run; [cbn; lia|].
  rewrite reads_app.
  match goal with
  | |- context [calls (scan_packets ?n ?a ?b ?c ?d ?e)] =>
      pose proof (scan_packets_reads n a b c d e) as Hscan
  end.
  cbn [app reads].
  destruct (negb _); run.
  - cbn [reads]. lia.
  - match goal with
    | |- context [calls (scan_windows windows ?a ?b ?c ?d ?e)] =>
        specialize (IH d e)
    end. lia.
Qed.

Lemma bind_ext {A B} (m : M W A) (k1 k2 : A -> M W B) (w : W) :
  k1 (value (m w)) (world (m w)) = k2 (value (m w)) (world (m w)) ->
  bind m k1 w = bind m k2 w.
Proof. unfold bind. intros ->. reflexivity. Qed.

(** The windows after the one that captured a timestamp are not visited. *)
Lemma value_bind {A B} (m : M W A) (k : A -> M W B) (w : W) :
  value (bind m k w) = value (k (value (m w)) (world (m w))).
Proof. reflexivity. Qed.

Lemma value_ret {A} (a : A) (w : W) : value (ret a w) = a.
Proof. reflexivity. Qed.

Lemma scan_windows_stop (window : double) (rest : list double) (fmt : pointer)
    (vindex : Z) (tb : AVRational.t) (last_ts : Z) (w : W) :
  value (scan_windows [window] fmt vindex tb last_ts w) <> AV_NOPTS_VALUE ->
  scan_windows (window :: rest) fmt vindex tb last_ts w =
  scan_windows [window] fmt vindex tb last_ts w.
Proof.
  intros H.
  lazymatch goal with
  | |- ?l = ?r =>
      let l' := eval cbn [scan_windows] in l in
      let r' := eval cbn [scan_windows] in r in
      assert (El : l = l') by reflexivity;
      assert (Er : r = r') by reflexivity;
      rewrite Er in H; rewrite El, Er; clear El Er
  end.
  set (cap := Z.to_nat SCAN_CAP) in *. clearbody cap.
  apply bind_ext. rewrite value_bind in H. cbv beta in H |- *.
  destruct (value (try_seek_to_end fmt vindex w) <? 0); [cbv beta iota; reflexivity|].
  apply bind_ext. rewrite value_bind in H. cbv beta in H |- *.
  apply bind_ext. rewrite value_bind in H. cbv beta in H |- *.
  match goal with
  | |- (if ?c then _ else _) _ = _ => destruct c
  end; [cbv beta iota; reflexivity|].
  apply bind_ext. rewrite value_bind in H. cbv beta in H |- *.
  apply bind_ext. rewrite value_bind in H. cbv beta in H |- *.
  match goal with
  | |- (if ?c then _ else _) _ = _ => destruct c eqn:E
  end; [cbv beta iota; reflexivity|].
  apply negb_false_iff, Z.eqb_eq in E.
  rewrite value_ret in H. exact (False_ind _ (H E)).
Qed.

(** C9.  The forward scan of a window reads at most 10,000 packets, whatever
    the source answers; the windows after one that captured a timestamp are
    not visited; a whole call reads at most 30,000 packets. *)
Theorem scan_is_capped :
  (* the forward scan of a window reads at most 10,000 packets *)
  (forall (fmt pkt : pointer) (vindex last_ts : Z) (w : W),
     Z.of_nat (reads (calls (scan_packets (Z.to_nat SCAN_CAP) fmt pkt vindex last_ts w)))
     <= 10000) /\
  (* the windows after one that captured a timestamp are not visited *)
  (forall (window : double) (rest : list double) (fmt : pointer) (vindex : Z)
          (tb : AVRational.t) (w : W),
     value (scan_windows [window] fmt vindex tb AV_NOPTS_VALUE w) <> AV_NOPTS_VALUE ->
     scan_windows (window :: rest) fmt vindex tb AV_NOPTS_VALUE w =
     scan_windows [window] fmt vindex tb AV_NOPTS_VALUE w) /\
  (* so a whole call reads at most 30,000 packets *)
  (forall (path : option string) (w : W),
     Z.of_nat (reads (calls (ff_precise_duration path w))) <= 30000).
Proof.
  split; [|split].
  - intros fmt pkt vindex last_ts w.
    pose proof (scan_packets_reads (Z.to_nat SCAN_CAP) fmt pkt vindex last_ts w) as H.
    apply Nat2Z.inj_le in H. rewrite Z2Nat.id in H by discriminate. exact H.
  - intros. apply scan_windows_stop. assumption.
  - intros path w. unfold ff_precise_duration.
    destruct path as [path|]; [|run; cbn [reads]; lia].
    do 3 (run;
          match goal with
          | |- context [calls ((if ?c then _ else _) _)] => destruct c
          end; [run; cbn [app reads]; lia|]).
    run.
    cbn [app reads]. rewrite reads_app. cbn [app reads].
    match goal with
    | |- context [calls (scan_windows ?a ?b ?c ?d ?e ?f)] =>
        pose proof (scan_windows_reads a b c d e f) as H
    end.
    apply Nat2Z.inj_le in H. rewrite Nat2Z.inj_mul, Z2Nat.id in H by discriminate.
    change (Z.of_nat (length windows_sec)) with 3 in H.
    change SCAN_CAP with 10000 in H. lia.
Qed.

End Scan.

(** ** Closing a session *)

Section Close.

Context {W : Type} {lib : LibAV W}.

(** C3, as amended.  Closing a null session does nothing.  Closing a live
    session releases the conversion context, the frame and packet buffers,
    the decoder and the source, in that order, and frees the session; the
    pointer then dangles, and closing it a second time is not a no-op: it
    reads freed memory. *)
Theorem ff_close_releases (a : pointer) (mem : gmap Z FFPlayer.t) (w : W) :
  (* closing a null session does nothing *)
  ff_close NULL mem w = mkRun (Some mem) w [] /\
  (* closing a live session releases what it holds and frees it *)
  (forall p : FFPlayer.t,
     a <> NULL -> mem !! a = Some p ->
     let r := ff_close a mem w in
     value r = Some (delete a mem) /\
     calls r = released p ++ [Free a] /\
     (* the pointer now dangles: closing it again reads freed memory *)
     value (ff_close a (delete a mem) (world r)) = None).
Proof.
  split; [reflexivity|].
  intros p Ha Hp. cbv zeta. unfold ff_close.
  apply Z.eqb_neq in Ha. rewrite Ha, Hp, lookup_delete_eq.
  split; [reflexivity|]. split; [|reflexivity].
  unfold released. run.
  destruct (FFPlayer.sws p =? NULL), (FFPlayer.frame p =? NULL),
    (FFPlayer.pkt p =? NULL), (FFPlayer.vdec p =? NULL), (FFPlayer.fmt p =? NULL);
    reflexivity.
Qed.

End Close.

(** * Further properties of the code *)

(** One turn of the pump loop, for any shape of goal. *)
Ltac pump_fields :=
  cbn [FFPlayer.fmt FFPlayer.vdec FFPlayer.vstream FFPlayer.frame FFPlayer.pkt
       FFPlayer.sws FFPlayer.out_w FFPlayer.out_h FFPlayer.at_eof
       FFPlayer.set_at_eof FFPlayer.set_sws].

Ltac pump_cases :=
  cbn [ff_next_frame_loop]; unfold receive_and_convert;
  repeat (run; pump_fields;
          match goal with
          | |- context [(if ?c then _ else _) ?w] => destruct c eqn:?
          | |- context [(match ?o with Some _ => _ | None => _ end) ?w] =>
              destruct o eqn:?
          end);
  run; pump_fields; cbn [Next.result Next.out_ib Next.player Next.out_pts_s].

(** ** The probes and their container *)

Section Probes.

Context {W : Type} {lib : LibAV W}.

Lemma run_eq {A} (r r' : Run W A) :
  value r = value r' -> world r = world r' -> calls r = calls r' -> r = r'.
Proof. destruct r, r'; cbn; intros -> -> ->; reflexivity. Qed.

Lemma closes_app (l1 l2 : list Call) : closes (l1 ++ l2) = (closes l1 + closes l2)%nat.
Proof.
  induction l1 as [|c l1 IH]; [reflexivity|].
  destruct c; cbn [app closes]; rewrite IH; reflexivity.
Qed.

Lemma scan_packets_closes (left : nat) (fmt pkt : pointer) (vindex last_ts : Z) (w : W) :
  closes (calls (scan_packets left fmt pkt vindex last_ts w)) = 0%nat.
Proof.
  revert last_ts w. induction left as [|left IH]; intros last_ts w; [reflexivity|].
  cbn [scan_packets]. run.
  destruct (_ <? 0); run; [reflexivity|].
  cbn [app closes]. apply IH.
Qed.

Lemma try_seek_to_end_closes (fmt : pointer) (vindex : Z) (w : W) :
  closes (calls (try_seek_to_end fmt vindex w)) = 0%nat.
Proof.
  unfold try_seek_to_end.
  repeat (run;
          match goal with
          | |- context [calls ((if ?c then _ else _) _)] => destruct c
          end);
    reflexivity.
Qed.

Lemma scan_windows_closes (windows : list double) (fmt : pointer) (vindex : Z)
    (tb : AVRational.t) (last_ts : Z) (w : W) :
  closes (calls (scan_windows windows fmt vindex tb last_ts w)) = 0%nat.
Proof.
  revert last_ts w. induction windows as [|window windows IH]; intros last_ts w;
    [reflexivity|].
  cbn [scan_windows]. run.
  rewrite closes_app, try_seek_to_end_closes.
  destruct (_ <? 0); run; [reflexivity|].
  match goal with
  | |- context [calls ((if ?c then ?a else ?b) ?w')] =>
      assert (Hstep : closes (calls ((if c then a else b) w')) = 0%nat)
  end.
  { repeat (run;
            match goal with
            | |- context [calls ((if ?c then _ else _) _)] => destruct c
            end); reflexivity. }
  rewrite closes_app, Hstep. clear Hstep.
  cbn [app closes].
  destruct (_ =? NULL); run; [reflexivity|].
  rewrite closes_app, scan_packets_closes.
  cbn [app closes Nat.add].
  destruct (negb _); run; [reflexivity|]. apply IH.
Qed.

Ltac metadata_log :=
  unfold metadata_calls; run;
  let E := fresh "E" in
  match goal with
  | |- context [fst (fst (avformat_open_input ?p ?w)) =? 0] =>
      destruct (Z.eqb_spec (fst (fst (avformat_open_input p w))) 0) as [E|E]
  end;
  cbn [negb]; run; [rewrite E|reflexivity];
  repeat (match goal with
          | |- context [calls ((if ?c then _ else _) _)] => destruct c
          end; run);
  reflexivity.

Ltac probe_log :=
  unfold opens_and_closes; run;
  let E := fresh "E" in
  match goal with
  | |- context [fst (fst (avformat_open_input ?p ?w)) =? 0] =>
      destruct (Z.eqb_spec (fst (fst (avformat_open_input p w))) 0) as [E|E]
  end;
  cbn [negb]; run; [rewrite E|reflexivity].

(** X1.  The probes that read metadata only (fast probe, frame-accurate
    duration, average frame rate, codec identifier, format duration) change
    the state of the libraries by three calls at most: the open, the
    resolution of the streams and the close of the container that was
    opened; a failed open is their only call.  They never seek, read a
    packet or decode.  The probes that test their path make no call at all
    for a null path. *)
Theorem metadata_probes_calls (path : option string) (name : string) (w : W) :
  calls (ff_probe_duration path w) = metadata_calls path w /\
  calls (ff_frame_accurate_duration (Some name) w) = metadata_calls (Some name) w /\
  calls (ff_get_avg_fps (Some name) w) = metadata_calls (Some name) w /\
  calls (ff_is_notchlc (Some name) w) = metadata_calls (Some name) w /\
  calls (ff_format_duration (Some name) w) = metadata_calls (Some name) w /\
  calls (ff_frame_accurate_duration None w) = [] /\
  calls (ff_get_avg_fps None w) = [] /\
  calls (ff_is_notchlc None w) = [] /\
  calls (ff_format_duration None w) = [] /\
  calls (ff_precise_duration None w) = [].
Proof.
  repeat match goal with |- _ /\ _ => split end; try reflexivity.
  - unfold ff_probe_duration. metadata_log.
  - unfold ff_frame_accurate_duration. metadata_log.
  - unfold ff_get_avg_fps. metadata_log.
  - unfold ff_is_notchlc. metadata_log.
  - unfold ff_format_duration. metadata_log.
Qed.

(** X27.  The precise duration closes the container it opened, once, as
    its last call, and closes nothing when the open failed. *)
Theorem ff_precise_duration_closes_container (path : string) (w : W) :
  opens_and_closes (Some path) w (calls (ff_precise_duration (Some path) w)).
Proof.
  unfold ff_precise_duration. probe_log.
  destruct (_ <? 0); run; [eexists [FindStreamInfo _]; split; reflexivity|].
  destruct (_ <? 0); run; [eexists [FindStreamInfo _]; split; reflexivity|].
  eexists (FindStreamInfo _ :: calls (scan_windows _ _ _ _ _ _)). split.
  - reflexivity.
  - cbn [closes]. apply scan_windows_closes.
Qed.

(** X2.  The average frame rate is unknown for a null path, a container that
    cannot be probed or one without video stream; otherwise it is the
    numerator over the denominator of the frame rate of the selected stream
    (the average rate preferred, else the real rate) when both are positive,
    and unknown when they are not.  It is never zero, negative or
    infinite. *)
Theorem ff_get_avg_fps_value (path : string) (w : W) :
  selected_typed (Some path) w ->
  let fps := value (ff_get_avg_fps (Some path) w) in
  value (ff_get_avg_fps None w) = NAN /\
  fps =
    match stream_prober (Some path) w with
    | None => NAN
    | Some (fmt, w') => average_rate (selected fmt w')
    end /\
  (fps = NAN \/ (strictly_positive fps /\ is_finite fps = true)).
Proof.
  intros Ht. cbv zeta. split; [reflexivity|].
  assert (Hv : value (ff_get_avg_fps (Some path) w) =
               match stream_prober (Some path) w with
               | None => NAN
               | Some (fmt, w') => average_rate (selected fmt w')
               end).
  { unfold stream_prober, ff_get_avg_fps. run.
    destruct (negb _); [reflexivity|]. run.
    destruct (_ <? 0); [reflexivity|]. run.
    unfold selected, average_rate.
    destruct (_ >=? 0); [|reflexivity].
    rewrite <- frame_rate_preferred. reflexivity. }
  split; [exact Hv|]. rewrite Hv. clear Hv.
  unfold selected_typed in Ht.
  destruct (stream_prober (Some path) w) as [[fmt w']|]; [|left; reflexivity].
  destruct Ht as [_ Ht].
  destruct (selected fmt w') as [vs|]; [|left; reflexivity].
  unfold average_rate. rewrite <- frame_rate_preferred.
  unfold stream_typed in Ht.
  repeat match goal with
         | H : _ && _ = true |- _ => apply andb_true_iff in H as [? ?]
         end.
  assert (Trate : is_rational (frame_rate vs) = true).
  { unfold frame_rate.
    destruct (AVRational.num (AVStream.avg_frame_rate vs) >? 0); assumption. }
  apply andb_true_iff in Trate as [Tn Td].
  destruct (AVRational.num (frame_rate vs) >? 0) eqn:Hn; cbn [andb];
    [|left; reflexivity].
  destruct (AVRational.den (frame_rate vs) >? 0) eqn:Hd; [|left; reflexivity].
  apply Z.gtb_lt in Hn, Hd.
  right.
  destruct (ratio_normal _ _ Hn Hd Tn Td) as (m & e & -> & _).
  split; reflexivity.
Qed.

(** X3.  The format duration is the container duration over the time unit
    when the container reports a positive duration, and unknown otherwise:
    for a null path, a container that cannot be probed, or a duration that
    is zero, negative or the no-value sentinel. *)
Theorem ff_format_duration_value (path : string) (w : W) :
  container_typed (Some path) w ->
  value (ff_format_duration None w) = NAN /\
  value (ff_format_duration (Some path) w) =
    match stream_prober (Some path) w with
    | None => NAN
    | Some (fmt, w') => container_tier (format_context fmt w')
    end.
Proof.
  split; [reflexivity|]. revert H.
  unfold container_typed, stream_prober, ff_format_duration. run.
  destruct (negb _); [reflexivity|]. run.
  destruct (_ <? 0); [reflexivity|]. run.
  intros Td. unfold container_tier.
  destruct (_ >? 0) eqn:Ha; [|reflexivity].
  apply known_or_nan_positive, container_tier_positive; [|assumption].
  apply Z.gtb_lt, Ha.
Qed.

(** X4.  Whenever the format duration of a path is known, the fast probe of
    the same path returns the same value: its stream, frame count and file
    size tiers are not consulted. *)
Theorem fast_probe_agrees_with_format (path : option string) (w : W) :
  value (ff_format_duration path w) <> NAN ->
  value (ff_probe_duration path w) = value (ff_format_duration path w).
Proof.
  destruct path as [path|]; [|intros H; exfalso; apply H; reflexivity].
  unfold ff_format_duration, ff_probe_duration. run.
  destruct (negb _); [reflexivity|]. run.
  destruct (_ <? 0); [reflexivity|]. run.
  destruct (_ >? 0); [|intros H; exfalso; apply H; reflexivity].
  match goal with
  | |- known_or_nan ?x <> NAN -> _ =>
      destruct (gt x zero) eqn:Hp;
      [intros _|intros H; exfalso; apply H, known_or_nan_not_positive, Hp]
  end.
  destruct (_ >=? 0); cbn [negb andb]; rewrite ?Hp; cbn [negb andb]; run;
    rewrite ?Hp; cbn [negb andb]; run; reflexivity.
Qed.


End Probes.

(** ** Seeking to the end and scanning *)

Section SeekAndScan.

Context {W : Type} {lib : LibAV W}.


Lemma scan_packets_log (left : nat) (fmt pkt : pointer) (vindex last_ts : Z) (w : W) :
  scan_log (calls (scan_packets left fmt pkt vindex last_ts w)) = true.
Proof.
  revert last_ts w. induction left as [|left IH]; intros last_ts w; [reflexivity|].
  cbn [scan_packets]. run.
  destruct (_ <? 0) eqn:E; run.
  - cbn [app scan_log]. exact E.
  - cbn [app scan_log]. rewrite IH. apply Z.ltb_ge in E.
    apply andb_true_iff. split; [apply Z.leb_le, E|reflexivity].
Qed.

Lemma scan_packets_stops (left : nat) (fmt pkt : pointer) (vindex last_ts : Z) (w : W) :
  let l := calls (scan_packets left fmt pkt vindex last_ts w) in
  (reads l < left)%nat -> exists e, last l = Some (ReadFrame e) /\ e < 0.
Proof.
  cbv zeta. revert last_ts w. induction left as [|left IH]; intros last_ts w; [cbn; lia|].
  cbn [scan_packets]. run.
  destruct (_ <? 0) eqn:E; run.
  - intros _. eexists. split; [reflexivity|]. apply Z.ltb_lt, E.
  - cbn [app reads]. intros H. apply PeanoNat.lt_S_n in H.
    destruct (IH _ _ H) as (e & L & He). exists e. split; [|exact He].
    apply (last_after [_; _]), L.
Qed.

(** X8.  In the forward scan every packet that was read is unreferenced
    before the next read, a read that fails is the last call of the scan
    (its packet is not unreferenced), and a scan that stops before its cap
    stops on a failed read. *)
Theorem scan_packets_reads_and_unrefs (left : nat) (fmt pkt : pointer)
    (vindex last_ts : Z) (w : W) :
  let l := calls (scan_packets left fmt pkt vindex last_ts w) in
  scan_log l = true /\
  ((reads l < left)%nat -> exists e, last l = Some (ReadFrame e) /\ e < 0).
Proof. split; [apply scan_packets_log|apply scan_packets_stops]. Qed.

Lemma last_stamp_cons (vindex : Z) (x : AVPacket.t) (l : list AVPacket.t) (init : Z) :
  last_stamp vindex (x :: l) init =
  last_stamp vindex l
    (if AVPacket.stream_index x =? vindex
     then if negb (packet_ts x =? AV_NOPTS_VALUE) then packet_ts x else init
     else init).
Proof.
  unfold last_stamp, stamped at 1, packet_ts. cbn [List.filter].
  destruct (AVPacket.stream_index x =? vindex); cbn [andb]; [|reflexivity].
  destruct (Z.eqb_spec (AVPacket.pts x) AV_NOPTS_VALUE) as [Ep|Ep]; cbn [negb andb].
  - destruct (Z.eqb_spec (AVPacket.dts x) AV_NOPTS_VALUE) as [Ed|Ed]; cbn [negb].
    + rewrite Z.eqb_refl. reflexivity.
    + apply Z.eqb_neq in Ed. rewrite Ed. cbn [negb].
      rewrite last_cons. destruct (last _); [reflexivity|].
      apply Z.eqb_eq in Ep. rewrite Ep. reflexivity.
  - apply Z.eqb_neq in Ep. rewrite Ep. cbn [negb].
    rewrite last_cons. destruct (last _); [reflexivity|]. rewrite Ep. reflexivity.
Qed.

(** X9.  When the source delivers the packets [l] and then fails, the scan
    returns the timestamp of the last packet, among the first [left] of [l],
    that belongs to the selected stream and carries a timestamp (its
    presentation timestamp, else its decoding timestamp); when there is none
    it returns the timestamp it started from. *)
Theorem scan_packets_last_timestamp (left : nat) (fmt pkt : pointer)
    (vindex last_ts : Z) (l : list AVPacket.t) (w : W) :
  delivers fmt pkt l w ->
  value (scan_packets left fmt pkt vindex last_ts w) =
    last_stamp vindex (firstn left l) last_ts.
Proof.
  revert l last_ts w. induction left as [|left IH]; intros l last_ts w H;
    [reflexivity|].
  cbn [scan_packets]. run. destruct l as [|x l]; cbn [delivers] in H.
  - apply Z.ltb_lt in H. rewrite H. reflexivity.
  - destruct H as (Hr & Hx & H). apply Z.ltb_ge in Hr. rewrite Hr. run.
    cbn [firstn]. rewrite last_stamp_cons, <- Hx. apply IH, H.
Qed.

Lemma scan_windows_no_seek (window : double) (rest : list double) (fmt : pointer)
    (vindex : Z) (tb : AVRational.t) (last_ts : Z) (w : W) :
  value (try_seek_to_end fmt vindex w) < 0 ->
  scan_windows (window :: rest) fmt vindex tb last_ts w =
  mkRun last_ts (world (try_seek_to_end fmt vindex w))
    (calls (try_seek_to_end fmt vindex w)).
Proof.
  intros H. apply Z.ltb_lt in H.
  cbn [scan_windows]. unfold bind at 1. cbv beta zeta. rewrite H.
  cbn [ret value world calls]. rewrite app_nil_r. reflexivity.
Qed.

(** X10.  When the container has a video stream and none of the seeks to
    the end succeeds, the precise duration reads no packet and answers from
    the metadata: the stream duration times the time base when known and
    positive, else the container duration, the result being unknown when
    that candidate is not strictly positive. *)
Theorem precise_when_no_seek_succeeds (path : string) (w : W) :
  no_seek_succeeds (Some path) w ->
  reads (calls (ff_precise_duration (Some path) w)) = 0%nat /\
  value (ff_precise_duration (Some path) w) =
    match stream_prober (Some path) w with
    | None => NAN
    | Some (fmt, w') =>
        let vindex := av_find_best_stream fmt w' in
        let tb := AVStream.time_base (stream_at (format_context fmt w') vindex) in
        let f := format_context fmt (world (try_seek_to_end fmt vindex w')) in
        known_or_nan (precise_candidate f (stream_at f vindex) tb AV_NOPTS_VALUE)
    end.
Proof.
  unfold no_seek_succeeds, stream_prober, ff_precise_duration. run.
  destruct (negb _); [intros _; split; reflexivity|]. run.
  destruct (_ <? 0); [intros _; split; reflexivity|]. run.
  intros [Hv Hs]. apply Z.ltb_ge in Hv. rewrite Hv. run.
  unfold windows_sec. rewrite (scan_windows_no_seek _ _ _ _ _ _ _ Hs). run.
  split; [|reflexivity].
  cbn [app reads]. rewrite reads_app, try_seek_to_end_reads. reflexivity.
Qed.

Lemma quiet_nil : quiet [].
Proof. intros k. split; reflexivity. Qed.

Lemma quiet_app (l1 l2 : list Call) : quiet l1 -> quiet l2 -> quiet (l1 ++ l2).
Proof.
  intros H1 H2 k. destruct (H1 k) as [A1 B1], (H2 k) as [A2 B2].
  rewrite !omap_app, A1, A2, B1, B2. split; reflexivity.
Qed.

Lemma balanced_app (l1 l2 : list Call) :
  balanced l1 -> balanced l2 -> balanced (l1 ++ l2).
Proof. intros H1 H2 k. rewrite !omap_app, H1, H2. reflexivity. Qed.

Lemma quiet_balanced (l : list Call) : quiet l -> balanced l.
Proof. intros H k. destruct (H k) as [-> ->]. reflexivity. Qed.

Lemma try_seek_to_end_quiet (fmt : pointer) (vindex : Z) (w : W) :
  quiet (calls (try_seek_to_end fmt vindex w)).
Proof.
  unfold try_seek_to_end.
  repeat (run;
          match goal with
          | |- context [calls ((if ?c then _ else _) _)] => destruct c
          end);
    intros k; destruct k; split; reflexivity.
Qed.

Lemma scan_packets_quiet (left : nat) (fmt pkt : pointer) (vindex last_ts : Z) (w : W) :
  quiet (calls (scan_packets left fmt pkt vindex last_ts w)).
Proof.
  revert last_ts w. induction left as [|left IH]; intros last_ts w; [apply quiet_nil|].
  cbn [scan_packets]. run.
  destruct (_ <? 0); run.
  - intros k; destruct k; split; reflexivity.
  - apply (quiet_app [_]); [intros k; destruct k; split; reflexivity|].
    apply (quiet_app [_]); [intros k; destruct k; split; reflexivity|]. apply IH.
Qed.

Lemma omap_one {A B} (f : A -> option B) (c : A) :
  omap f [c] = if f c is Some y then [y] else [].
Proof. reflexivity. Qed.

Lemma packet_pair_balanced (pkt : pointer) (l : list Call) :
  pkt <> NULL -> quiet l -> balanced (PacketAlloc pkt :: l ++ [PacketFree pkt]).
Proof.
  intros Hp Hl k. apply Z.eqb_neq in Hp. destruct (Hl k) as [A B].
  change (PacketAlloc pkt :: l ++ [PacketFree pkt])
    with ([PacketAlloc pkt] ++ l ++ [PacketFree pkt]).
  rewrite !omap_app, A, B, !omap_one.
  destruct k; cbn [acquires releases]; rewrite ?Hp; reflexivity.
Qed.

Lemma scan_windows_balanced (windows : list double) (fmt : pointer) (vindex : Z)
    (tb : AVRational.t) (last_ts : Z) (w : W) :
  balanced (calls (scan_windows windows fmt vindex tb last_ts w)).
Proof.
  revert last_ts w. induction windows as [|window windows IH]; intros last_ts w;
    [apply quiet_balanced, quiet_nil|].
  cbn [scan_windows]. run.
  apply balanced_app; [apply quiet_balanced, try_seek_to_end_quiet|].
  destruct (_ <? 0); run; [apply quiet_balanced, quiet_nil|].
  apply balanced_app.
  { apply quiet_balanced.
    repeat (run;
            match goal with
            | |- context [calls ((if ?c then _ else _) _)] => destruct c
            end); intros k; destruct k; split; reflexivity. }
  cbn [app].
  match goal with
  | |- context [?p =? NULL] => destruct (Z.eqb_spec p NULL) as [E|E]
  end; run.
  - rewrite E. intros k; destruct k; reflexivity.
  - rewrite app_assoc.
    match goal with
    | |- balanced (PacketAlloc ?p :: (?l ++ [PacketFree ?p]) ++ ?rest) =>
        change (balanced ((PacketAlloc p :: l ++ [PacketFree p]) ++ rest))
    end.
    apply balanced_app; [apply packet_pair_balanced;
                         [exact E|apply scan_packets_quiet]|].
    destruct (negb _); run; [apply quiet_balanced, quiet_nil|apply IH].
Qed.

(** X11.  The precise duration frees every packet it allocates, in the order
    of allocation, and frees nothing else. *)
Theorem ff_precise_duration_balanced (path : option string) (w : W) :
  balanced (calls (ff_precise_duration path w)).
Proof.
  unfold ff_precise_duration.
  destruct path as [path|]; [|apply quiet_balanced, quiet_nil].
  do 3 (run;
        match goal with
        | |- context [calls ((if ?c then _ else _) _)] => destruct c
        end; [run; intros k; destruct k; reflexivity|]).
  run. cbn [app]. apply (balanced_app [_]); [intros k; destruct k; reflexivity|].
  apply (balanced_app [_]); [intros k; destruct k; reflexivity|].
  apply balanced_app; [apply scan_windows_balanced|].
  intros k; destruct k; reflexivity.
Qed.

Lemma seeks_app (l1 l2 : list Call) : seeks (l1 ++ l2) = (seeks l1 + seeks l2)%nat.
Proof.
  induction l1 as [|c l1 IH]; [reflexivity|].
  destruct c; cbn [app seeks]; rewrite IH; reflexivity.
Qed.

Lemma packet_allocs_app (l1 l2 : list Call) :
  packet_allocs (l1 ++ l2) = (packet_allocs l1 + packet_allocs l2)%nat.
Proof.
  induction l1 as [|c l1 IH]; [reflexivity|].
  destruct c; cbn [app packet_allocs]; rewrite IH; reflexivity.
Qed.

Lemma try_seek_to_end_effort (fmt : pointer) (vindex : Z) (w : W) :
  (seeks (calls (try_seek_to_end fmt vindex w)) <= 4)%nat /\
  packet_allocs (calls (try_seek_to_end fmt vindex w)) = 0%nat.
Proof.
  unfold try_seek_to_end.
  repeat (run;
          match goal with
          | |- context [calls ((if ?c then _ else _) _)] => destruct c
          end);
    cbn; split; lia.
Qed.

Lemma scan_packets_effort (left : nat) (fmt pkt : pointer) (vindex last_ts : Z) (w : W) :
  seeks (calls (scan_packets left fmt pkt vindex last_ts w)) = 0%nat /\
  packet_allocs (calls (scan_packets left fmt pkt vindex last_ts w)) = 0%nat.
Proof.
  revert last_ts w. induction left as [|left IH]; intros last_ts w; [split; reflexivity|].
  cbn [scan_packets]. run.
  destruct (_ <? 0); run; [split; reflexivity|].
  cbn [app seeks packet_allocs]. apply IH.
Qed.

Lemma scan_windows_effort (windows : list double) (fmt : pointer) (vindex : Z)
    (tb : AVRational.t) (last_ts : Z) (w : W) :
  (seeks (calls (scan_windows windows fmt vindex tb last_ts w)) <= 5 * length windows)%nat /\
  (packet_allocs (calls (scan_windows windows fmt vindex tb last_ts w))
   <= length windows)%nat.
Proof.
  revert last_ts w. induction windows as [|window windows IH]; intros last_ts w;
    [split; apply le_n|].
  cbn [scan_windows length]. run.
  rewrite seeks_app, packet_allocs_app.
  destruct (try_seek_to_end_effort fmt vindex w) as [S1 A1]. rewrite A1.
  destruct (_ <? 0); run; [cbn [seeks packet_allocs]; lia|].
  match goal with
  | |- context [calls ((if ?c then ?a else ?b) ?w')] =>
      assert (Hstep : (seeks (calls ((if c then a else b) w')) <= 1)%nat /\
                      packet_allocs (calls ((if c then a else b) w')) = 0%nat)
  end.
  { repeat (run;
            match goal with
            | |- context [calls ((if ?c then _ else _) _)] => destruct c
            end); cbn; split; lia. }
  destruct Hstep as [S2 A2].
  rewrite !seeks_app, !packet_allocs_app, A2.
  cbn [seeks packet_allocs].
  destruct (_ =? NULL); run; [cbn [seeks packet_allocs]; lia|].
  rewrite !seeks_app, !packet_allocs_app.
  match goal with
  | |- context [calls (scan_packets ?n ?a ?b ?c ?d ?e)] =>
      destruct (scan_packets_effort n a b c d e) as [S3 A3]
  end.
  rewrite S3, A3. cbn [app seeks packet_allocs].
  destruct (negb _); run.
  - cbn [seeks packet_allocs]. lia.
  - match goal with
    | |- context [calls (scan_windows windows ?a ?b ?c ?d ?e)] =>
        destruct (IH d e) as [S4 A4]
    end. lia.
Qed.

(** X28.  The work of the precise duration is bounded whatever the source
    answers: at most fifteen seeks (four to reach the end and one to step
    back, for each of the three windows) and at most three packet
    allocations. *)
Theorem ff_precise_duration_effort (path : option string) (w : W) :
  (seeks (calls (ff_precise_duration path w)) <= 15)%nat /\
  (packet_allocs (calls (ff_precise_duration path w)) <= 3)%nat.
Proof.
  unfold ff_precise_duration.
  destruct path as [path|]; [|run; cbn; lia].
  do 3 (run;
        match goal with
        | |- context [calls ((if ?c then _ else _) _)] => destruct c
        end; [run; cbn; lia|]).
  run. cbn [app seeks packet_allocs].
  rewrite seeks_app, packet_allocs_app. cbn [seeks packet_allocs].
  match goal with
  | |- context [calls (scan_windows ?a ?b ?c ?d ?e ?f)] =>
      destruct (scan_windows_effort a b c d e f) as [S A]
  end.
  change (length windows_sec) with 3%nat in S, A. lia.
Qed.

End SeekAndScan.

(** ** Opening and closing a session *)

Section OpenClose.

Context {W : Type} {lib : LibAV W}.

Ltac session_fields :=
  cbn [FFPlayer.fmt FFPlayer.vdec FFPlayer.vstream FFPlayer.frame FFPlayer.pkt
       FFPlayer.sws FFPlayer.out_w FFPlayer.out_h FFPlayer.at_eof
       FFPlayer.set_fmt FFPlayer.set_vdec FFPlayer.set_vstream FFPlayer.set_frame
       FFPlayer.set_pkt FFPlayer.set_sws FFPlayer.set_out FFPlayer.set_at_eof
       FFPlayer.zeroed].

Lemma ff_open_success (path : option string) (out : OpenOut.t)
    (mem : gmap Z FFPlayer.t) (w : W) :
  let r := ff_open path out mem w in
  let a := (value r).1.1 in
  a <> NULL ->
  exists p,
    (value r).2 = <[a := p]> mem /\
    FFPlayer.sws p = NULL /\ FFPlayer.at_eof p = 0 /\ 0 <= FFPlayer.vstream p /\
    FFPlayer.vdec p <> NULL /\ FFPlayer.frame p <> NULL /\ FFPlayer.pkt p <> NULL /\
    (FFPlayer.out_w p, FFPlayer.out_h p) = codec_dimensions (FFPlayer.vdec p) (world r) /\
    exists o i x y,
      0 <= o /\ 0 <= i /\ 0 <= x /\ 0 <= y /\
      calls r =
        [LogSetLevel; Calloc a; OpenInput o; FindStreamInfo i;
         AllocContext3 (FFPlayer.vdec p); ParametersToContext x; Open2 y;
         FrameAlloc (FFPlayer.frame p); PacketAlloc (FFPlayer.pkt p)].
Proof.
  cbv zeta. unfold ff_open. run.
  repeat
    (session_fields;
     match goal with
     | |- context [value ((if ?c then _ else _) _)] => destruct c eqn:?
     end;
     [run; intros Hne; exfalso; apply Hne; reflexivity|]; run).
  session_fields.
  intros _. eexists. split; [reflexivity|]. session_fields.
  bools.
  repeat match goal with
         | H : _ || _ = false |- _ => apply orb_false_iff in H as [? ?]
         end.
  bools.
  repeat match goal with |- _ /\ _ => split end;
    try assumption; try reflexivity; try lia.
  - symmetry. apply surjective_pairing.
  - do 4 eexists.
    split; [|split; [|split; [|split; [|reflexivity]]]]; assumption.
Qed.

(** X12.  A session returned by [ff_open] is recorded at the address that
    [calloc] returned; it has no converter yet, is not at end of input,
    decodes a stream of index zero or more, holds a decoder, a frame and a
    packet that are not null and the dimensions of the decoder; every step
    of the open succeeded and nothing was released. *)
Theorem ff_open_session (path : option string) (out : OpenOut.t)
    (mem : gmap Z FFPlayer.t) (w : W) :
  let r := ff_open path out mem w in
  let a := (value r).1.1 in
  a <> NULL ->
  exists p,
    (value r).2 = <[a := p]> mem /\
    FFPlayer.sws p = NULL /\ FFPlayer.at_eof p = 0 /\ 0 <= FFPlayer.vstream p /\
    FFPlayer.vdec p <> NULL /\ FFPlayer.frame p <> NULL /\ FFPlayer.pkt p <> NULL /\
    (FFPlayer.out_w p, FFPlayer.out_h p) = codec_dimensions (FFPlayer.vdec p) (world r) /\
    exists o i x y,
      0 <= o /\ 0 <= i /\ 0 <= x /\ 0 <= y /\
      calls r =
        [LogSetLevel; Calloc a; OpenInput o; FindStreamInfo i;
         AllocContext3 (FFPlayer.vdec p); ParametersToContext x; Open2 y;
         FrameAlloc (FFPlayer.frame p); PacketAlloc (FFPlayer.pkt p)].
Proof. apply ff_open_success. Qed.

Ltac null_tests :=
  rewrite ?Z.eqb_refl;
  repeat match goal with
         | H : (?x =? NULL) = _ |- context [?x =? NULL] => rewrite H
         end;
  cbn [negb orb]; run.

Ltac log_facts :=
  cbn [app];
  repeat match goal with |- _ /\ _ => split end;
  [ reflexivity
  | reflexivity
  | intros k; destruct k; cbn [omap list_omap acquires releases];
    repeat match goal with
           | H : (?x =? NULL) = _ |- context [?x =? NULL] => rewrite H
           end;
    reflexivity
  | intros x; cbn [In]; bools; split;
    [ intros H; repeat (destruct H as [H|H]; [try discriminate H|]);
      try contradiction; injection H as <-; repeat split; assumption
    | intros (Ha & -> & Hx); try contradiction; try tauto ]
  | cbn [closes]; lia ].

(** X14.  When [ff_open] fails it leaves the out-parameters and the memory
    as they were and releases what it had acquired: the frame, the packet,
    the decoder and the session struct that were allocated are freed, each
    once, and the container is closed exactly when the session struct was
    allocated and the open left a container that is not null. *)
Theorem ff_open_failure (path : option string) (out : OpenOut.t)
    (mem : gmap Z FFPlayer.t) (w : W) :
  let r := ff_open path out mem w in
  let session := calloc (av_log_set_level AV_LOG_ERROR w) in
  let opened := avformat_open_input path (snd session) in
  (value r).1.1 = NULL ->
  (value r).1.2 = out /\ (value r).2 = mem /\
  balanced (calls r) /\
  (forall x, In (CloseInput x) (calls r) <->
     fst session <> NULL /\ x = snd (fst opened) /\ x <> NULL) /\
  (closes (calls r) <= 1)%nat.
Proof.
  cbv zeta. unfold ff_open. run.
  repeat
    (session_fields;
     match goal with
     | |- context [value ((if ?c then _ else _) _)] => destruct c eqn:?
     end;
     [ unfold ff_open_fail; run; session_fields; null_tests;
       repeat (match goal with
               | |- context [negb (?x =? NULL)] => destruct (x =? NULL) eqn:?
               end; cbn [negb]; run);
       intros _; log_facts
     | run ]).
  session_fields. intros H. bools. contradiction.
Qed.

(** X13.  A successful [ff_open] writes the width and height of the decoder
    and the time base of the selected stream, as a double, to the
    out-parameters that are not null; an out-parameter that is null stays
    so. *)
Theorem ff_open_out_parameters (path : option string) (out : OpenOut.t)
    (mem : gmap Z FFPlayer.t) (w : W) :
  let r := ff_open path out mem w in
  let a := (value r).1.1 in
  let out' := (value r).1.2 in
  a <> NULL ->
  exists p,
    (value r).2 !! a = Some p /\
    let vs := stream_at (format_context (FFPlayer.fmt p) (world r)) (FFPlayer.vstream p) in
    let dims := codec_dimensions (FFPlayer.vdec p) (world r) in
    OpenOut.width out' = store (OpenOut.width out) (fst dims) /\
    OpenOut.height out' = store (OpenOut.height out) (snd dims) /\
    OpenOut.time_base out' =
      store (OpenOut.time_base out) (av_q2d (AVStream.time_base vs)).
Proof.
  cbv zeta. unfold ff_open. run.
  repeat
    (session_fields;
     match goal with
     | |- context [value ((if ?c then _ else _) _)] => destruct c eqn:?
     end;
     [run; intros Hne; exfalso; apply Hne; reflexivity|]; run).
  session_fields.
  intros _. eexists. split; [apply lookup_insert_eq|]. session_fields.
  repeat split.
Qed.

(** X15.  Closing a session right after opening it, at an address that was
    free, gives back the memory as it was before the open; over both calls
    every frame, packet, decoder and session struct that was allocated is
    freed once, and the free of the session struct is the last call. *)
Theorem ff_open_then_close (path : option string) (out : OpenOut.t)
    (mem : gmap Z FFPlayer.t) (w : W) :
  let r := ff_open path out mem w in
  let a := (value r).1.1 in
  a <> NULL -> mem !! a = None ->
  let c := ff_close a (value r).2 (world r) in
  value c = Some mem /\
  balanced (calls r ++ calls c) /\
  last (calls c) = Some (Free a).
Proof.
  cbv zeta. intros Ha Hfresh.
  destruct (ff_open_success path out mem w Ha)
    as (p & Hmem & Hsws & _ & _ & Hd & Hf & Hp & _ & o & i & x & y & _ & _ & _ & _ & L).
  rewrite Hmem, L. clear Hmem L.
  unfold ff_close. apply Z.eqb_neq in Ha, Hd, Hf, Hp. apply Z.eqb_eq in Hsws.
  rewrite Ha, lookup_insert_eq, Hsws, Hd, Hf, Hp. cbn [negb]. run.
  rewrite delete_insert_id by exact Hfresh.
  split; [reflexivity|]. split.
  - intros k.
    destruct (FFPlayer.fmt p =? NULL); cbn [negb]; run;
      destruct k; cbn [app omap list_omap acquires releases];
      rewrite ?Ha, ?Hd, ?Hf, ?Hp; reflexivity.
  - destruct (FFPlayer.fmt p =? NULL); reflexivity.
Qed.

End OpenClose.

(** ** What a call of the pump does *)

Section PumpLog.

Context {W : Type} {lib : LibAV W}.

Lemma unrefs_app (l1 l2 : list Call) : unrefs (l1 ++ l2) = (unrefs l1 + unrefs l2)%nat.
Proof.
  induction l1 as [|c l1 IH]; [reflexivity|].
  destruct c; cbn [app unrefs]; rewrite IH; reflexivity.
Qed.

Lemma loop_pump_calls (fuel : nat) (p : FFPlayer.t) (out_ib : pointer)
    (pts : option double) (w : W) :
  forallb (pump_call (FFPlayer.vstream p))
    (calls (ff_next_frame_loop fuel p out_ib pts w)) = true.
Proof.
  revert p w. induction fuel as [|fuel IH]; intros p w; [reflexivity|].
  pump_cases; rewrite ?forallb_app; cbn [forallb pump_call andb];
    try reflexivity; bools.
  all: try match goal with
           | |- context [ff_next_frame_loop _ ?p' _ _ ?w'] =>
               rewrite (IH p' w')
           end.
  all: pump_fields; rewrite ?IH; rewrite ?andb_true_r; try reflexivity.
  all: try (apply Z.eqb_eq; assumption).
  all: apply (IH (FFPlayer.set_at_eof 1 p)).
Qed.

Lemma loop_reads_unrefs (fuel : nat) (p : FFPlayer.t) (out_ib : pointer)
    (pts : option double) (w : W) :
  reads (calls (ff_next_frame_loop fuel p out_ib pts w)) =
  unrefs (calls (ff_next_frame_loop fuel p out_ib pts w)).
Proof.
  revert p w. induction fuel as [|fuel IH]; intros p w; [reflexivity|].
  pump_cases; rewrite ?reads_app, ?unrefs_app; cbn [reads unrefs Nat.add];
    rewrite ?IH; reflexivity.
Qed.

Lemma loop_drain_calls (fuel : nat) (p : FFPlayer.t) (out_ib : pointer)
    (pts : option double) (w : W) :
  FFPlayer.at_eof p <> 0 ->
  forallb drain_call (calls (ff_next_frame_loop fuel p out_ib pts w)) = true.
Proof.
  revert p w. induction fuel as [|fuel IH]; intros p w Heof; [reflexivity|].
  apply Z.eqb_neq in Heof. cbn [ff_next_frame_loop]. rewrite Heof.
  apply Z.eqb_neq in Heof.
  unfold receive_and_convert.
  repeat (run; pump_fields;
          match goal with
          | |- context [(if ?c then _ else _) ?w] => destruct c eqn:?
          | |- context [(match ?o with Some _ => _ | None => _ end) ?w] =>
              destruct o eqn:?
          end);
    run; rewrite ?forallb_app; cbn [forallb drain_call andb];
    rewrite ?IH by assumption; reflexivity.
Qed.

(** The loop changes nothing in the session but the end-of-input flag,
    which it only sets. *)
Lemma loop_player (fuel : nat) (p : FFPlayer.t) (out_ib : pointer)
    (pts : option double) (w : W) :
  let q := Next.player (value (ff_next_frame_loop fuel p out_ib pts w)) in
  q = p \/ (FFPlayer.at_eof p = 0 /\ q = FFPlayer.set_at_eof 1 p).
Proof.
  cbv zeta. revert p w. induction fuel as [|fuel IH]; intros p w; [left; reflexivity|].
  pump_cases; bools; try (left; reflexivity); try (right; split; reflexivity).
  all: try apply IH.
  all: try (right; split; [assumption|]; try reflexivity).
  all: match goal with
       | |- context [ff_next_frame_loop _ ?p' _ _ ?w'] =>
           destruct (IH p' w') as [->|[E _]]; [reflexivity|discriminate E]
       end.
Qed.

Lemma loop_eof_flag (fuel : nat) (p : FFPlayer.t) (out_ib : pointer)
    (pts : option double) (w : W) :
  let r := ff_next_frame_loop fuel p out_ib pts w in
  In (ReadFrame AVERROR_EOF) (calls r) <->
  FFPlayer.at_eof (Next.player (value r)) <> FFPlayer.at_eof p.
Proof.
  cbv zeta. revert p w. induction fuel as [|fuel IH]; intros p w.
  { cbn. tauto. }
  pump_cases; bools.
  all: match goal with
       | |- context [ff_next_frame_loop _ (FFPlayer.set_at_eof 1 ?p') _ _ ?w'] =>
           destruct (loop_player fuel (FFPlayer.set_at_eof 1 p') out_ib pts w')
             as [->|[E _]]; [|discriminate E]; clear IH
       | |- context [ff_next_frame_loop _ ?p' _ _ ?w'] =>
           specialize (IH p' w')
       | _ => clear IH
       end.
  all: pump_fields; cbn [app In].
  all: repeat match goal with
              | H : _ = AVERROR_EOF |- _ => rewrite H in *; clear H
              end.
  all: split; intros Hx.
  all: try (repeat (destruct Hx as [Hx|Hx]; [try discriminate Hx|]);
            try contradiction; try congruence).
  all: try (apply IH in Hx; exact Hx).
  all: try lia.
  all: first [ exfalso; apply Hx; reflexivity
             | left; reflexivity
             | repeat right; apply IH; exact Hx ].
Qed.

Lemma loop_decode_error (fuel : nat) (p : FFPlayer.t) (out_ib : pointer)
    (pts : option double) (w : W) (e : Z) :
  e < 0 -> e <> AVERROR EAGAIN -> e <> AVERROR_EOF ->
  let r := ff_next_frame_loop fuel p out_ib pts w in
  In (ReceiveFrame e) (calls r) ->
  Next.result (value r) = Some e /\ last (calls r) = Some (ReceiveFrame e).
Proof.
  intros He Hag Heof. cbv zeta. revert p w.
  induction fuel as [|fuel IH]; intros p w; [intros []|].
  pump_cases; bools.
  all: intros Hin; cbn [app In] in Hin;
    repeat (destruct Hin as [Hin|Hin]; [try discriminate Hin|]);
    try contradiction.
  all: try (injection Hin as Hin; try lia; try congruence).
  all: try (destruct (IH _ _ Hin) as [R L]; split; [exact R|];
            repeat (apply last_after); exact L).
  all: subst e; split; reflexivity.
Qed.

Lemma loop_drain_error (fuel : nat) (p : FFPlayer.t) (out_ib : pointer)
    (pts : option double) (w : W) (e : Z) :
  e < 0 -> e <> AVERROR EAGAIN -> FFPlayer.at_eof p <> 0 ->
  let r := ff_next_frame_loop fuel p out_ib pts w in
  In (SendPacket None e) (calls r) ->
  Next.result (value r) = Some e /\ last (calls r) = Some (SendPacket None e).
Proof.
  intros He Hag. cbv zeta. revert p w.
  induction fuel as [|fuel IH]; intros p w Hp; [intros []|].
  pump_cases; bools; try contradiction.
  all: intros Hin; cbn [app In] in Hin;
    repeat (destruct Hin as [Hin|Hin]; [try discriminate Hin|]);
    try contradiction.
  all: try (injection Hin as Hin; try lia; try congruence).
  all: try (destruct (IH _ _ Hp Hin) as [R L]; split; [exact R|];
            repeat (apply last_after); exact L).
  all: try (subst e; split; reflexivity).
  all: try (exfalso;
            match goal with
            | H : ~ (_ /\ _) |- _ => apply H; split; [lia|congruence]
            | H : negb _ = false |- _ => apply negb_false_iff in H; bools; congruence
            | H : _ && _ = false |- _ =>
                apply andb_false_iff in H as [H|H]; bools; [lia|congruence]
            end).
Qed.

Lemma loop_buffer_failure (fuel : nat) (p : FFPlayer.t) (out_ib : pointer)
    (pts : option double) (w : W) :
  let r := ff_next_frame_loop fuel p out_ib pts w in
  In (PixelBufferCreate None) (calls r) ->
  Next.result (value r) = Some (-3) /\
  last (calls r) = Some (PixelBufferCreate None).
Proof.
  cbv zeta. revert p w.
  induction fuel as [|fuel IH]; intros p w; [intros []|].
  pump_cases; bools.
  all: intros Hin; cbn [app In] in Hin;
    repeat (destruct Hin as [Hin|Hin]; [try discriminate Hin|]);
    try contradiction.
  all: try (destruct (IH _ _ Hin) as [R L]; split; [exact R|];
            repeat (apply last_after); exact L).
  all: split; reflexivity.
Qed.

Lemma loop_frame (fuel : nat) (p : FFPlayer.t) (out_ib : pointer)
    (pts : option double) (w : W) (pb : pointer) :
  let r := ff_next_frame_loop fuel p out_ib pts w in
  In (PixelBufferCreate (Some pb)) (calls r) ->
  Next.result (value r) = Some 1 /\ Next.out_ib (value r) = pb /\
  exists pre e, 0 <= e /\ calls r = pre ++ frame_handover e pb.
Proof.
  cbv zeta. revert p w.
  induction fuel as [|fuel IH]; intros p w; [intros []|].
  pump_cases; bools.
  all: intros Hin; cbn [app In] in Hin;
    repeat (destruct Hin as [Hin|Hin]; [try discriminate Hin|]);
    try contradiction.
  all: try (destruct (IH _ _ Hin) as (R & B & pre & e & He & L);
            split; [exact R|]; split; [exact B|];
            eexists; exists e; split; [exact He|];
            rewrite L, !app_assoc; reflexivity).
  all: injection Hin as <-; split; [reflexivity|]; split; [reflexivity|].
  all: unfold frame_handover.
  all: match goal with
       | |- exists pre e, _ /\ ?l = _ =>
           let l' := eval cbn [app] in l in
           match l' with
           | [?a; ?b; ?c; ?d; ?x; ?y] => exists []
           | [?c0; ?a; ?b; ?c; ?d; ?x; ?y] => exists [c0]
           | [?c0; ?c1; ?a; ?b; ?c; ?d; ?x; ?y] => exists [c0; c1]
           | [?c0; ?c1; ?c2; ?a; ?b; ?c; ?d; ?x; ?y] => exists [c0; c1; c2]
           | [?c0; ?c1; ?c2; ?c3; ?a; ?b; ?c; ?d; ?x; ?y] => exists [c0; c1; c2; c3]
           end
       end.
  all: eexists; split; [|reflexivity]; assumption.
Qed.

Lemma loop_frame_returned (fuel : nat) (p : FFPlayer.t) (out_ib : pointer)
    (pts : option double) (w : W) :
  let r := ff_next_frame_loop fuel p out_ib pts w in
  Next.result (value r) = Some 1 ->
  In (PixelBufferCreate (Some (Next.out_ib (value r)))) (calls r).
Proof.
  cbv zeta. revert p w.
  induction fuel as [|fuel IH]; intros p w; [discriminate|].
  pump_cases; bools; try discriminate.
  all: try (intros [= E]; lia).
  all: try (intros H; repeat (apply in_or_app; right); apply IH, H).
  all: intros _; cbn [app In]; repeat (first [left; reflexivity|right]).
Qed.

Lemma loop_out_pts (fuel : nat) (p : FFPlayer.t) (out_ib : pointer)
    (pts : option double) (w : W) :
  let r := ff_next_frame_loop fuel p out_ib pts w in
  Next.out_pts_s (value r) = pts \/
  (Next.result (value r) = Some 1 /\ exists v, Next.out_pts_s (value r) = store pts v).
Proof.
  cbv zeta. revert p w.
  induction fuel as [|fuel IH]; intros p w; [left; reflexivity|].
  pump_cases; try (left; reflexivity); try apply IH.
  all: right; split; [reflexivity|]; eexists; reflexivity.
Qed.

(** A call is the conversion set-up, when the session has no converter
    yet, followed by the loop. *)
Lemma ff_next_frame_unfold (fuel : nat) (p : FFPlayer.t) (out_ib : pointer)
    (pts : option double) (w : W) :
  ff_next_frame fuel p out_ib pts w =
    if FFPlayer.sws p =? NULL then
      let c := sws_getContext (FFPlayer.vdec p) w in
      if fst c =? NULL
      then mkRun (Next.mk (Some (-2)) (FFPlayer.set_sws (fst c) p) NULL pts) (snd c)
             [GetContext (fst c)]
      else
        let r := ff_next_frame_loop fuel (FFPlayer.set_sws (fst c) p) NULL pts (snd c) in
        mkRun (value r) (world r) (GetContext (fst c) :: calls r)
    else ff_next_frame_loop fuel p NULL pts w.
Proof.
  unfold ff_next_frame, setup_sws.
  destruct (FFPlayer.sws p =? NULL); [|reflexivity].
  cbn [negb]. unfold bind at 1. cbv beta zeta. run. pump_fields.
  destruct (_ =? NULL); reflexivity.
Qed.

Ltac call_cases :=
  cbv zeta; rewrite ff_next_frame_unfold; cbv zeta;
  destruct (FFPlayer.sws _ =? NULL) eqn:Hsws;
  [destruct (fst (sws_getContext _ _) =? NULL) eqn:Hctx|];
  cbn [value world calls Next.result Next.player Next.out_ib Next.out_pts_s].

Lemma pump_call_not_setup (v : Z) (l : list Call) (c : pointer) :
  forallb (pump_call v) l = true -> ~ In (GetContext c) l.
Proof.
  intros H Hin. rewrite forallb_forall in H. specialize (H _ Hin). discriminate H.
Qed.

(** X16.  The converter is created lazily and once: a call on a session
    that has one creates none and keeps it; a call on a session without one
    starts by creating it, creates no other, stores it in the session, and
    returns -2 without touching the source or the decoder when the creation
    fails. *)
Theorem ff_next_frame_converter (fuel : nat) (p : FFPlayer.t) (out_ib : pointer)
    (pts : option double) (w : W) :
  let r := ff_next_frame fuel p out_ib pts w in
  let q := Next.player (value r) in
  (FFPlayer.sws p <> NULL ->
   FFPlayer.sws q = FFPlayer.sws p /\ forall c, ~ In (GetContext c) (calls r)) /\
  (FFPlayer.sws p = NULL ->
   let c := fst (sws_getContext (FFPlayer.vdec p) w) in
   FFPlayer.sws q = c /\
   exists rest,
     calls r = GetContext c :: rest /\
     (forall c', ~ In (GetContext c') rest) /\
     (c = NULL -> Next.result (value r) = Some (-2) /\ rest = [])).
Proof.
  call_cases; bools; (split; [intros Hp|intros Hp; cbv zeta]); try contradiction.
  - split; [reflexivity|]. exists []. split; [reflexivity|].
    split; [intros c' []|]. intros _. split; reflexivity.
  - split.
    + destruct (loop_player fuel (FFPlayer.set_sws (sws_getContext (FFPlayer.vdec p) w).1 p)
                  NULL pts (sws_getContext (FFPlayer.vdec p) w).2) as [->|[_ ->]];
        reflexivity.
    + eexists. split; [reflexivity|]. split; [|intros E; contradiction].
      intros c'. eapply pump_call_not_setup, loop_pump_calls.
  - split.
    + destruct (loop_player fuel p NULL pts w) as [->|[_ ->]]; reflexivity.
    + intros c. eapply pump_call_not_setup, loop_pump_calls.
Qed.

(** X17.  [ff_next_frame] keeps the source, the decoder, the stream index,
    the frame, the packet and the output dimensions of the session; the
    end-of-input flag changes only from 0 to 1, and it changes exactly when
    a read answered the end-of-input signal. *)
Theorem ff_next_frame_session (fuel : nat) (p : FFPlayer.t) (out_ib : pointer)
    (pts : option double) (w : W) :
  let r := ff_next_frame fuel p out_ib pts w in
  let q := Next.player (value r) in
  FFPlayer.fmt q = FFPlayer.fmt p /\ FFPlayer.vdec q = FFPlayer.vdec p /\
  FFPlayer.vstream q = FFPlayer.vstream p /\ FFPlayer.frame q = FFPlayer.frame p /\
  FFPlayer.pkt q = FFPlayer.pkt p /\ FFPlayer.out_w q = FFPlayer.out_w p /\
  FFPlayer.out_h q = FFPlayer.out_h p /\
  (FFPlayer.at_eof q = FFPlayer.at_eof p \/
   (FFPlayer.at_eof p = 0 /\ FFPlayer.at_eof q = 1)) /\
  (In (ReadFrame AVERROR_EOF) (calls r) <-> FFPlayer.at_eof q <> FFPlayer.at_eof p).
Proof.
  call_cases.
  - repeat split; try (left; reflexivity); try tauto.
    intros [H|[]]. discriminate H.
  - pose proof (loop_eof_flag fuel (FFPlayer.set_sws (sws_getContext (FFPlayer.vdec p) w).1 p)
                  NULL pts (sws_getContext (FFPlayer.vdec p) w).2) as F.
    cbv zeta in F. pump_fields.
    destruct (loop_player fuel (FFPlayer.set_sws (sws_getContext (FFPlayer.vdec p) w).1 p)
                NULL pts (sws_getContext (FFPlayer.vdec p) w).2) as [E|[E0 E]];
      rewrite E in *; pump_fields;
      cbn [FFPlayer.at_eof FFPlayer.set_at_eof FFPlayer.set_sws] in *.
    + repeat split; try (left; reflexivity); try tauto.
      intros [H|H]; [discriminate H|]. apply F, H.
    + repeat split; try (right; split; [exact E0|reflexivity]).
      * intros _. rewrite E0. discriminate.
      * intros H. right. apply F, H.
  - pose proof (loop_eof_flag fuel p NULL pts w) as F. cbv zeta in F.
    destruct (loop_player fuel p NULL pts w) as [E|[E0 E]];
      rewrite E in *; pump_fields.
    + repeat split; try (left; reflexivity); tauto.
    + repeat split; try (right; split; [exact E0|reflexivity]); apply F.
Qed.

(** X18.  For a session at end of input [ff_next_frame] reads no packet,
    unreferences none and sends none to the decoder (only drain markers),
    and the session stays at end of input. *)
Theorem ff_next_frame_draining (fuel : nat) (p : FFPlayer.t) (out_ib : pointer)
    (pts : option double) (w : W) :
  FFPlayer.at_eof p <> 0 ->
  let r := ff_next_frame fuel p out_ib pts w in
  (forall x, ~ In (ReadFrame x) (calls r)) /\
  ~ In PacketUnref (calls r) /\
  (forall pkt s, ~ In (SendPacket (Some pkt) s) (calls r)) /\
  FFPlayer.at_eof (Next.player (value r)) = FFPlayer.at_eof p.
Proof.
  intros Hp.
  assert (D : forall l, forallb drain_call l = true ->
              (forall x, ~ In (ReadFrame x) l) /\ ~ In PacketUnref l /\
              (forall pkt s, ~ In (SendPacket (Some pkt) s) l)).
  { intros l H. rewrite forallb_forall in H.
    repeat split; repeat intro;
      match goal with Hin : In _ l |- _ => specialize (H _ Hin); discriminate H end. }
  call_cases.
  - repeat split; repeat intro;
      match goal with Hin : In _ [_] |- _ => destruct Hin as [Hin|[]]; discriminate Hin end.
  - pose proof (loop_drain_calls fuel
                  (FFPlayer.set_sws (sws_getContext (FFPlayer.vdec p) w).1 p)
                  NULL pts (sws_getContext (FFPlayer.vdec p) w).2 Hp) as H.
    destruct (D _ H) as (D1 & D2 & D3).
    repeat split; repeat intro.
    + destruct H0 as [H0|H0]; [discriminate H0|]. exact (D1 _ H0).
    + destruct H0 as [H0|H0]; [discriminate H0|]. exact (D2 H0).
    + destruct H0 as [H0|H0]; [discriminate H0|]. exact (D3 _ _ H0).
    + destruct (loop_player fuel
                  (FFPlayer.set_sws (sws_getContext (FFPlayer.vdec p) w).1 p)
                  NULL pts (sws_getContext (FFPlayer.vdec p) w).2) as [->|[E _]];
        [reflexivity|contradiction].
  - destruct (D _ (loop_drain_calls fuel p NULL pts w Hp)) as (D1 & D2 & D3).
    repeat split; try assumption.
    destruct (loop_player fuel p NULL pts w) as [->|[E _]];
      [reflexivity|contradiction].
Qed.

(** X19.  Every packet that [ff_next_frame] sends to the decoder belongs to
    the stream of the session; the packets of other streams are dropped. *)
Theorem ff_next_frame_sends_selected_stream (fuel : nat) (p : FFPlayer.t)
    (out_ib : pointer) (pts : option double) (w : W) (pkt : AVPacket.t) (s : Z) :
  In (SendPacket (Some pkt) s) (calls (ff_next_frame fuel p out_ib pts w)) ->
  AVPacket.stream_index pkt = FFPlayer.vstream p.
Proof.
  assert (D : forall l, forallb (pump_call (FFPlayer.vstream p)) l = true ->
              In (SendPacket (Some pkt) s) l ->
              AVPacket.stream_index pkt = FFPlayer.vstream p).
  { intros l H Hin. rewrite forallb_forall in H. apply Z.eqb_eq, (H _ Hin). }
  call_cases.
  - intros [H|[]]. discriminate H.
  - intros [H|H]; [discriminate H|]. revert H. apply D.
    apply (loop_pump_calls fuel
             (FFPlayer.set_sws (sws_getContext (FFPlayer.vdec p) w).1 p)).
  - apply D, loop_pump_calls.
Qed.

(** X20.  [ff_next_frame] unreferences every packet it reads: its log holds
    as many unreferences as reads, whatever the way the call ends. *)
Theorem ff_next_frame_unrefs_every_packet (fuel : nat) (p : FFPlayer.t)
    (out_ib : pointer) (pts : option double) (w : W) :
  reads (calls (ff_next_frame fuel p out_ib pts w)) =
  unrefs (calls (ff_next_frame fuel p out_ib pts w)).
Proof.
  call_cases; cbn [reads unrefs]; try reflexivity; apply loop_reads_unrefs.
Qed.

(** X21.  Decode errors are returned as they are: when the decoder answers
    a receive with a negative code that is neither "again" nor the
    end-of-stream signal, and when it answers the drain marker of a session
    at end of input with a negative code other than "again", the call ends
    there and returns that code. *)
Theorem ff_next_frame_decode_error (fuel : nat) (p : FFPlayer.t) (out_ib : pointer)
    (pts : option double) (w : W) (e : Z) :
  e < 0 -> e <> AVERROR EAGAIN ->
  let r := ff_next_frame fuel p out_ib pts w in
  (e <> AVERROR_EOF -> In (ReceiveFrame e) (calls r) ->
   Next.result (value r) = Some e /\ last (calls r) = Some (ReceiveFrame e)) /\
  (FFPlayer.at_eof p <> 0 -> In (SendPacket None e) (calls r) ->
   Next.result (value r) = Some e /\ last (calls r) = Some (SendPacket None e)).
Proof.
  intros He Hag. call_cases; split.
  - intros _ [H|[]]. discriminate H.
  - intros _ [H|[]]. discriminate H.
  - intros Hne [H|H]; [discriminate H|].
    destruct (loop_decode_error _ _ _ _ _ e He Hag Hne H) as [R L].
    split; [exact R|]. apply (last_after [_]), L.
  - intros Hp [H|H]; [discriminate H|].
    destruct (loop_drain_error fuel (FFPlayer.set_sws _ p) _ _ _ e He Hag Hp H)
      as [R L].
    split; [exact R|]. apply (last_after [_]), L.
  - intros Hne. apply loop_decode_error; assumption.
  - intros Hp. apply loop_drain_error; assumption.
Qed.

(** X22.  When CoreVideo cannot create the pixel buffer for a decoded frame
    the call returns -3 at once: the failed creation is its last call, so
    nothing is locked, scaled or unreferenced. *)
Theorem ff_next_frame_buffer_failure (fuel : nat) (p : FFPlayer.t) (out_ib : pointer)
    (pts : option double) (w : W) :
  let r := ff_next_frame fuel p out_ib pts w in
  In (PixelBufferCreate None) (calls r) ->
  Next.result (value r) = Some (-3) /\
  last (calls r) = Some (PixelBufferCreate None).
Proof.
  call_cases.
  - intros [H|[]]. discriminate H.
  - intros [H|H]; [discriminate H|].
    destruct (loop_buffer_failure _ _ _ _ _ H) as [R L].
    split; [exact R|]. apply (last_after [_]), L.
  - apply loop_buffer_failure.
Qed.

(** X23.  A call returns 1 exactly when it created a pixel buffer: that
    buffer is the one handed to the caller, and the call ends with the
    receive of the frame, the creation of the buffer, lock, scale, unlock
    and the unreference of the frame, in that order. *)
Theorem ff_next_frame_frame (fuel : nat) (p : FFPlayer.t) (out_ib : pointer)
    (pts : option double) (w : W) :
  let r := ff_next_frame fuel p out_ib pts w in
  (forall pb, In (PixelBufferCreate (Some pb)) (calls r) ->
     Next.result (value r) = Some 1 /\ Next.out_ib (value r) = pb /\
     exists pre e, 0 <= e /\ calls r = pre ++ frame_handover e pb) /\
  (Next.result (value r) = Some 1 ->
   In (PixelBufferCreate (Some (Next.out_ib (value r)))) (calls r)).
Proof.
  call_cases; split.
  - intros pb [H|[]]. discriminate H.
  - discriminate.
  - intros pb [H|H]; [discriminate H|].
    destruct (loop_frame _ _ _ _ _ pb H) as (R & B & pre & e & He & L).
    split; [exact R|]. split; [exact B|].
    eexists (_ :: pre), e. split; [exact He|]. rewrite L. reflexivity.
  - intros H. right. apply loop_frame_returned, H.
  - intros pb. apply loop_frame.
  - apply loop_frame_returned.
Qed.

(** X24.  The timestamp out-parameter is written only by a call that returns
    1, and a null timestamp out-parameter is never written. *)
Theorem ff_next_frame_out_pts (fuel : nat) (p : FFPlayer.t) (out_ib : pointer)
    (pts : option double) (w : W) :
  let r := ff_next_frame fuel p out_ib pts w in
  (Next.result (value r) <> Some 1 -> Next.out_pts_s (value r) = pts) /\
  (Next.out_pts_s (value r) = None <-> pts = None).
Proof.
  assert (D : forall r : Run W Next.t,
              Next.out_pts_s (value r) = pts \/
              (Next.result (value r) = Some 1 /\
               exists v, Next.out_pts_s (value r) = store pts v) ->
              (Next.result (value r) <> Some 1 -> Next.out_pts_s (value r) = pts) /\
              (Next.out_pts_s (value r) = None <-> pts = None)).
  { intros r [E|[R [v E]]]; rewrite E.
    - tauto.
    - split; [intros H; contradiction|]. destruct pts; cbn; split; congruence. }
  call_cases.
  - tauto.
  - apply (D (ff_next_frame_loop fuel _ NULL pts _)), loop_out_pts.
  - apply D, loop_out_pts.
Qed.

(** X29.  When a draining session receives a frame and its buffer is
    created, the call returns 1 with that buffer, and the timestamp written
    is the best-effort timestamp of the frame times the time base of the
    stream, as doubles, or the unknown sentinel when the frame carries no
    timestamp; for a positive timestamp and a positive time base it is
    strictly positive. *)
Theorem ff_next_frame_timestamp (fuel : nat) (p : FFPlayer.t) (out_ib : pointer)
    (pts : option double) (w : W) (pb : pointer) :
  let s := avcodec_send_packet (FFPlayer.vdec p) None w in
  let rf := avcodec_receive_frame (FFPlayer.vdec p) (snd s) in
  let b := CVPixelBufferCreate (FFPlayer.out_w p) (FFPlayer.out_h p) (snd rf) in
  let w' :=
    CVPixelBufferUnlockBaseAddress pb
      (sws_scale (FFPlayer.sws p) (FFPlayer.frame p) pb
         (CVPixelBufferLockBaseAddress pb (snd b))) in
  let tb :=
    AVStream.time_base
      (stream_at (format_context (FFPlayer.fmt p) w') (FFPlayer.vstream p)) in
  let ts := AVFrame.best_effort_timestamp (snd (fst rf)) in
  let r := ff_next_frame (S fuel) p out_ib pts w in
  FFPlayer.at_eof p <> 0 -> FFPlayer.sws p <> NULL ->
  ~ (fst s < 0 /\ fst s <> AVERROR EAGAIN) ->
  0 <= fst (fst rf) -> fst b = Some pb ->
  Next.result (value r) = Some 1 /\ Next.out_ib (value r) = pb /\
  Next.out_pts_s (value r) = store pts (frame_seconds ts tb) /\
  (0 < ts -> is_int64 ts = true -> is_rational tb = true ->
   0 < AVRational.num tb -> 0 < AVRational.den tb ->
   strictly_positive (frame_seconds ts tb)).
Proof.
  cbv zeta. intros Heof Hsws Hsend Hrecv Hbuf.
  split; [|split; [|split]].
  4: { intros Hts Tts Ttb Hn Hd. unfold frame_seconds, strictly_positive.
       replace (_ =? AV_NOPTS_VALUE) with false
         by (symmetry; apply Z.eqb_neq; unfold AV_NOPTS_VALUE, INT64_MIN; lia).
       apply andb_true_iff in Ttb as [Tn Td].
       apply frames_product_positive; assumption. }
  all: unfold ff_next_frame.
  all: apply Z.eqb_neq in Heof, Hsws; rewrite Hsws.
  all: cbn [ff_next_frame_loop]; rewrite Heof; unfold receive_and_convert; run.
  all: replace ((_ <? 0) && negb (_ =? AVERROR EAGAIN)) with false;
    [|symmetry; apply andb_false_iff;
      destruct (Z.ltb_spec (avcodec_send_packet (FFPlayer.vdec p) None w).1 0);
      [right; apply negb_false_iff, Z.eqb_eq;
       destruct (Z.eq_dec (avcodec_send_packet (FFPlayer.vdec p) None w).1
                   (AVERROR EAGAIN)); [assumption|tauto]
      |left; reflexivity]].
  all: run.
  all: replace (_ =? AVERROR EAGAIN) with false
         by (symmetry; apply Z.eqb_neq; unfold AVERROR, EAGAIN; lia).
  all: replace (_ =? AVERROR_EOF) with false
         by (symmetry; apply Z.eqb_neq; unfold AVERROR_EOF; lia).
  all: replace (_ <? 0) with false by (symmetry; apply Z.ltb_ge; assumption).
  all: run; rewrite Hbuf; run.
  all: cbn [Next.result Next.out_ib Next.out_pts_s]; try reflexivity.
  unfold frame_seconds. destruct (_ =? AV_NOPTS_VALUE); reflexivity.
Qed.

End PumpLog.

(** ** Calls that return *)

Section Fuel.

Context {W : Type} {lib : LibAV W}.

(** A loop that has returned returns the same with more fuel. *)
Lemma loop_fuel (fuel fuel' : nat) (p : FFPlayer.t) (out_ib : pointer)
    (pts : option double) (w : W) :
  (fuel <= fuel')%nat ->
  Next.result (value (ff_next_frame_loop fuel p out_ib pts w)) <> None ->
  ff_next_frame_loop fuel' p out_ib pts w = ff_next_frame_loop fuel p out_ib pts w.
Proof.
  revert fuel' p w. induction fuel as [|fuel IH]; intros fuel' p w Hle.
  { intros H. exfalso. apply H. reflexivity. }
  destruct fuel' as [|fuel']; [lia|]. apply le_S_n in Hle.
  intros H. apply run_eq; revert H.
  all: pump_cases; try reflexivity.
  all: intros H; rewrite (IH fuel' _ _ Hle H); reflexivity.
Qed.

End Fuel.

Section ScriptedPump.

Lemma read_frames (w : Scripted.world) :
  Scripted.frames (Scripted.read w).2 = Scripted.frames w.
Proof. destruct w as [? ? ? ? ? ? ? ? [|? ?] ? ? ? ?]; reflexivity. Qed.

Lemma read_packets (w : Scripted.world) :
  (length (Scripted.packets (Scripted.read w).2) <= length (Scripted.packets w))%nat /\
  ((Scripted.read w).1.1 <> AVERROR_EOF ->
   S (length (Scripted.packets (Scripted.read w).2)) = length (Scripted.packets w)).
Proof.
  destruct w as [? ? ? ? ? ? ? ? [|? ?] ? ? ? ?]; cbn; split; try lia; try reflexivity.
  all: try (intros H; contradiction).
Qed.

Lemma send_script (w : Scripted.world) :
  Scripted.packets (Scripted.send w).2 = Scripted.packets w /\
  Scripted.frames (Scripted.send w).2 = Scripted.frames w.
Proof. destruct w as [? ? ? ? ? ? ? ? ? [|? ?] ? ? ?]; split; reflexivity. Qed.

Lemma receive_packets (w : Scripted.world) :
  Scripted.packets (Scripted.receive w).2 = Scripted.packets w.
Proof. destruct w as [? ? ? ? ? ? ? ? ? ? [|? ?] ? ?]; reflexivity. Qed.

Lemma receive_frames (w : Scripted.world) :
  (length (Scripted.frames (Scripted.receive w).2) <= length (Scripted.frames w))%nat /\
  ((Scripted.receive w).1.1 <> AVERROR_EOF ->
   S (length (Scripted.frames (Scripted.receive w).2)) = length (Scripted.frames w)).
Proof.
  destruct w as [? ? ? ? ? ? ? ? ? ? [|? ?] ? ?]; cbn; split; try lia; try reflexivity.
  all: try (intros H; contradiction).
Qed.

Ltac abstract_receive x :=
  pose proof (receive_frames x) as [? ?]; pose proof (receive_packets x);
  let r := fresh "rc" in set (r := Scripted.receive x) in *; clearbody r.

Ltac abstract_send x :=
  pose proof (send_script x) as [? ?];
  let r := fresh "sn" in set (r := Scripted.send x) in *; clearbody r.

Ltac abstract_read x :=
  pose proof (read_packets x) as [? ?]; pose proof (read_frames x);
  let r := fresh "rd" in set (r := Scripted.read x) in *; clearbody r.

Ltac abstract_script :=
  repeat match goal with
         | |- context [Scripted.receive ?x] => abstract_receive x
         | _ : context [Scripted.receive ?x] |- _ => abstract_receive x
         | |- context [Scripted.send ?x] => abstract_send x
         | _ : context [Scripted.send ?x] |- _ => abstract_send x
         | |- context [Scripted.read ?x] => abstract_read x
         | _ : context [Scripted.read ?x] |- _ => abstract_read x
         end;
  repeat match goal with
         | H : Scripted.packets _ = _ |- _ => rewrite H in *; clear H
         | H : Scripted.frames _ = _ |- _ => rewrite H in *; clear H
         end.

Lemma loop_returns (fuel : nat) (p : FFPlayer.t) (out_ib : pointer)
    (pts : option double) (w : Scripted.world) :
  (script_left w + (if (FFPlayer.at_eof p =? 0)%Z then 1 else 0) < fuel)%nat ->
  Next.result (value (ff_next_frame_loop fuel p out_ib pts w)) <> None.
Proof.
  revert p w. induction fuel as [|fuel IH]; intros p w; [lia|].
  pose proof EAGAIN_not_EOF as Hne.
  pump_cases; intros Hleft; try discriminate.
  all: apply IH; pump_fields; clear IH.
  all: cbn [av_read_frame av_packet_unref avcodec_send_packet avcodec_receive_frame
            Scripted.lib] in *.
  all: unfold script_left in *.
  all: repeat match goal with
              | H : (FFPlayer.at_eof _ =? 0) = _ |- _ => rewrite H in *; clear H
              end.
  all: cbn [Z.eqb] in *.
  all: bools; abstract_script; lia.
Qed.

(** X25.  On a source that delivers finitely many packets and a decoder
    that gives finitely many answers before it reports the end of the
    stream, a call returns: every turn of the loop consumes a packet or an
    answer.  Fuel beyond the length of the scripts changes nothing. *)
Theorem ff_next_frame_returns (fuel fuel' : nat) (p : FFPlayer.t) (out_ib : pointer)
    (pts : option double) (w : Scripted.world) :
  (script_left w + 1 < fuel)%nat -> (fuel <= fuel')%nat ->
  Next.result (value (ff_next_frame fuel p out_ib pts w)) <> None /\
  ff_next_frame fuel' p out_ib pts w = ff_next_frame fuel p out_ib pts w.
Proof.
  intros Hleft Hle.
  assert (Hs : script_left (Scripted.alloc w).2 = script_left w)
    by (destruct w; reflexivity).
  unfold ff_next_frame, setup_sws.
  destruct (FFPlayer.sws p =? NULL).
  - cbn [negb]. unfold bind at 1 3 5. cbv beta zeta. run. pump_fields.
    cbn [sws_getContext Scripted.lib].
    destruct (_ <? 0); run; [split; [discriminate|reflexivity]|].
    assert (R : Next.result
                  (value (ff_next_frame_loop fuel
                            (FFPlayer.set_sws (Scripted.alloc w).1 p) NULL pts
                            (Scripted.alloc w).2)) <> None).
    { apply loop_returns. rewrite Hs.
      destruct (_ =? 0)%Z; lia. }
    split; [exact R|]. rewrite (loop_fuel _ _ _ _ _ _ Hle R). reflexivity.
  - assert (R : Next.result (value (ff_next_frame_loop fuel p NULL pts w)) <> None).
    { apply loop_returns. destruct (_ =? 0)%Z; lia. }
    split; [exact R|]. apply loop_fuel; assumption.
Qed.

End ScriptedPump.

(** ** Codec tags *)

Section Tags.

Lemma byte_high (a n : Z) : 0 <= a < 256 -> 8 <= n -> Z.testbit a n = false.
Proof.
  intros Ha Hn. destruct (Z.eq_dec a 0) as [->|Hz]; [apply Z.bits_0|].
  apply Z.bits_above_log2; [lia|].
  assert (Z.log2 a < 8) by (apply Z.log2_lt_pow2; lia). lia.
Qed.

Lemma low_byte_bits (n : Z) : 0 <= n -> Z.testbit 255 n = (n <? 8).
Proof. intros Hn. apply (Z.testbit_ones_nonneg 8 n); lia. Qed.

Lemma tag_byte (a b c d k : Z) :
  0 <= a < 256 -> 0 <= b < 256 -> 0 <= c < 256 -> 0 <= d < 256 ->
  k = 0 \/ k = 1 \/ k = 2 \/ k = 3 ->
  Z.land (Z.shiftr (MKTAG a b c d) (8 * k)) 255 =
    if k =? 0 then a else if k =? 1 then b else if k =? 2 then c else d.
Proof.
  intros Ha Hb Hc Hd Hk. apply Z.bits_inj'. intros n Hn.
  rewrite Z.land_spec, low_byte_bits, Z.shiftr_spec by lia.
  unfold MKTAG. rewrite !Z.lor_spec, !Z.shiftl_spec by lia.
  destruct (Z.ltb_spec n 8) as [Hlt|Hge].
  - rewrite andb_true_r.
    destruct Hk as [-> | [-> | [-> | ->]]]; cbn [Z.eqb Z.mul Pos.mul].
    + rewrite (Z.testbit_neg_r b), (Z.testbit_neg_r c), (Z.testbit_neg_r d) by lia.
      rewrite !orb_false_r. f_equal. lia.
    + rewrite (byte_high a), (Z.testbit_neg_r c), (Z.testbit_neg_r d) by lia.
      rewrite !orb_false_r. cbn [orb]. f_equal. lia.
    + rewrite (byte_high a), (byte_high b), (Z.testbit_neg_r d) by lia.
      rewrite !orb_false_r. cbn [orb]. f_equal. lia.
    + rewrite (byte_high a), (byte_high b), (byte_high c) by lia.
      cbn [orb]. f_equal. lia.
  - rewrite andb_false_r. symmetry.
    destruct Hk as [-> | [-> | [-> | ->]]]; cbn [Z.eqb]; apply byte_high; assumption.
Qed.

Lemma tagstr_bytes (tag : Z) :
  tagstr tag =
    [tag mod 256; (tag / 2 ^ 8) mod 256; (tag / 2 ^ 16) mod 256; (tag / 2 ^ 24) mod 256; 0].
Proof.
  unfold tagstr. change 255 with (Z.ones 8).
  rewrite !Z.land_ones, !Z.shiftr_div_pow2 by lia. reflexivity.
Qed.

(** X6.  The bytes the codec identifier extracts from a tag are the four
    characters [MKTAG] packed into it, first character first, followed by
    the terminator; and two 32-bit tags with the same bytes are equal, so
    exactly one tag value passes the test for a given four-character
    code. *)
Theorem tagstr_round_trip (a b c d tag tag' : Z) :
  (0 <= a < 256 -> 0 <= b < 256 -> 0 <= c < 256 -> 0 <= d < 256 ->
   tagstr (MKTAG a b c d) = [a; b; c; d; 0]) /\
  (0 <= tag < 2 ^ 32 -> 0 <= tag' < 2 ^ 32 -> tagstr tag = tagstr tag' -> tag = tag').
Proof.
  split.
  - intros Ha Hb Hc Hd. unfold tagstr.
    pose proof (tag_byte a b c d 0 Ha Hb Hc Hd ltac:(tauto)) as H0.
    pose proof (tag_byte a b c d 1 Ha Hb Hc Hd ltac:(tauto)) as H1.
    pose proof (tag_byte a b c d 2 Ha Hb Hc Hd ltac:(tauto)) as H2.
    pose proof (tag_byte a b c d 3 Ha Hb Hc Hd ltac:(tauto)) as H3.
    change (8 * 0) with 0 in H0. change (8 * 1) with 8 in H1.
    change (8 * 2) with 16 in H2. change (8 * 3) with 24 in H3.
    rewrite Z.shiftr_0_r in H0. rewrite H0, H1, H2, H3. reflexivity.
  - intros Ht Ht'. rewrite !tagstr_bytes. intros [= E0 E1 E2 E3].
    change (2 ^ 8) with 256 in *. change (2 ^ 16) with 65536 in *.
    change (2 ^ 24) with 16777216 in *. change (2 ^ 32) with 4294967296 in *.
    Z.div_mod_to_equations. lia.
Qed.

End Tags.

(** ** The life of a session *)

Section LifeCycle.

Context {W : Type} {lib : LibAV W}.

Lemma pump_calls_quiet (v : Z) (l : list Call) :
  forallb (pump_call v) l = true -> quiet l.
Proof.
  induction l as [|c l IH]; intros H; [apply quiet_nil|].
  cbn [forallb] in H. apply andb_true_iff in H as [Hc Hl].
  apply (quiet_app [c]); [|apply IH, Hl].
  intros k. destruct c; try discriminate Hc; destruct k; split; reflexivity.
Qed.

(** X26.  A session that is opened, asked for a frame and closed leaves the
    memory as it was before the open, and over the three calls every
    session struct, decoder, frame, packet and converter that was acquired
    is released once: neither the lazily created converter nor a session
    that reached the end of input leaks. *)
Theorem session_life_cycle (path : option string) (out : OpenOut.t)
    (mem : gmap Z FFPlayer.t) (w : W) (fuel : nat) (out_ib : pointer)
    (pts : option double) :
  let o := ff_open path out mem w in
  let a := (value o).1.1 in
  a <> NULL -> mem !! a = None ->
  exists p,
    (value o).2 !! a = Some p /\
    let n := ff_next_frame fuel p out_ib pts (world o) in
    let c := ff_close a (<[a := Next.player (value n)]> (value o).2) (world n) in
    value c = Some mem /\ balanced (calls o ++ calls n ++ calls c).
Proof.
  cbv zeta. intros Ha Hfresh.
  destruct (ff_open_success path out mem w Ha)
    as (p & Hmem & Hsws & _ & _ & Hd & Hf & Hp & _ & o & i & x & y & _ & _ & _ & _ & L).
  exists p. rewrite Hmem, L. clear Hmem L.
  split; [apply lookup_insert_eq|].
  set (a := (value (ff_open path out mem w)).1.1) in *. clearbody a.
  set (w' := world (ff_open path out mem w)). clearbody w'.
  rewrite ff_next_frame_unfold. cbv zeta.
  apply Z.eqb_eq in Hsws. rewrite Hsws.
  apply Z.eqb_neq in Ha, Hd, Hf, Hp.
  set (c := sws_getContext (FFPlayer.vdec p) w') in *. clearbody c.
  assert (Q : forall q : FFPlayer.t, forall wq : W, forall l : list Call,
            (q = FFPlayer.set_sws c.1 p \/ q = FFPlayer.set_at_eof 1 (FFPlayer.set_sws c.1 p)) ->
            quiet l ->
            value (ff_close a (<[a:=q]> (<[a:=p]> mem)) wq) = Some mem /\
            balanced
              ([LogSetLevel; Calloc a; OpenInput o; FindStreamInfo i;
                AllocContext3 (FFPlayer.vdec p); ParametersToContext x; Open2 y;
                FrameAlloc (FFPlayer.frame p); PacketAlloc (FFPlayer.pkt p)] ++
               (GetContext c.1 :: l) ++
               calls (ff_close a (<[a:=q]> (<[a:=p]> mem)) wq))).
  { intros q wq l Hq Hl. unfold ff_close. rewrite Ha, lookup_insert_eq.
    assert (Hfields : FFPlayer.sws q = c.1 /\ FFPlayer.frame q = FFPlayer.frame p /\
                      FFPlayer.pkt q = FFPlayer.pkt p /\
                      FFPlayer.vdec q = FFPlayer.vdec p /\
                      FFPlayer.fmt q = FFPlayer.fmt p)
      by (destruct Hq as [-> | ->]; repeat split).
    destruct Hfields as (-> & -> & -> & -> & ->).
    rewrite Hd, Hf, Hp. cbn [negb]. run.
    rewrite insert_insert_eq, delete_insert_id by exact Hfresh.
    split; [destruct (negb (c.1 =? NULL)), (negb (FFPlayer.fmt p =? NULL)); reflexivity|].
    intros k. destruct (Hl k) as [R A].
    change (GetContext c.1 :: l) with ([GetContext c.1] ++ l).
    rewrite !omap_app, R, A.
    destruct (c.1 =? NULL) eqn:Hc, (FFPlayer.fmt p =? NULL); cbn [negb]; run;
      destruct k; cbn [app omap list_omap acquires releases];
      rewrite ?Ha, ?Hd, ?Hf, ?Hp, ?Hc; reflexivity. }
  destruct (c.1 =? NULL) eqn:Hc.
  - cbn [value world calls Next.player].
    apply (Q _ _ []); [left; reflexivity|apply quiet_nil].
  - cbn [value world calls].
    apply Q.
    + destruct (loop_player fuel (FFPlayer.set_sws c.1 p) NULL pts c.2) as [->|[_ ->]];
        [left|right]; reflexivity.
    + eapply pump_calls_quiet, loop_pump_calls.
Qed.

End LifeCycle.

(** ** The code on concrete containers *)

(** The ten-second clip: every estimator answers ten seconds. *)
Example ten_seconds_estimates :
  let path := Some "clip.mov"%string in
  value (ff_probe_duration path Clips.ten_seconds) = of_int 10 /\
  value (ff_frame_accurate_duration path Clips.ten_seconds) = of_int 10 /\
  value (ff_format_duration path Clips.ten_seconds) = of_int 10 /\
  value (ff_precise_duration path Clips.ten_seconds) = of_int 10 /\
  value (ff_get_avg_fps path Clips.ten_seconds) = of_int 30.
Proof. vm_compute. repeat split. Qed.

(** The codec identifier on the three guises, on an audio-only container
    and on a null path. *)
Example codec_identifier_answers :
  let path := Some "clip.mov"%string in
  value (ff_is_notchlc path (Clips.with_codec (Some (literal "notchlc")) 0)) = 1 /\
  value (ff_is_notchlc path
           (Clips.with_codec (Some (literal "rawvideo")) Clips.tag_nclc)) = 1 /\
  value (ff_is_notchlc path
           (Clips.with_codec (Some (literal "h264")) Clips.tag_avc1)) = 0 /\
  value (ff_is_notchlc path Clips.audio_only) = -1 /\
  value (ff_is_notchlc None Clips.ten_seconds) = -1.
Proof. vm_compute. repeat split. Qed.

(** The pump on two frames: two produced frames, then the end of stream. *)
Example pump_two_frames :
  let first := ff_next_frame 8 Clips.session 0 (Some NAN) Clips.two_frames in
  let second :=
    ff_next_frame 8 (Next.player (value first)) 0 (Some NAN) (world first) in
  let third :=
    ff_next_frame 8 (Next.player (value second)) 0 (Some NAN) (world second) in
  (Next.result (value first), Next.out_ib (value first)) = (Some 1, 77) /\
  (Next.result (value second), Next.out_ib (value second)) = (Some 1, 78) /\
  FFPlayer.at_eof (Next.player (value second)) = 1 /\
  (Next.result (value third), Next.out_ib (value third)) = (Some 0, NULL).
Proof. vm_compute. repeat split. Qed.

(** C1, as stated, fails: [ff_open] on a container that reports a duration
    of zero returns a session and reports the duration [+0.0], which is
    neither the unknown sentinel nor strictly positive. *)
Lemma ff_open_reports_zero_duration :
  let opened := ff_open (Some "still.png"%string) Clips.all_out ∅ Clips.still_image in
  (value opened).1.1 <> NULL /\
  OpenOut.duration_s (value opened).1.2 = Some zero /\
  ~ nan_or_positive zero.
Proof.
  vm_compute. repeat split; try discriminate.
  intros [H|H]; discriminate H.
Qed.

(** C1: the amended statement on the ten-second clip. *)
Lemma duration_results_witness :
  let w := Clips.ten_seconds in
  let path := Some "clip.mov"%string in
  (value (ff_open path Clips.all_out ∅ w)).1.1 <> NULL /\
  exists p,
    (value (ff_open path Clips.all_out ∅ w)).2
      !! (value (ff_open path Clips.all_out ∅ w)).1.1 = Some p /\
    let f := format_context (FFPlayer.fmt p) (world (ff_open path Clips.all_out ∅ w)) in
    OpenOut.duration_s (value (ff_open path Clips.all_out ∅ w)).1.2 =
      store (OpenOut.duration_s Clips.all_out)
        (best_effort_duration f (stream_at f (FFPlayer.vstream p))).
Proof.
  cbv zeta.
  assert (H : (value (ff_open (Some "clip.mov"%string) Clips.all_out ∅
                        Clips.ten_seconds)).1.1 <> NULL)
    by (vm_compute; discriminate).
  split; [exact H|].
  exact (proj2 (proj2 (proj2 (proj2
           (duration_results (Some "clip.mov"%string) Clips.all_out ∅
              Clips.ten_seconds)))) H).
Defined.

(** C2: a draining session whose decoder reports fully drained. *)
Lemma ff_next_frame_end_of_stream_witness :
  let r := ff_next_frame 1 Clips.draining 55 None Clips.ten_seconds in
  Next.result (value r) = Some 0 /\ Next.out_ib (value r) = NULL /\
  Next.player (value r) = Clips.draining.
Proof.
  cbv zeta.
  apply (proj2 (proj2 (ff_next_frame_end_of_stream 0 Clips.draining 55 None
                         Clips.ten_seconds))).
  - vm_compute. discriminate.
  - vm_compute. discriminate.
  - vm_compute. intros [H _]. discriminate H.
  - vm_compute. reflexivity.
Defined.

(** C3: closing the one live session of a memory. *)
Lemma ff_close_releases_witness :
  let mem : gmap Z FFPlayer.t := {[ 100 := Clips.session ]} in
  let r := ff_close 100 mem Clips.ten_seconds in
  value r = Some (delete 100 mem) /\
  calls r = released Clips.session ++ [Free 100] /\
  value (ff_close 100 (delete 100 mem) (world r)) = None.
Proof.
  cbv zeta.
  apply (proj2 (ff_close_releases 100 {[ 100 := Clips.session ]} Clips.ten_seconds)).
  - discriminate.
  - vm_compute. reflexivity.
Defined.

(** C4: the fast probe on a stream that reports an average rate of 25 and
    a real rate of 30 frames per second, 300 frames and no duration: the
    frame count tier applies, with the average rate. *)
Lemma ff_probe_duration_tiers_witness :
  let w := Scripts.two_rates in
  let path := Some "clip.mov"%string in
  probe_well_typed path w /\
  value (ff_probe_duration path w) =
    match stream_prober path w with
    | None => NAN
    | Some (fmt, w') =>
        let f := format_context fmt w' in
        fast_probe_tiers f (selected fmt w') (avio_size (AVFormatContext.pb f) w')
    end /\
  value (ff_probe_duration path w) = of_int 12.
Proof.
  cbv zeta.
  assert (H : probe_well_typed (Some "clip.mov"%string) Scripts.two_rates)
    by (vm_compute; reflexivity).
  split; [exact H|]. split; [|vm_compute; reflexivity].
  exact (ff_probe_duration_tiers (Some "clip.mov"%string) Scripts.two_rates H).
Defined.

(** C5: the frame-accurate duration of the same stream: 300 frames at the
    average rate of 25 frames per second. *)
Lemma ff_frame_accurate_duration_value_witness :
  let w := Scripts.two_rates in
  selected_typed (Some "clip.mov"%string) w /\
  value (ff_frame_accurate_duration (Some "clip.mov"%string) w) =
    match stream_prober (Some "clip.mov"%string) w with
    | None => NAN
    | Some (fmt, w') => frame_accurate_value (selected fmt w')
    end /\
  value (ff_frame_accurate_duration (Some "clip.mov"%string) w) = of_int 12.
Proof.
  cbv zeta.
  assert (H : selected_typed (Some "clip.mov"%string) Scripts.two_rates)
    by (vm_compute; split; reflexivity).
  split; [exact H|]. split; [|vm_compute; reflexivity].
  exact (ff_frame_accurate_duration_value "clip.mov"%string Scripts.two_rates H).
Defined.

(** C7: the precise duration of the ten-second clip. *)
Lemma ff_precise_duration_value_witness :
  let w := Clips.ten_seconds in
  let path := "clip.mov"%string in
  selected_typed (Some path) w /\
  value (ff_precise_duration (Some path) w) =
    match stream_prober (Some path) w with
    | None => NAN
    | Some (fmt, w') =>
        let f := format_context fmt w' in
        let vindex := av_find_best_stream fmt w' in
        if vindex <? 0 then container_tier f else
        let tb := AVStream.time_base (stream_at f vindex) in
        let scan := scan_windows windows_sec fmt vindex tb AV_NOPTS_VALUE w' in
        let f' := format_context fmt (world scan) in
        known_or_nan (precise_candidate f' (stream_at f' vindex) tb (value scan))
    end.
Proof.
  cbv zeta.
  assert (H : selected_typed (Some "clip.mov"%string) Clips.ten_seconds)
    by (vm_compute; split; reflexivity).
  split; [exact H|].
  exact (ff_precise_duration_value "clip.mov"%string Clips.ten_seconds H).
Defined.

(** C8: a session whose first read fails with [AVERROR(EIO)]. *)
Lemma ff_next_frame_read_error_witness :
  let r := ff_next_frame 1 Clips.session 55 None Clips.broken_read in
  Next.result (value r) = Some (-5) /\ Next.player (value r) = Clips.session /\
  calls r = [ReadFrame (-5); PacketUnref] /\
  world r =
    av_packet_unref (FFPlayer.pkt Clips.session)
      (snd (av_read_frame (FFPlayer.fmt Clips.session) Clips.broken_read)).
Proof.
  cbv zeta.
  apply (proj2 (ff_next_frame_read_error 0 Clips.session 55 None Clips.broken_read
                  (-5) ltac:(lia) ltac:(discriminate))).
  - reflexivity.
  - discriminate.
  - reflexivity.
Defined.

(** C9: the first window captures a timestamp, the other two are not
    visited. *)
Lemma scan_is_capped_witness :
  let tb := AVRational.mk 1 30 in
  scan_windows (zero :: [of_int 5; of_int 30]) 100 0 tb AV_NOPTS_VALUE
    Clips.first_packet_only =
  scan_windows [zero] 100 0 tb AV_NOPTS_VALUE Clips.first_packet_only.
Proof.
  cbv zeta.
  apply (proj1 (proj2 (@scan_is_capped Scripted.world Scripted.lib))).
  vm_compute. discriminate.
Defined.

(** C10: an end-of-stream result leaves the caller's buffer pointer null. *)
Lemma ff_next_frame_out_ib_witness :
  let r := ff_next_frame 1 Clips.draining 55 None Clips.ten_seconds in
  Next.result (value r) <> Some 1 /\ Next.out_ib (value r) = NULL.
Proof.
  cbv zeta.
  assert (H : Next.result (value (ff_next_frame 1 Clips.draining 55 None
                                    Clips.ten_seconds)) <> Some 1)
    by (vm_compute; discriminate).
  split; [exact H|].
  exact (ff_next_frame_out_ib 1 Clips.draining 55 None Clips.ten_seconds H).
Defined.

(** C3, as stated, fails: a second close on the pointer of a session that
    was closed is not a no-op; the session was freed, and the close reads
    it. *)
Lemma second_close_faults :
  let opened := ff_open (Some "clip.mov"%string) Clips.no_out ∅ Clips.ten_seconds in
  let a := (value opened).1.1 in
  let closed := ff_close a (value opened).2 (world opened) in
  a = 100 /\
  value closed = Some ∅ /\
  value (ff_close a ∅ (world closed)) = None /\
  value (ff_close a ∅ (world closed)) <> Some ∅.
Proof. vm_compute. repeat split; discriminate. Qed.

(** C4, as stated, fails: a stream with 300 frames and a frame rate that is
    nonzero but negative, in a container where no earlier tier applies.  The
    frame count tier of the claim applies and gives 300 over -30; the code
    tests that the rate is strictly positive, skips the tier and returns the
    unknown sentinel. *)
Lemma fast_probe_skips_negative_rate :
  let w := Scripts.negative_rate in
  let vs := Scripts.negative_rate_stream in
  let rate := preferred_rate vs in
  let by_frames :=
    div (of_int (AVStream.nb_frames vs))
      (div (of_int (AVRational.num rate)) (of_int (AVRational.den rate))) in
  selected 100 w = Some vs /\
  AVFormatContext.duration (Scripted.container w) <= 0 /\
  AVStream.duration vs <= 0 /\
  0 < AVStream.nb_frames vs /\ rate_nonzero rate = true /\
  by_frames = of_int (-10) /\
  value (ff_probe_duration (Some "odd.mov"%string) w) = NAN /\
  value (ff_probe_duration (Some "odd.mov"%string) w) <> by_frames.
Proof. vm_compute. repeat split; discriminate. Qed.

(** C5, as stated, fails: a stream with no frame count, a valid frame rate
    and a known duration of zero ticks yields the unknown sentinel, not the
    stream duration times the time base. *)
Lemma frame_accurate_unknown_despite_duration :
  let vs := Clips.empty_stream in
  AVStream.nb_frames vs = 0 /\
  AVStream.duration vs <> AV_NOPTS_VALUE /\
  value (ff_frame_accurate_duration (Some "empty.mov"%string) Clips.empty_clip) = NAN /\
  value (ff_frame_accurate_duration (Some "empty.mov"%string) Clips.empty_clip) <>
    mul (of_int (AVStream.duration vs)) (av_q2d (AVStream.time_base vs)).
Proof. vm_compute. repeat split; discriminate. Qed.

(** C7, as stated, fails: a scan that captured the timestamp 0 yields the
    unknown sentinel, not the timestamp times the time base, although the
    stream and the container both report a duration of ten seconds. *)
Lemma precise_unknown_despite_timestamp :
  let w := Clips.first_packet_only in
  let vs := Clips.ten_seconds_stream in
  let scan := scan_windows windows_sec 100 0 (AVStream.time_base vs) AV_NOPTS_VALUE w in
  value scan = 0 /\
  value (ff_precise_duration (Some "first.mov"%string) w) = NAN /\
  value (ff_precise_duration (Some "first.mov"%string) w) <>
    precise_candidate (Scripted.container w) vs (AVStream.time_base vs) (value scan).
Proof. vm_compute. repeat split; discriminate. Qed.

(** ** The further properties on concrete containers *)

(** X2: the average frame rate of a stream that reports an average rate of
    25 and a real rate of 30 frames per second. *)
Lemma ff_get_avg_fps_value_witness :
  let w := Scripts.two_rates in
  let path := "clip.mov"%string in
  let fps := value (ff_get_avg_fps (Some path) w) in
  selected_typed (Some path) w /\
  fps =
    match stream_prober (Some path) w with
    | None => NAN
    | Some (fmt, w') => average_rate (selected fmt w')
    end /\
  (fps = NAN \/ (strictly_positive fps /\ is_finite fps = true)) /\
  fps = of_int 25.
Proof.
  cbv zeta.
  assert (H : selected_typed (Some "clip.mov"%string) Scripts.two_rates)
    by (vm_compute; split; reflexivity).
  split; [exact H|].
  destruct (ff_get_avg_fps_value "clip.mov"%string Scripts.two_rates H)
    as (_ & Hv & Hs).
  split; [exact Hv|]. split; [exact Hs|]. vm_compute. reflexivity.
Defined.

(** X3: the format duration of the ten-second clip. *)
Lemma ff_format_duration_value_witness :
  let w := Clips.ten_seconds in
  let path := "clip.mov"%string in
  container_typed (Some path) w /\
  value (ff_format_duration (Some path) w) =
    match stream_prober (Some path) w with
    | None => NAN
    | Some (fmt, w') => container_tier (format_context fmt w')
    end.
Proof.
  cbv zeta.
  assert (H : container_typed (Some "clip.mov"%string) Clips.ten_seconds)
    by (vm_compute; reflexivity).
  split; [exact H|].
  exact (proj2 (ff_format_duration_value "clip.mov"%string Clips.ten_seconds H)).
Defined.

(** X4: the fast probe and the format duration of the ten-second clip. *)
Lemma fast_probe_agrees_with_format_witness :
  let w := Clips.ten_seconds in
  let path := Some "clip.mov"%string in
  value (ff_format_duration path w) <> NAN /\
  value (ff_probe_duration path w) = value (ff_format_duration path w).
Proof.
  cbv zeta.
  assert (H : value (ff_format_duration (Some "clip.mov"%string) Clips.ten_seconds)
              <> NAN)
    by (vm_compute; discriminate).
  split; [exact H|].
  exact (fast_probe_agrees_with_format (Some "clip.mov"%string) Clips.ten_seconds H).
Defined.


(** X6: the bytes of the tag of the four characters "nclc". *)
Lemma tagstr_round_trip_witness :
  tagstr (MKTAG 110 99 108 99) = [110; 99; 108; 99; 0].
Proof.
  apply (proj1 (tagstr_round_trip 110 99 108 99 0 0)); lia.
Defined.

(** X8: a scan whose first read fails stops there. *)
Lemma scan_packets_reads_and_unrefs_witness :
  let l := calls (scan_packets 3 100 7 0 AV_NOPTS_VALUE Clips.broken_read) in
  exists e, last l = Some (ReadFrame e) /\ e < 0.
Proof.
  cbv zeta.
  apply (proj2 (scan_packets_reads_and_unrefs 3 100 7 0 AV_NOPTS_VALUE
                  Clips.broken_read)).
  vm_compute. lia.
Defined.

(** X9: a source that delivers one packet of the selected stream, stamped
    0. *)
Lemma scan_packets_last_timestamp_witness :
  let l := [AVPacket.mk 0 0 0] in
  delivers 100 7 l Clips.first_packet_only /\
  value (scan_packets 3 100 7 0 AV_NOPTS_VALUE Clips.first_packet_only) =
    last_stamp 0 (firstn 3 l) AV_NOPTS_VALUE.
Proof.
  cbv zeta.
  assert (H : delivers 100 7 [AVPacket.mk 0 0 0] Clips.first_packet_only)
    by (cbn; repeat split; try reflexivity; discriminate).
  split; [exact H|].
  exact (scan_packets_last_timestamp 3 100 7 0 AV_NOPTS_VALUE _
           Clips.first_packet_only H).
Defined.

(** X10: the ten-second clip on a source that refuses every seek. *)
Lemma precise_when_no_seek_succeeds_witness :
  let w := Scripts.unseekable in
  let path := "clip.mov"%string in
  no_seek_succeeds (Some path) w /\
  reads (calls (ff_precise_duration (Some path) w)) = 0%nat.
Proof.
  cbv zeta.
  assert (H : no_seek_succeeds (Some "clip.mov"%string) Scripts.unseekable)
    by (vm_compute; split; [discriminate|reflexivity]).
  split; [exact H|].
  exact (proj1 (precise_when_no_seek_succeeds "clip.mov"%string Scripts.unseekable H)).
Defined.

(** X12: the session opened on the ten-second clip. *)
Lemma ff_open_session_witness :
  let r := ff_open (Some "clip.mov"%string) Clips.all_out ∅ Clips.ten_seconds in
  (value r).1.1 <> NULL /\
  exists p,
    (value r).2 = <[(value r).1.1 := p]> ∅ /\
    FFPlayer.sws p = NULL /\ FFPlayer.at_eof p = 0 /\ 0 <= FFPlayer.vstream p.
Proof.
  cbv zeta.
  assert (H : (value (ff_open (Some "clip.mov"%string) Clips.all_out ∅
                        Clips.ten_seconds)).1.1 <> NULL)
    by (vm_compute; discriminate).
  split; [exact H|].
  destruct (ff_open_session (Some "clip.mov"%string) Clips.all_out ∅
              Clips.ten_seconds H) as (p & Hm & Hs & He & Hv & _).
  exists p. repeat split; assumption.
Defined.

(** X13: the out-parameters of the open of the ten-second clip. *)
Lemma ff_open_out_parameters_witness :
  let r := ff_open (Some "clip.mov"%string) Clips.all_out ∅ Clips.ten_seconds in
  (value r).1.1 <> NULL /\
  exists p,
    (value r).2 !! (value r).1.1 = Some p /\
    OpenOut.width (value r).1.2 =
      store (OpenOut.width Clips.all_out)
        (fst (codec_dimensions (FFPlayer.vdec p) (world r))).
Proof.
  cbv zeta.
  assert (H : (value (ff_open (Some "clip.mov"%string) Clips.all_out ∅
                        Clips.ten_seconds)).1.1 <> NULL)
    by (vm_compute; discriminate).
  split; [exact H|].
  destruct (ff_open_out_parameters (Some "clip.mov"%string) Clips.all_out ∅
              Clips.ten_seconds H) as (p & Hm & Hw & _).
  exists p. split; assumption.
Defined.

(** X14: the open of a container with an audio stream only fails. *)
Lemma ff_open_failure_witness :
  let r := ff_open (Some "song.m4a"%string) Clips.all_out ∅ Clips.audio_only in
  (value r).1.1 = NULL /\ (value r).1.2 = Clips.all_out /\ (value r).2 = ∅ /\
  balanced (calls r).
Proof.
  cbv zeta.
  assert (H : (value (ff_open (Some "song.m4a"%string) Clips.all_out ∅
                        Clips.audio_only)).1.1 = NULL)
    by (vm_compute; reflexivity).
  split; [exact H|].
  destruct (ff_open_failure (Some "song.m4a"%string) Clips.all_out ∅
              Clips.audio_only H) as (Ho & Hm & Hb & _).
  repeat split; assumption.
Defined.

(** X15: the ten-second clip, opened and closed. *)
Lemma ff_open_then_close_witness :
  let r := ff_open (Some "clip.mov"%string) Clips.no_out ∅ Clips.ten_seconds in
  let c := ff_close (value r).1.1 (value r).2 (world r) in
  value c = Some ∅ /\ balanced (calls r ++ calls c) /\
  last (calls c) = Some (Free (value r).1.1).
Proof.
  cbv zeta.
  apply (ff_open_then_close (Some "clip.mov"%string) Clips.no_out ∅ Clips.ten_seconds).
  - vm_compute. discriminate.
  - apply lookup_empty.
Defined.

(** X16: a session with a converter creates no other. *)
Lemma ff_next_frame_converter_witness :
  let r := ff_next_frame 8 Clips.session 0 None Clips.two_frames in
  FFPlayer.sws (Next.player (value r)) = FFPlayer.sws Clips.session /\
  forall c, ~ In (GetContext c) (calls r).
Proof.
  cbv zeta.
  apply (proj1 (ff_next_frame_converter 8 Clips.session 0 None Clips.two_frames)).
  vm_compute. discriminate.
Defined.

(** X17: on an empty source the call sets the end-of-input flag, so it read
    the end-of-input signal. *)
Lemma ff_next_frame_session_witness :
  In (ReadFrame AVERROR_EOF)
    (calls (ff_next_frame 2 Clips.session 0 None Clips.ten_seconds)).
Proof.
  apply (proj2 (proj2 (proj2 (proj2 (proj2 (proj2 (proj2 (proj2
           (ff_next_frame_session 2 Clips.session 0 None Clips.ten_seconds))))))))).
  vm_compute. discriminate.
Defined.

(** X18: a draining session leaves the source alone. *)
Lemma ff_next_frame_draining_witness :
  let r := ff_next_frame 2 Clips.draining 0 None Clips.two_frames in
  (forall x, ~ In (ReadFrame x) (calls r)) /\
  ~ In PacketUnref (calls r) /\
  (forall pkt s, ~ In (SendPacket (Some pkt) s) (calls r)) /\
  FFPlayer.at_eof (Next.player (value r)) = FFPlayer.at_eof Clips.draining.
Proof.
  cbv zeta.
  apply (ff_next_frame_draining 2 Clips.draining 0 None Clips.two_frames).
  vm_compute. discriminate.
Defined.

(** X19: the first packet of the two-frame source is sent to the decoder,
    and it belongs to the stream of the session. *)
Lemma ff_next_frame_sends_selected_stream_witness :
  AVPacket.stream_index (AVPacket.mk 0 0 0) = FFPlayer.vstream Clips.session.
Proof.
  apply (ff_next_frame_sends_selected_stream 8 Clips.session 0 None Clips.two_frames
           (AVPacket.mk 0 0 0) 0).
  vm_compute. right. left. reflexivity.
Defined.

(** X21: a decoder that fails with [AVERROR(EINVAL)]. *)
Lemma ff_next_frame_decode_error_witness :
  let r := ff_next_frame 2 Clips.session 0 None Scripts.broken_decoder in
  Next.result (value r) = Some (-22) /\ last (calls r) = Some (ReceiveFrame (-22)).
Proof.
  cbv zeta.
  apply (proj1 (ff_next_frame_decode_error 2 Clips.session 0 None
                  Scripts.broken_decoder (-22) ltac:(lia) ltac:(discriminate))).
  - discriminate.
  - vm_compute. tauto.
Defined.

(** X22: a frame for which no buffer can be created. *)
Lemma ff_next_frame_buffer_failure_witness :
  let r := ff_next_frame 2 Clips.session 0 None Scripts.no_buffer in
  Next.result (value r) = Some (-3) /\
  last (calls r) = Some (PixelBufferCreate None).
Proof.
  cbv zeta.
  apply (ff_next_frame_buffer_failure 2 Clips.session 0 None Scripts.no_buffer).
  vm_compute. tauto.
Defined.

(** X23: the first frame of the two-frame source. *)
Lemma ff_next_frame_frame_witness :
  let r := ff_next_frame 8 Clips.session 0 None Clips.two_frames in
  Next.result (value r) = Some 1 /\ Next.out_ib (value r) = 77 /\
  exists pre e, 0 <= e /\ calls r = pre ++ frame_handover e 77.
Proof.
  cbv zeta.
  apply (proj1 (ff_next_frame_frame 8 Clips.session 0 None Clips.two_frames) 77).
  vm_compute. tauto.
Defined.

(** X24: a call that reports the end of the stream leaves the timestamp
    alone. *)
Lemma ff_next_frame_out_pts_witness :
  let r := ff_next_frame 1 Clips.draining 0 (Some zero) Clips.ten_seconds in
  Next.out_pts_s (value r) = Some zero.
Proof.
  cbv zeta.
  apply (proj1 (ff_next_frame_out_pts 1 Clips.draining 0 (Some zero)
                  Clips.ten_seconds)).
  vm_compute. discriminate.
Defined.

(** X25: the two-frame source: six scripted answers, fuel eight. *)
Lemma ff_next_frame_returns_witness :
  let run fuel := ff_next_frame fuel Clips.session 0 None Clips.two_frames in
  Next.result (value (run 8%nat)) <> None /\ run 9%nat = run 8%nat.
Proof.
  cbv zeta.
  apply (ff_next_frame_returns 8 9 Clips.session 0 None Clips.two_frames).
  - vm_compute. lia.
  - lia.
Defined.

(** X26: the ten-second clip, opened, asked for a frame and closed. *)
Lemma session_life_cycle_witness :
  let o := ff_open (Some "clip.mov"%string) Clips.no_out ∅ Clips.ten_seconds in
  let a := (value o).1.1 in
  exists p,
    (value o).2 !! a = Some p /\
    let n := ff_next_frame 2 p 0 None (world o) in
    let c := ff_close a (<[a := Next.player (value n)]> (value o).2) (world n) in
    value c = Some ∅ /\ balanced (calls o ++ calls n ++ calls c).
Proof.
  cbv zeta.
  apply (session_life_cycle (Some "clip.mov"%string) Clips.no_out ∅ Clips.ten_seconds
           2 0 None).
  - vm_compute. discriminate.
  - apply lookup_empty.
Defined.
(** X29: a draining session that receives the first frame of the two-frame
    source. *)
Lemma ff_next_frame_timestamp_witness :
  let r := ff_next_frame 1 Clips.draining 0 (Some NAN) Clips.two_frames in
  Next.result (value r) = Some 1 /\ Next.out_ib (value r) = 77 /\
  Next.out_pts_s (value r) = Some zero.
Proof.
  cbv zeta.
  destruct (ff_next_frame_timestamp 0 Clips.draining 0 (Some NAN) Clips.two_frames 77)
    as (R & B & T & _).
  - vm_compute. discriminate.
  - vm_compute. discriminate.
  - vm_compute. intros [H _]. discriminate H.
  - vm_compute. discriminate.
  - vm_compute. reflexivity.
  - split; [exact R|split; [exact B|]]. rewrite T. vm_compute. reflexivity.
Defined.
